(** * Soul Protocol registry: the identity verification core

    A shallow embedding of the registry's canonical hashing, signature
    decoding and verification (crypto.ts), its storage layer (db.ts), the
    request handlers of the server (server.ts) and the reference client
    (agent-self-register.js), followed by the properties of the
    specification that were checked against them. *)

From Bignums Require Import BigZ.
From Stdlib Require Import ZArith Lia Ascii String List Bool.
From stdpp Require Import base option list strings gmap sorting pretty.

Local Open Scope string_scope.
Local Open Scope Z_scope.
Set Warnings "-register-all".

(** ** The JavaScript values and built-ins the code relies on *)

Module Js.

(** A JavaScript string is a sequence of UTF-16 code units.  The model keeps
    the code units U+0000 to U+00FF, one [ascii] each; every string the
    registry's schemas admit for names, identifiers, keys and signatures
    lies in that range. *)
Definition code (c : ascii) : Z := Z.of_N (N_of_ascii c).
Definition unit_of (z : Z) : ascii := ascii_of_N (Z.to_N z).

Definition dquote : ascii := "034"%char.
Definition backslash : ascii := "092"%char.

Fixpoint map_units (f : ascii -> ascii) (s : string) : string :=
  match s with
  | EmptyString => EmptyString
  | String c r => String (f c) (map_units f r)
  end.

(** [String.prototype.toLowerCase] on the modelled range: A to Z and the
    Latin-1 capitals U+00C0 to U+00DE (U+00D7, the times sign, has no case). *)
Definition lower_unit (c : ascii) : ascii :=
  let n := code c in
  if ((65 <=? n) && (n <=? 90)) || ((192 <=? n) && (n <=? 222) && negb (n =? 215))
  then unit_of (n + 32) else c.

Definition toLowerCase (s : string) : string := map_units lower_unit s.

Definition startsWith (s p : string) : bool := String.prefix p s.

Fixpoint slice (n : nat) (s : string) : string :=
  match n, s with
  | O, _ => s
  | S n', String _ r => slice n' r
  | S _, EmptyString => EmptyString
  end.

(** Completion of a JavaScript computation: a value, or a thrown error. *)
Inductive result (A : Type) : Type :=
| Ok (a : A)
| Throw (msg : string).
Arguments Ok {A} a.
Arguments Throw {A} msg.

#[global] Instance result_ret : MRet result := fun A a => Ok a.
#[global] Instance result_bind : MBind result := fun A B f r =>
  match r with
  | Ok a => f a
  | Throw m => Throw m
  end.

(** [try { body } catch (error) { handler }]. *)
Definition try_catch {A} (body : result A) (handler : string -> result A) : result A :=
  match body with
  | Ok a => Ok a
  | Throw m => handler m
  end.

(** A [Uint8Array] is a list of bytes; [new Uint8Array(numbers)] reduces each
    number modulo 256. *)
Definition byte_of_Z (z : Z) : Byte.byte :=
  match Byte.of_N (Z.to_N (z mod 256)) with
  | Some b => b
  | None => Byte.x00
  end.
Definition Z_of_byte (b : Byte.byte) : Z := Z.of_N (Byte.to_N b).

(** [new TextEncoder().encode(s)]: UTF-8, one byte below U+0080 and two
    bytes from U+0080 to U+00FF. *)
Fixpoint TextEncoder_encode (s : string) : list Byte.byte :=
  match s with
  | EmptyString => []
  | String c r =>
      let n := code c in
      if n <? 128 then byte_of_Z n :: TextEncoder_encode r
      else byte_of_Z (Z.lor 192 (Z.shiftr n 6))
           :: byte_of_Z (Z.lor 128 (Z.land n 63))
           :: TextEncoder_encode r
  end.

Definition hex_digit (n : Z) : ascii :=
  if n <? 10 then unit_of (48 + n) else unit_of (87 + n).

(** [Buffer.from(bytes).toString('hex')]: two lowercase digits per byte. *)
Fixpoint Buffer_toString_hex (bs : list Byte.byte) : string :=
  match bs with
  | [] => EmptyString
  | b :: r =>
      let n := Z_of_byte b in
      String (hex_digit (Z.shiftr n 4))
        (String (hex_digit (Z.land n 15)) (Buffer_toString_hex r))
  end.

Definition hex_value (c : ascii) : option Z :=
  let n := code c in
  if (48 <=? n) && (n <=? 57) then Some (n - 48)
  else if (97 <=? n) && (n <=? 102) then Some (n - 87)
  else if (65 <=? n) && (n <=? 70) then Some (n - 55)
  else None.

(** [Buffer.from(s, 'hex')]: decodes pairs of digits and stops, without an
    error, at the first pair that is not hexadecimal; a trailing single
    digit is dropped. *)
Fixpoint Buffer_from_hex (s : string) : list Byte.byte :=
  match s with
  | String a (String b r) =>
      match hex_value a, hex_value b with
      | Some h, Some l => byte_of_Z (16 * h + l) :: Buffer_from_hex r
      | _, _ => []
      end
  | _ => []
  end.

(** [/^[0-9a-fA-F]+$/.test(s)]. *)
Fixpoint all_hex (s : string) : bool :=
  match s with
  | EmptyString => true
  | String c r => bool_decide (is_Some (hex_value c)) && all_hex r
  end.
Definition is_hex_string (s : string) : bool :=
  match s with
  | EmptyString => false
  | _ => all_hex s
  end.

(** [s.indexOf(c)] for a one-unit needle; -1 when absent. *)
Fixpoint indexOf_from (i : Z) (s : string) (c : ascii) : Z :=
  match s with
  | EmptyString => -1
  | String d r => if Ascii.eqb d c then i else indexOf_from (i + 1) r c
  end.
Definition indexOf (s : string) (c : ascii) : Z := indexOf_from 0 s c.

(** JSON-like values.  A number carries the text [Number::toString] renders
    it as; an object carries its own enumerable properties in the order
    [Object.keys] lists them. *)
Inductive json : Type :=
| JNull
| JBool (b : bool)
| JNumber (repr : string)
| JString (s : string)
| JArray (items : list json)
| JObject (props : list (string * json)).

(** [Get(holder, P)] on own properties. Members inherited from
    [Object.prototype] are functions, which [JSON.stringify] omits exactly as
    it omits an absent property; the accessor [__proto__] is the one
    exception and is not modelled. *)
Fixpoint assoc {A} (k : string) (l : list (string * A)) : option A :=
  match l with
  | [] => None
  | (k', v) :: r => if String.eqb k k' then Some v else assoc k r
  end.

Definition hex4 (n : Z) : string :=
  String (hex_digit (Z.land (Z.shiftr n 12) 15))
    (String (hex_digit (Z.land (Z.shiftr n 8) 15))
      (String (hex_digit (Z.land (Z.shiftr n 4) 15))
        (String (hex_digit (Z.land n 15)) EmptyString))).

(** [QuoteJSONString]: the two-character escapes, [\uXXXX] for the other
    control characters, every other code unit as it is. *)
Definition escape_unit (c : ascii) : string :=
  let n := code c in
  if n =? 8 then String backslash "b"
  else if n =? 9 then String backslash "t"
  else if n =? 10 then String backslash "n"
  else if n =? 12 then String backslash "f"
  else if n =? 13 then String backslash "r"
  else if n =? 34 then String backslash (String dquote EmptyString)
  else if n =? 92 then String backslash (String backslash EmptyString)
  else if n <? 32 then String backslash ("u" ++ hex4 n)
  else String c EmptyString.

Fixpoint escape (s : string) : string :=
  match s with
  | EmptyString => EmptyString
  | String c r => escape_unit c ++ escape r
  end.

Definition QuoteJSONString (s : string) : string :=
  String dquote (escape s ++ String dquote EmptyString).

(** [SerializeJSONProperty] with an empty gap.  [K] is the property list
    built from an array replacer, [None] when [JSON.stringify] is called
    without one.  With a property list, every object at every depth is
    serialized through the same list: the keys of the list in the order of
    the list, each kept only where the object holds it. *)
Fixpoint SerializeJSONProperty (K : option (list string)) (v : json) : string :=
  match v with
  | JNull => "null"
  | JBool true => "true"
  | JBool false => "false"
  | JNumber repr => repr
  | JString s => QuoteJSONString s
  | JArray items =>
      "[" ++ String.concat "," (map (SerializeJSONProperty K) items) ++ "]"
  | JObject props =>
      let own := map (fun '(k, x) => (k, SerializeJSONProperty K x)) props in
      let keys := match K with
                  | Some ks => ks
                  | None => map fst props
                  end in
      let member P := match assoc P own with
                      | Some strP => [QuoteJSONString P ++ ":" ++ strP]
                      | None => []
                      end in
      "{" ++ String.concat "," (flat_map member keys) ++ "}"
  end.

(** The property list of an array replacer: its strings, first occurrences
    only. *)
Fixpoint property_list (seen replacer : list string) : list string :=
  match replacer with
  | [] => seen
  | k :: r =>
      if existsb (String.eqb k) seen then property_list seen r
      else property_list (seen ++ [k]) r
  end.

Definition JSON_stringify (value : json) (replacer : option (list string)) : string :=
  SerializeJSONProperty (property_list [] <$> replacer) value.

End Js.

(** ** SHA-512 (FIPS 180-4), the digest behind [sha512] of @noble/hashes *)

Module Sha512.
Import Js.

Definition mask64 : Z := Z.ones 64.
Definition add64 (x y : Z) : Z := Z.land (x + y) mask64.
Definition rotr (n x : Z) : Z :=
  Z.lor (Z.shiftr x n) (Z.land (Z.shiftl x (64 - n)) mask64).

Definition Ch (x y z : Z) : Z := Z.lxor (Z.land x y) (Z.land (Z.lxor x mask64) z).
Definition Maj (x y z : Z) : Z :=
  Z.lxor (Z.lxor (Z.land x y) (Z.land x z)) (Z.land y z).
Definition Sigma0 (x : Z) : Z := Z.lxor (Z.lxor (rotr 28 x) (rotr 34 x)) (rotr 39 x).
Definition Sigma1 (x : Z) : Z := Z.lxor (Z.lxor (rotr 14 x) (rotr 18 x)) (rotr 41 x).
Definition sigma0 (x : Z) : Z := Z.lxor (Z.lxor (rotr 1 x) (rotr 8 x)) (Z.shiftr x 7).
Definition sigma1 (x : Z) : Z := Z.lxor (Z.lxor (rotr 19 x) (rotr 61 x)) (Z.shiftr x 6).

Definition K512 : list Z :=
  [
   0x428a2f98d728ae22; 0x7137449123ef65cd; 0xb5c0fbcfec4d3b2f; 0xe9b5dba58189dbbc;
   0x3956c25bf348b538; 0x59f111f1b605d019; 0x923f82a4af194f9b; 0xab1c5ed5da6d8118;
   0xd807aa98a3030242; 0x12835b0145706fbe; 0x243185be4ee4b28c; 0x550c7dc3d5ffb4e2;
   0x72be5d74f27b896f; 0x80deb1fe3b1696b1; 0x9bdc06a725c71235; 0xc19bf174cf692694;
   0xe49b69c19ef14ad2; 0xefbe4786384f25e3; 0x0fc19dc68b8cd5b5; 0x240ca1cc77ac9c65;
   0x2de92c6f592b0275; 0x4a7484aa6ea6e483; 0x5cb0a9dcbd41fbd4; 0x76f988da831153b5;
   0x983e5152ee66dfab; 0xa831c66d2db43210; 0xb00327c898fb213f; 0xbf597fc7beef0ee4;
   0xc6e00bf33da88fc2; 0xd5a79147930aa725; 0x06ca6351e003826f; 0x142929670a0e6e70;
   0x27b70a8546d22ffc; 0x2e1b21385c26c926; 0x4d2c6dfc5ac42aed; 0x53380d139d95b3df;
   0x650a73548baf63de; 0x766a0abb3c77b2a8; 0x81c2c92e47edaee6; 0x92722c851482353b;
   0xa2bfe8a14cf10364; 0xa81a664bbc423001; 0xc24b8b70d0f89791; 0xc76c51a30654be30;
   0xd192e819d6ef5218; 0xd69906245565a910; 0xf40e35855771202a; 0x106aa07032bbd1b8;
   0x19a4c116b8d2d0c8; 0x1e376c085141ab53; 0x2748774cdf8eeb99; 0x34b0bcb5e19b48a8;
   0x391c0cb3c5c95a63; 0x4ed8aa4ae3418acb; 0x5b9cca4f7763e373; 0x682e6ff3d6b2b8a3;
   0x748f82ee5defb2fc; 0x78a5636f43172f60; 0x84c87814a1f0ab72; 0x8cc702081a6439ec;
   0x90befffa23631e28; 0xa4506cebde82bde9; 0xbef9a3f7b2c67915; 0xc67178f2e372532b;
   0xca273eceea26619c; 0xd186b8c721c0c207; 0xeada7dd6cde0eb1e; 0xf57d4f7fee6ed178;
   0x06f067aa72176fba; 0x0a637dc5a2c898a6; 0x113f9804bef90dae; 0x1b710b35131c471b;
   0x28db77f523047d84; 0x32caab7b40c72493; 0x3c9ebe0a15c9bebc; 0x431d67c49c100d4c;
   0x4cc5d4becb3e42b6; 0x597f299cfc657e2a; 0x5fcb6fab3ad6faec; 0x6c44198c4a475817
  ].

Definition H0 : list Z :=
  [
   0x6a09e667f3bcc908; 0xbb67ae8584caa73b; 0x3c6ef372fe94f82b; 0xa54ff53a5f1d36f1;
   0x510e527fade682d1; 0x9b05688c2b3e6c1f; 0x1f83d9abfb41bd6b; 0x5be0cd19137e2179
  ].

(** Big-endian bytes of the low [n] bytes of [x]. *)
Fixpoint be_bytes (n : nat) (x : Z) : list Byte.byte :=
  match n with
  | O => []
  | S n' => byte_of_Z (Z.shiftr x (8 * Z.of_nat n')) :: be_bytes n' x
  end.

Definition be_word (bs : list Byte.byte) : Z :=
  fold_left (fun acc b => Z.lor (Z.shiftl acc 8) (Z_of_byte b)) bs 0.

(** Padding: the bit 1, zeros up to 112 modulo 128 bytes, then the length of
    the message in bits on 16 bytes. *)
Definition pad (msg : list Byte.byte) : list Byte.byte :=
  let len := Z.of_nat (length msg) in
  let zeros := Z.to_nat ((111 - len) mod 128) in
  msg ++ Byte.x80 :: repeat Byte.x00 zeros ++ be_bytes 16 (8 * len).

Fixpoint chunks (fuel n : nat) (bs : list Byte.byte) : list (list Byte.byte) :=
  match fuel, bs with
  | O, _ => []
  | _, [] => []
  | S fuel', _ => take n bs :: chunks fuel' n (drop n bs)
  end.

Definition words_of (block : list Byte.byte) : list Z :=
  map be_word (chunks 16 8 block).

(** The message schedule, most recent word first while it is extended. *)
Fixpoint extend (n : nat) (w : list Z) : list Z :=
  match n with
  | O => w
  | S n' =>
      let x := add64 (add64 (sigma1 (nth 1 w 0)) (nth 6 w 0))
                     (add64 (sigma0 (nth 14 w 0)) (nth 15 w 0)) in
      extend n' (x :: w)
  end.

Definition schedule (block : list Byte.byte) : list Z :=
  rev (extend 64 (rev (words_of block))).

Record state : Type := State
  { sa : Z; sb : Z; sc : Z; sd : Z; se : Z; sf : Z; sg : Z; sh : Z }.

Definition round (s : state) (kw : Z * Z) : state :=
  let t1 := add64 (add64 (add64 (sh s) (Sigma1 (se s)))
                         (add64 (Ch (se s) (sf s) (sg s)) (fst kw))) (snd kw) in
  let t2 := add64 (Sigma0 (sa s)) (Maj (sa s) (sb s) (sc s)) in
  State (add64 t1 t2) (sa s) (sb s) (sc s) (add64 (sd s) t1) (se s) (sf s) (sg s).

Definition compress (s : state) (block : list Byte.byte) : state :=
  let r := fold_left round (combine K512 (schedule block)) s in
  State (add64 (sa s) (sa r)) (add64 (sb s) (sb r)) (add64 (sc s) (sc r))
        (add64 (sd s) (sd r)) (add64 (se s) (se r)) (add64 (sf s) (sf r))
        (add64 (sg s) (sg r)) (add64 (sh s) (sh r)).

Definition initial : state :=
  State (nth 0 H0 0) (nth 1 H0 0) (nth 2 H0 0) (nth 3 H0 0)
        (nth 4 H0 0) (nth 5 H0 0) (nth 6 H0 0) (nth 7 H0 0).

Definition sha512 (msg : list Byte.byte) : list Byte.byte :=
  let padded := pad msg in
  let s := fold_left compress (chunks (length padded) 128 padded) initial in
  flat_map (be_bytes 8) [sa s; sb s; sc s; sd s; se s; sf s; sg s; sh s].

End Sha512.

(** ** Own property keys of ordinary objects *)

Module JsObject.
Import Js.

(** [Array.prototype.sort()] without a comparator orders strings by their
    code units. *)
Definition sort (keys : list string) : list string := merge_sort String.le keys.

Fixpoint digits_value (s : string) (acc : Z) : option Z :=
  match s with
  | EmptyString => Some acc
  | String c r =>
      let n := code c in
      if (48 <=? n) && (n <=? 57) then digits_value r (10 * acc + (n - 48))
      else None
  end.

(** An array index is a canonical decimal numeral below 2^32 - 1. *)
Definition array_index (k : string) : option Z :=
  match k with
  | EmptyString => None
  | String c r =>
      if (code c =? 48) && negb (String.eqb r EmptyString) then None
      else match digits_value k 0 with
           | Some n => if n <=? 4294967294 then Some n else None
           | None => None
           end
  end.

Fixpoint replace_prop (k : string) (v : json) (o : list (string * json))
  : list (string * json) :=
  match o with
  | [] => []
  | (k', v') :: r =>
      if String.eqb k k' then (k, v) :: r else (k', v') :: replace_prop k v r
  end.

Fixpoint insert_index (n : Z) (k : string) (v : json) (o : list (string * json))
  : list (string * json) :=
  match o with
  | [] => [(k, v)]
  | (k', v') :: r =>
      match array_index k' with
      | Some m => if m <? n then (k', v') :: insert_index n k v r
                  else (k, v) :: o
      | None => (k, v) :: o
      end
  end.

(** [o[k] = v] on an object created by [{}], seen through its own
    properties in enumeration order: array indices first, ascending, then the
    other keys in the order they were created.  Assigning to [__proto__]
    reaches the accessor of [Object.prototype] and creates no own property. *)
Definition Object_set (o : list (string * json)) (k : string) (v : json)
  : list (string * json) :=
  if String.eqb k "__proto__" then o
  else if bool_decide (is_Some (assoc k o)) then replace_prop k v o
  else match array_index k with
       | Some n => insert_index n k v o
       | None => o ++ [(k, v)]
       end.

Definition index_keys (n : nat) : list string := map (fun i : nat => pretty i) (seq 0 n).

(** [Object.keys(doc)]: own enumerable string keys; [null] has none to give
    and throws a TypeError. *)
Definition Object_keys (doc : json) : result (list string) :=
  match doc with
  | JObject props => Ok (map fst props)
  | JArray items => Ok (index_keys (length items))
  | JString s => Ok (index_keys (String.length s))
  | JNull => Throw "TypeError: Cannot convert undefined or null to object"
  | JBool _ | JNumber _ => Ok []
  end.

End JsObject.

(** ** crypto.ts *)

Module Crypto.
Import Js JsObject Sha512.

(** [ed.verifyAsync(signature, message, publicKey)] of @noble/ed25519, the
    external verifier: it answers with a boolean or throws. *)
Class Ed25519 : Type :=
  { verifyAsync : list Byte.byte -> list Byte.byte -> list Byte.byte -> result bool }.

Definition BASE58_ALPHABET : string :=
  "123456789ABCDEFGHJKLMNPQRSTUVWXYZabcdefghijkmnopqrstuvwxyz".

(** The inner [for] loop of [base58Decode]: multiply the little-endian
    number [bytes] by 58 and add [carry]. *)
Fixpoint mul58 (bytes : list Z) (carry : Z) : list Z * Z :=
  match bytes with
  | [] => ([], carry)
  | b :: r =>
      let c := carry + b * 58 in
      let '(r', c') := mul58 r (Z.shiftr c 8) in
      (Z.land c 255 :: r', c')
  end.

(** [while (carry > 0) { bytes.push(carry & 0xff); carry >>= 8; }]; the
    carry shrinks at every turn, so [carry] turns are enough. *)
Fixpoint push_carry (fuel : nat) (carry : Z) : list Z :=
  match fuel with
  | O => []
  | S fuel' =>
      if 0 <? carry then Z.land carry 255 :: push_carry fuel' (Z.shiftr carry 8)
      else []
  end.

Fixpoint base58_digits (str : string) (bytes : list Z) : result (list Z) :=
  match str with
  | EmptyString => Ok bytes
  | String char r =>
      let value := indexOf BASE58_ALPHABET char in
      if value =? -1
      then Throw ("Invalid base58 character: " ++ String char EmptyString)
      else
        let '(bytes', carry) := mul58 bytes value in
        base58_digits r (bytes' ++ push_carry (Z.to_nat carry) carry)
  end.

(** The second loop: one zero byte for each leading [1]. *)
Fixpoint leading_zeros (str : string) : list Z :=
  match str with
  | String char r => if Ascii.eqb char "1" then 0 :: leading_zeros r else []
  | EmptyString => []
  end.

Definition base58Decode (str : string) : result (list Byte.byte) :=
  bytes ← base58_digits str [];
  mret (map byte_of_Z (rev (bytes ++ leading_zeros str))).

Definition decodeBase58OrHex (input : string) : result (list Byte.byte) :=
  let input := if startsWith input "z" then slice 1 input else input in
  let input := if startsWith input "0x" then slice 2 input else input in
  if is_hex_string input then Ok (Buffer_from_hex input)
  else base58Decode input.

(** The [message] parameter: [string | Uint8Array]. *)
Inductive message : Type :=
| MsgString (s : string)
| MsgBytes (bytes : list Byte.byte).

(** [typeof message === 'string' ? new TextEncoder().encode(message) : message]. *)
Definition message_bytes (msg : message) : list Byte.byte :=
  match msg with
  | MsgString s => TextEncoder_encode s
  | MsgBytes bytes => bytes
  end.

Definition verifySignature `{Ed25519}
    (msg : message) (signature publicKey : string) : result bool :=
  try_catch
    (let msgBytes := message_bytes msg in
     sigBytes ← decodeBase58OrHex signature;
     pubKeyBytes ← decodeBase58OrHex publicKey;
     verifyAsync sigBytes msgBytes pubKeyBytes)
    (fun _ => Ok false).

Definition hashSoulDocument (doc : json) : result string :=
  keys ← Object_keys doc;
  let canonical := JSON_stringify doc (Some (sort keys)) in
  let hash := sha512 (TextEncoder_encode canonical) in
  mret (Buffer_toString_hex hash).

End Crypto.

(** ** agent-self-register.js, the reference client *)

Module Client.
Import Js JsObject Sha512.

Fixpoint sortObjectKeys (obj : json) : json :=
  match obj with
  | JArray items => JArray (map sortObjectKeys items)
  | JObject props =>
      let values := map (fun '(k, x) => (k, sortObjectKeys x)) props in
      let assign sorted key :=
        match assoc key values with
        | Some x => Object_set sorted key x
        | None => sorted
        end in
      JObject (fold_left assign (sort (map fst props)) [])
  | _ => obj
  end.

Definition hashSoulDocument (doc : json) : string :=
  let sorted := sortObjectKeys doc in
  let canonical := JSON_stringify sorted None in
  let hash := sha512 (TextEncoder_encode canonical) in
  Buffer_toString_hex hash.

End Client.

(** ** types.ts *)

(** Instants are milliseconds since the epoch, the value behind a [Date];
    an ISO-8601 text written by [toISOString] and read back by [new Date]
    denotes the same instant, so stored instants are kept as numbers.
    [None] is the invalid date, whose time value is NaN. *)
Definition Date : Type := option Z.

Inductive SoulStatus : Type := active | suspended | revoked.

Inductive ChallengeStatus : Type := pending | completed | expired.

#[global] Instance SoulStatus_eq_dec : EqDecision SoulStatus.
Proof. solve_decision. Defined.
#[global] Instance ChallengeStatus_eq_dec : EqDecision ChallengeStatus.
Proof. solve_decision. Defined.

Module BirthCertificate.
Record t : Type := Build
  { timestamp : string;
    operator : string;
    baseModel : option string;
    platform : option string;
    charterHash : option string }.
End BirthCertificate.

Module Contact.
Record t : Type := Build
  { email : option string;
    inbox : option string;
    agentmail : option string;
    webhook : option string;
    protocols : option (list string);
    preferred : option string }.
End Contact.

Module SoulDocument.
Record t : Type := Build
  { did : string;
    name : string;
    publicKey : string;
    birth : BirthCertificate.t;
    avatar : option string;
    description : option string;
    website : option string;
    contact : option Contact.t }.
End SoulDocument.

(** [SoulRecord extends SoulDocument], with the columns [capabilities] and
    [riskLevel] that db.ts reads and writes. *)
Module SoulRecord.
Record t : Type := Build
  { did : string;
    name : string;
    publicKey : string;
    birth : BirthCertificate.t;
    avatar : option string;
    description : option string;
    website : option string;
    contact : option Contact.t;
    capabilities : option (list string);
    riskLevel : option string;
    status : SoulStatus;
    statusReason : option string;
    statusChangedAt : option Z;
    registeredAt : Z;
    lastVerifiedAt : option Z;
    verificationCount : Z;
    _registryId : Z;
    _version : Z }.
End SoulRecord.

(** [Omit<SoulRecord, '_registryId' | '_version'>] as [createSoul] reads it. *)
Module NewSoul.
Record t : Type := Build
  { document : SoulDocument.t;
    capabilities : option (list string);
    riskLevel : option string;
    status : SoulStatus;
    registeredAt : Z;
    verificationCount : Z }.
End NewSoul.

Module Challenge.
Record t : Type := Build
  { challengeId : string;
    did : string;
    nonce : string;
    issuedAt : Z;
    expiresAt : Z;
    status : ChallengeStatus }.
End Challenge.

(** [StatusUpdateSchema]'s output. *)
Module StatusUpdate.
Record t : Type := Build
  { reason : string;
    signature : string }.
End StatusUpdate.

Module Schemas.
Import Js.

Definition opt_string (k : string) (v : option string) : list (string * json) :=
  match v with
  | Some s => [(k, JString s)]
  | None => []
  end.

Definition BirthCertificate_json (b : BirthCertificate.t) : json :=
  JObject ([("timestamp", JString (BirthCertificate.timestamp b));
            ("operator", JString (BirthCertificate.operator b))]
           ++ opt_string "baseModel" (BirthCertificate.baseModel b)
           ++ opt_string "platform" (BirthCertificate.platform b)
           ++ opt_string "charterHash" (BirthCertificate.charterHash b)).

Definition Contact_json (c : Contact.t) : json :=
  JObject (opt_string "email" (Contact.email c)
           ++ opt_string "inbox" (Contact.inbox c)
           ++ opt_string "agentmail" (Contact.agentmail c)
           ++ opt_string "webhook" (Contact.webhook c)
           ++ match Contact.protocols c with
              | Some ps => [("protocols", JArray (map JString ps))]
              | None => []
              end
           ++ opt_string "preferred" (Contact.preferred c)).

(** The object [SoulDocumentSchema] hands to the handler: the keys of the
    schema in its order, an optional key present only when it has a value. *)
Definition SoulDocument_json (d : SoulDocument.t) : json :=
  JObject ([("did", JString (SoulDocument.did d));
            ("name", JString (SoulDocument.name d));
            ("publicKey", JString (SoulDocument.publicKey d));
            ("birth", BirthCertificate_json (SoulDocument.birth d))]
           ++ opt_string "avatar" (SoulDocument.avatar d)
           ++ opt_string "description" (SoulDocument.description d)
           ++ opt_string "website" (SoulDocument.website d)
           ++ match SoulDocument.contact d with
              | Some c => [("contact", Contact_json c)]
              | None => []
              end).

(** [StatusUpdateSchema.safeParse(body)]: an object whose [reason] is a
    string of 1 to 500 units and whose [signature] is a non-empty string;
    every other key of the body is stripped. *)
Definition StatusUpdateSchema_safeParse (body : json) : option StatusUpdate.t :=
  match body with
  | JObject props =>
      match assoc "reason" props, assoc "signature" props with
      | Some (JString reason), Some (JString signature) =>
          if (1 <=? String.length reason)%nat && (String.length reason <=? 500)%nat
             && (1 <=? String.length signature)%nat
          then Some (StatusUpdate.Build reason signature)
          else None
      | _, _ => None
      end
  | _ => None
  end.

End Schemas.

(** ** The host: the JavaScript clock and SQLite's text comparison *)

(** [Date_parse s] is the time value of [new Date(s)].  [sqlite_before_now e
    now] is the outcome of the SQL comparison [expires_at < datetime('now')]
    for a row whose [expires_at] denotes the instant [e], evaluated at the
    instant [now]; SQLite compares the two texts. *)
Class Host : Type :=
  { Date_parse : string -> Date;
    sqlite_before_now : Z -> Z -> bool }.

(** [a < b] on two dates: false as soon as one of them is invalid. *)
Definition Date_lt (a b : Date) : bool :=
  match a, b with
  | Some x, Some y => x <? y
  | _, _ => false
  end.

(** ** db.ts *)

Module Db.
Import Js.

(** The two tables.  [souls] keeps its rows in insertion order, each as
    [rowToSoul] returns it; [challenges] is keyed by its primary key. *)
Record RegistryDB : Type := Build
  { souls : list SoulRecord.t;
    challenges : gmap string Challenge.t }.

Definition empty : RegistryDB := Build [] ∅.

(** SQLite's [LOWER] and its NOCASE collation fold the 26 ASCII letters only. *)
Definition sql_lower_unit (c : ascii) : ascii :=
  let n := code c in
  if (65 <=? n) && (n <=? 90) then unit_of (n + 32) else c.
Definition LOWER (s : string) : string := map_units sql_lower_unit s.

(** [value || null] on an optional string: the empty string is falsy. *)
Definition or_null (v : option string) : option string :=
  match v with
  | Some s => if String.eqb s EmptyString then None else Some s
  | None => None
  end.

Definition BirthCertificate_row (b : BirthCertificate.t) : BirthCertificate.t :=
  BirthCertificate.Build
    (BirthCertificate.timestamp b) (BirthCertificate.operator b)
    (or_null (BirthCertificate.baseModel b))
    (or_null (BirthCertificate.platform b))
    (or_null (BirthCertificate.charterHash b)).

(** The row an INSERT of [soul] creates, read back through [rowToSoul]. *)
Definition inserted_row (soul : NewSoul.t) (id : Z) : SoulRecord.t :=
  let d := NewSoul.document soul in
  {| SoulRecord.did := SoulDocument.did d;
     SoulRecord.name := SoulDocument.name d;
     SoulRecord.publicKey := SoulDocument.publicKey d;
     SoulRecord.birth := BirthCertificate_row (SoulDocument.birth d);
     SoulRecord.avatar := or_null (SoulDocument.avatar d);
     SoulRecord.description := or_null (SoulDocument.description d);
     SoulRecord.website := or_null (SoulDocument.website d);
     SoulRecord.contact := SoulDocument.contact d;
     SoulRecord.capabilities := NewSoul.capabilities soul;
     SoulRecord.riskLevel := or_null (NewSoul.riskLevel soul);
     SoulRecord.status := NewSoul.status soul;
     SoulRecord.statusReason := None;
     SoulRecord.statusChangedAt := None;
     SoulRecord.registeredAt := NewSoul.registeredAt soul;
     SoulRecord.lastVerifiedAt := None;
     SoulRecord.verificationCount := NewSoul.verificationCount soul;
     SoulRecord._registryId := id;
     SoulRecord._version := 1 |}.

(** [{ ...soul, _registryId: lastId, _version: 1 }]. *)
Definition returned_soul (soul : NewSoul.t) (id : Z) : SoulRecord.t :=
  let d := NewSoul.document soul in
  {| SoulRecord.did := SoulDocument.did d;
     SoulRecord.name := SoulDocument.name d;
     SoulRecord.publicKey := SoulDocument.publicKey d;
     SoulRecord.birth := SoulDocument.birth d;
     SoulRecord.avatar := SoulDocument.avatar d;
     SoulRecord.description := SoulDocument.description d;
     SoulRecord.website := SoulDocument.website d;
     SoulRecord.contact := SoulDocument.contact d;
     SoulRecord.capabilities := NewSoul.capabilities soul;
     SoulRecord.riskLevel := NewSoul.riskLevel soul;
     SoulRecord.status := NewSoul.status soul;
     SoulRecord.statusReason := None;
     SoulRecord.statusChangedAt := None;
     SoulRecord.registeredAt := NewSoul.registeredAt soul;
     SoulRecord.lastVerifiedAt := None;
     SoulRecord.verificationCount := NewSoul.verificationCount soul;
     SoulRecord._registryId := id;
     SoulRecord._version := 1 |}.

(** The two UNIQUE constraints of the table: [did], and [name] under NOCASE. *)
Definition violates_unique (db : RegistryDB) (d : SoulDocument.t) : bool :=
  existsb (fun r =>
             String.eqb (SoulRecord.did r) (SoulDocument.did d)
             || String.eqb (LOWER (SoulRecord.name r)) (LOWER (SoulDocument.name d)))
          (souls db).

(** [createSoul]: the INSERT throws on a constraint and then changes
    nothing; rows are never deleted, so the new row id is the row count. *)
Definition createSoul (db : RegistryDB) (soul : NewSoul.t)
  : result (RegistryDB * SoulRecord.t) :=
  if violates_unique db (NewSoul.document soul)
  then Throw "UNIQUE constraint failed"
  else
    let lastId := Z.of_nat (length (souls db)) + 1 in
    Ok (Build (souls db ++ [inserted_row soul lastId]) (challenges db),
        returned_soul soul lastId).

Definition getSoulByDid (db : RegistryDB) (did : string) : option SoulRecord.t :=
  List.find (fun r => String.eqb (SoulRecord.did r) did) (souls db).

Definition getSoulByName (db : RegistryDB) (name : string) : option SoulRecord.t :=
  List.find (fun r => String.eqb (LOWER (SoulRecord.name r)) (LOWER name)) (souls db).

(** [UPDATE souls SET ... WHERE did = ?]: [set] applied to the matching rows. *)
Definition update_where_did (db : RegistryDB) (did : string)
    (set : SoulRecord.t -> SoulRecord.t) : RegistryDB :=
  Build (map (fun r => if String.eqb (SoulRecord.did r) did then set r else r) (souls db))
        (challenges db).

Definition rows_modified (db : RegistryDB) (did : string) : bool :=
  existsb (fun r => String.eqb (SoulRecord.did r) did) (souls db).

Definition set_status (status : SoulStatus) (reason : string) (now : Z)
    (r : SoulRecord.t) : SoulRecord.t :=
  {| SoulRecord.did := SoulRecord.did r;
     SoulRecord.name := SoulRecord.name r;
     SoulRecord.publicKey := SoulRecord.publicKey r;
     SoulRecord.birth := SoulRecord.birth r;
     SoulRecord.avatar := SoulRecord.avatar r;
     SoulRecord.description := SoulRecord.description r;
     SoulRecord.website := SoulRecord.website r;
     SoulRecord.contact := SoulRecord.contact r;
     SoulRecord.capabilities := SoulRecord.capabilities r;
     SoulRecord.riskLevel := SoulRecord.riskLevel r;
     SoulRecord.status := status;
     SoulRecord.statusReason := or_null (Some reason);
     SoulRecord.statusChangedAt := Some now;
     SoulRecord.registeredAt := SoulRecord.registeredAt r;
     SoulRecord.lastVerifiedAt := SoulRecord.lastVerifiedAt r;
     SoulRecord.verificationCount := SoulRecord.verificationCount r;
     SoulRecord._registryId := SoulRecord._registryId r;
     SoulRecord._version := SoulRecord._version r + 1 |}.

Definition updateSoulStatus (db : RegistryDB) (did : string) (status : SoulStatus)
    (reason : string) (now : Z) : RegistryDB * bool :=
  (update_where_did db did (set_status status reason now), rows_modified db did).

(** The UPDATE of [incrementVerificationCount] sets [verification_count],
    [last_verified_at] and [updated_at]; it names no other column. *)
Definition set_verified (now : Z) (r : SoulRecord.t) : SoulRecord.t :=
  {| SoulRecord.did := SoulRecord.did r;
     SoulRecord.name := SoulRecord.name r;
     SoulRecord.publicKey := SoulRecord.publicKey r;
     SoulRecord.birth := SoulRecord.birth r;
     SoulRecord.avatar := SoulRecord.avatar r;
     SoulRecord.description := SoulRecord.description r;
     SoulRecord.website := SoulRecord.website r;
     SoulRecord.contact := SoulRecord.contact r;
     SoulRecord.capabilities := SoulRecord.capabilities r;
     SoulRecord.riskLevel := SoulRecord.riskLevel r;
     SoulRecord.status := SoulRecord.status r;
     SoulRecord.statusReason := SoulRecord.statusReason r;
     SoulRecord.statusChangedAt := SoulRecord.statusChangedAt r;
     SoulRecord.registeredAt := SoulRecord.registeredAt r;
     SoulRecord.lastVerifiedAt := Some now;
     SoulRecord.verificationCount := SoulRecord.verificationCount r + 1;
     SoulRecord._registryId := SoulRecord._registryId r;
     SoulRecord._version := SoulRecord._version r |}.

Definition incrementVerificationCount (db : RegistryDB) (did : string) (now : Z)
  : RegistryDB :=
  update_where_did db did (set_verified now).

Definition set_contact (contact : Contact.t) (r : SoulRecord.t) : SoulRecord.t :=
  {| SoulRecord.did := SoulRecord.did r;
     SoulRecord.name := SoulRecord.name r;
     SoulRecord.publicKey := SoulRecord.publicKey r;
     SoulRecord.birth := SoulRecord.birth r;
     SoulRecord.avatar := SoulRecord.avatar r;
     SoulRecord.description := SoulRecord.description r;
     SoulRecord.website := SoulRecord.website r;
     SoulRecord.contact := Some contact;
     SoulRecord.capabilities := SoulRecord.capabilities r;
     SoulRecord.riskLevel := SoulRecord.riskLevel r;
     SoulRecord.status := SoulRecord.status r;
     SoulRecord.statusReason := SoulRecord.statusReason r;
     SoulRecord.statusChangedAt := SoulRecord.statusChangedAt r;
     SoulRecord.registeredAt := SoulRecord.registeredAt r;
     SoulRecord.lastVerifiedAt := SoulRecord.lastVerifiedAt r;
     SoulRecord.verificationCount := SoulRecord.verificationCount r;
     SoulRecord._registryId := SoulRecord._registryId r;
     SoulRecord._version := SoulRecord._version r + 1 |}.

Definition updateSoulContact (db : RegistryDB) (did : string) (contact : Contact.t)
  : RegistryDB * bool :=
  (update_where_did db did (set_contact contact), rows_modified db did).

Definition set_capabilities (capabilities : list string) (riskLevel : option string)
    (r : SoulRecord.t) : SoulRecord.t :=
  {| SoulRecord.did := SoulRecord.did r;
     SoulRecord.name := SoulRecord.name r;
     SoulRecord.publicKey := SoulRecord.publicKey r;
     SoulRecord.birth := SoulRecord.birth r;
     SoulRecord.avatar := SoulRecord.avatar r;
     SoulRecord.description := SoulRecord.description r;
     SoulRecord.website := SoulRecord.website r;
     SoulRecord.contact := SoulRecord.contact r;
     SoulRecord.capabilities := Some capabilities;
     SoulRecord.riskLevel := or_null riskLevel;
     SoulRecord.status := SoulRecord.status r;
     SoulRecord.statusReason := SoulRecord.statusReason r;
     SoulRecord.statusChangedAt := SoulRecord.statusChangedAt r;
     SoulRecord.registeredAt := SoulRecord.registeredAt r;
     SoulRecord.lastVerifiedAt := SoulRecord.lastVerifiedAt r;
     SoulRecord.verificationCount := SoulRecord.verificationCount r;
     SoulRecord._registryId := SoulRecord._registryId r;
     SoulRecord._version := SoulRecord._version r + 1 |}.

Definition updateSoulCapabilities (db : RegistryDB) (did : string)
    (capabilities : list string) (riskLevel : option string) : RegistryDB * bool :=
  (update_where_did db did (set_capabilities capabilities riskLevel),
   rows_modified db did).

(** [createChallenge]: the INSERT throws when the primary key is taken. *)
Definition createChallenge (db : RegistryDB) (challenge : Challenge.t)
  : result RegistryDB :=
  match challenges db !! Challenge.challengeId challenge with
  | Some _ => Throw "UNIQUE constraint failed: challenges.id"
  | None =>
      Ok (Build (souls db)
                (<[Challenge.challengeId challenge := challenge]> (challenges db)))
  end.

Definition getChallenge (db : RegistryDB) (challengeId : string)
  : option Challenge.t :=
  challenges db !! challengeId.

Definition set_challenge_status (status : ChallengeStatus) (c : Challenge.t)
  : Challenge.t :=
  Challenge.Build (Challenge.challengeId c) (Challenge.did c) (Challenge.nonce c)
                  (Challenge.issuedAt c) (Challenge.expiresAt c) status.

(** [UPDATE challenges SET status = ? WHERE id = ?], whatever the status
    the row has. *)
Definition updateChallengeStatus (db : RegistryDB) (challengeId : string)
    (status : ChallengeStatus) : RegistryDB :=
  Build (souls db) (alter (set_challenge_status status) challengeId (challenges db)).

(** [DELETE FROM challenges WHERE expires_at < datetime('now') AND status =
    'pending']. *)
Definition swept `{Host} (now : Z) (c : Challenge.t) : bool :=
  sqlite_before_now (Challenge.expiresAt c) now
  && bool_decide (Challenge.status c = pending).

Definition cleanExpiredChallenges `{Host} (db : RegistryDB) (now : Z)
  : RegistryDB * Z :=
  let kept := filter (fun kc => swept now (snd kc) = false) (challenges db) in
  (Build (souls db) kept,
   Z.of_nat (size (challenges db)) - Z.of_nat (size kept)).

End Db.

(** ** server.ts *)

Module Server.
Import Js Crypto Db Schemas.

Inductive error_code : Type :=
| INVALID_REQUEST
| DID_MISMATCH
| NAME_TAKEN
| INVALID_SIGNATURE
| INTERNAL_ERROR
| NOT_FOUND
| TIMESTAMP_EXPIRED
| CHALLENGE_NOT_FOUND
| CHALLENGE_EXPIRED
| CHALLENGE_USED.

Definition http_status (code : error_code) : Z :=
  match code with
  | INVALID_REQUEST | DID_MISMATCH | TIMESTAMP_EXPIRED => 400
  | INVALID_SIGNATURE => 401
  | NOT_FOUND | CHALLENGE_NOT_FOUND => 404
  | NAME_TAKEN | CHALLENGE_USED => 409
  | CHALLENGE_EXPIRED => 410
  | INTERNAL_ERROR => 500
  end.

(** The JSON answers of the handlers, without the registry URL. *)
Inductive response : Type :=
| Registered (did : string) (registeredAt : Z)
| ContactUpdated (did : string) (contact : Contact.t) (updatedAt : Z)
| CapabilitiesUpdated (did : string) (capabilities : list string)
    (riskLevel : option string) (updatedAt : Z)
| ChallengeIssued (challengeId nonce : string) (expiresAt : Z)
| Verified (did : string) (verifiedAt : Z)
| StatusChanged (did : string) (status : SoulStatus) (statusChangedAt : Z)
| Error (code : error_code).

(** The [try ... catch] around a handler body.  The only statements that
    throw after the body has started are the two INSERTs, which change
    nothing when they throw, so the store at the [catch] is the store the
    request found. *)
Definition catch_internal (db : RegistryDB) (body : result (RegistryDB * response))
  : RegistryDB * response :=
  match body with
  | Ok r => r
  | Throw _ => (db, Error INTERNAL_ERROR)
  end.

(** The lookup every handler starts with: a DID when the path parameter
    starts with [did:soul:], a name otherwise. *)
Definition resolveSoul (db : RegistryDB) (didOrName : string) : option SoulRecord.t :=
  if startsWith didOrName "did:soul:" then getSoulByDid db didOrName
  else getSoulByName db didOrName.

Definition SoulStatus_text (s : SoulStatus) : string :=
  match s with
  | active => "active"
  | suspended => "suspended"
  | revoked => "revoked"
  end.

(** Each handler takes the store it finds and the instant [now] its
    [new Date()] returns, and gives the store it leaves with its answer. A
    handler that reads the clock again later in the same request only stamps
    a bookkeeping field with it; those reads are taken at [now] too. *)
Section Handlers.
Context `{Ed25519} `{Host}.

(** POST /v1/souls/register, on the parsed request; [now] is the clock. *)
Definition register (db : RegistryDB) (now : Z)
    (soulDocument : SoulDocument.t) (signature : string) : RegistryDB * response :=
  catch_internal db (
    let expectedDid := "did:soul:" ++ toLowerCase (SoulDocument.name soulDocument) in
    if negb (String.eqb (toLowerCase (SoulDocument.did soulDocument)) expectedDid)
    then mret (db, Error DID_MISMATCH)
    else
      match getSoulByName db (SoulDocument.name soulDocument) with
      | Some _ => mret (db, Error NAME_TAKEN)
      | None =>
          docHash ← hashSoulDocument (SoulDocument_json soulDocument);
          validSignature ← verifySignature (MsgString docHash) signature
                             (SoulDocument.publicKey soulDocument);
          if negb validSignature then mret (db, Error INVALID_SIGNATURE)
          else
            created ← createSoul db
              {| NewSoul.document := soulDocument;
                 NewSoul.capabilities := None;
                 NewSoul.riskLevel := None;
                 NewSoul.status := active;
                 NewSoul.registeredAt := now;
                 NewSoul.verificationCount := 0 |};
            mret (fst created,
                  Registered (SoulRecord.did (snd created))
                             (SoulRecord.registeredAt (snd created)))
      end).

Definition fiveMinutes : Z := 5 * 60 * 1000.

(** PUT /v1/souls/:didOrName/contact. *)
Definition putContact (db : RegistryDB) (now : Z) (didOrName : string)
    (contact : Contact.t) (signature timestamp : string) : RegistryDB * response :=
  catch_internal db (
    match resolveSoul db didOrName with
    | None => mret (db, Error NOT_FOUND)
    | Some soul =>
        let timestampDate := Date_parse timestamp in
        let fiveMinutesAgo := Some (now - fiveMinutes) in
        if Date_lt timestampDate fiveMinutesAgo
        then mret (db, Error TIMESTAMP_EXPIRED)
        else
          let message := "contact-update:" ++ SoulRecord.did soul ++ ":" ++ timestamp in
          validSignature ← verifySignature (MsgString message) signature
                             (SoulRecord.publicKey soul);
          if negb validSignature then mret (db, Error INVALID_SIGNATURE)
          else
            mret (fst (updateSoulContact db (SoulRecord.did soul) contact),
                  ContactUpdated (SoulRecord.did soul) contact now)
    end).

(** PUT /v1/souls/:didOrName/capabilities.  [CapabilitiesUpdateSchema] is
    declared outside the files at hand; the handler is given the four fields
    it takes from the parsed request, typed as [updateSoulCapabilities]
    expects them. *)
Definition putCapabilities (db : RegistryDB) (now : Z) (didOrName : string)
    (capabilities : list string) (riskLevel : option string)
    (signature timestamp : string) : RegistryDB * response :=
  catch_internal db (
    match resolveSoul db didOrName with
    | None => mret (db, Error NOT_FOUND)
    | Some soul =>
        let timestampDate := Date_parse timestamp in
        let fiveMinutesAgo := Some (now - fiveMinutes) in
        if Date_lt timestampDate fiveMinutesAgo
        then mret (db, Error TIMESTAMP_EXPIRED)
        else
          let message :=
            "capabilities-update:" ++ SoulRecord.did soul ++ ":" ++ timestamp in
          validSignature ← verifySignature (MsgString message) signature
                             (SoulRecord.publicKey soul);
          if negb validSignature then mret (db, Error INVALID_SIGNATURE)
          else
            mret (fst (updateSoulCapabilities db (SoulRecord.did soul)
                         capabilities riskLevel),
                  CapabilitiesUpdated (SoulRecord.did soul) capabilities
                    (or_null riskLevel) now)
    end).

(** [generateChallengeId] and [generateNonce], on the bytes [randomBytes]
    returned. *)
Definition generateChallengeId (random16 : list Byte.byte) : string :=
  "ch_" ++ Buffer_toString_hex random16.
Definition generateNonce (random32 : list Byte.byte) : string :=
  Buffer_toString_hex random32.

(** POST /v1/souls/:didOrName/challenge.  The handler has no [try]; an
    INSERT that throws reaches the framework, which answers 500. *)
Definition postChallenge (db : RegistryDB) (now : Z) (didOrName : string)
    (random16 random32 : list Byte.byte) : RegistryDB * response :=
  match resolveSoul db didOrName with
  | None => (db, Error NOT_FOUND)
  | Some soul =>
      let challengeId := generateChallengeId random16 in
      let nonce := generateNonce random32 in
      let expiresAt := now + fiveMinutes in
      match createChallenge db
              {| Challenge.challengeId := challengeId;
                 Challenge.did := SoulRecord.did soul;
                 Challenge.nonce := nonce;
                 Challenge.issuedAt := now;
                 Challenge.expiresAt := expiresAt;
                 Challenge.status := pending |} with
      | Ok db' => (db', ChallengeIssued challengeId nonce expiresAt)
      | Throw _ => (db, Error INTERNAL_ERROR)
      end
  end.

(** POST /v1/souls/:didOrName/verify, the [complete] step of the
    challenge-response protocol. *)
Definition postVerify (db : RegistryDB) (now : Z) (didOrName : string)
    (challengeId signature : string) : RegistryDB * response :=
  catch_internal db (
    match getChallenge db challengeId with
    | None => mret (db, Error CHALLENGE_NOT_FOUND)
    | Some challenge =>
        if Challenge.expiresAt challenge <? now
        then mret (updateChallengeStatus db challengeId expired,
                   Error CHALLENGE_EXPIRED)
        else if negb (bool_decide (Challenge.status challenge = pending))
        then mret (db, Error CHALLENGE_USED)
        else
          match resolveSoul db didOrName with
          | None => mret (db, Error NOT_FOUND)
          | Some soul =>
              if negb (String.eqb (Challenge.did challenge) (SoulRecord.did soul))
              then mret (db, Error DID_MISMATCH)
              else
                validSignature ← verifySignature (MsgString (Challenge.nonce challenge))
                                   signature (SoulRecord.publicKey soul);
                if negb validSignature then mret (db, Error INVALID_SIGNATURE)
                else
                  let db1 := updateChallengeStatus db challengeId completed in
                  let db2 := incrementVerificationCount db1 (SoulRecord.did soul) now in
                  mret (db2, Verified (SoulRecord.did soul) now)
          end
    end).

(** [updateStatus(c, newStatus)], behind the suspend, revoke and reactivate
    routes; [body] is the request body before [StatusUpdateSchema]. *)
Definition updateStatus (db : RegistryDB) (now : Z) (didOrName : string)
    (newStatus : SoulStatus) (body : json) : RegistryDB * response :=
  catch_internal db (
    match StatusUpdateSchema_safeParse body with
    | None => mret (db, Error INVALID_REQUEST)
    | Some data =>
        match resolveSoul db didOrName with
        | None => mret (db, Error NOT_FOUND)
        | Some soul =>
            let message := SoulStatus_text newStatus ++ ":" ++ SoulRecord.did soul
                           ++ ":" ++ StatusUpdate.reason data in
            validSignature ← verifySignature (MsgString message)
                               (StatusUpdate.signature data) (SoulRecord.publicKey soul);
            if negb validSignature then mret (db, Error INVALID_SIGNATURE)
            else
              mret (fst (updateSoulStatus db (SoulRecord.did soul) newStatus
                           (StatusUpdate.reason data) now),
                    StatusChanged (SoulRecord.did soul) newStatus now)
        end
    end).

(** What reaches the store: the mutating routes, and the timer that calls
    [cleanExpiredChallenges]. *)
Inductive event : Type :=
| OnRegister (soulDocument : SoulDocument.t) (signature : string)
| OnPutContact (didOrName : string) (contact : Contact.t) (signature timestamp : string)
| OnPutCapabilities (didOrName : string) (capabilities : list string)
    (riskLevel : option string) (signature timestamp : string)
| OnPostChallenge (didOrName : string) (random16 random32 : list Byte.byte)
| OnPostVerify (didOrName challengeId signature : string)
| OnPostStatus (didOrName : string) (newStatus : SoulStatus) (body : json)
| OnSweep.

Definition step (db : RegistryDB) (at_event : Z * event) : RegistryDB :=
  let now := fst at_event in
  match snd at_event with
  | OnRegister d s => fst (register db now d s)
  | OnPutContact n c s t => fst (putContact db now n c s t)
  | OnPutCapabilities n cs r s t => fst (putCapabilities db now n cs r s t)
  | OnPostChallenge n r16 r32 => fst (postChallenge db now n r16 r32)
  | OnPostVerify n i s => fst (postVerify db now n i s)
  | OnPostStatus n st b => fst (updateStatus db now n st b)
  | OnSweep => fst (cleanExpiredChallenges db now)
  end.

Definition run (db : RegistryDB) (events : list (Z * event)) : RegistryDB :=
  fold_left step events db.

End Handlers.

End Server.

(** ** Notions the properties are stated with *)

Module Notions.
Import Js Crypto Db Schemas Server.

Section WithHost.
Context `{Ed25519} `{Host}.

(** The candidate as [createSoul] receives it from the handler. *)
Definition candidate (now : Z) (d : SoulDocument.t) : NewSoul.t :=
  {| NewSoul.document := d;
     NewSoul.capabilities := None;
     NewSoul.riskLevel := None;
     NewSoul.status := active;
     NewSoul.registeredAt := now;
     NewSoul.verificationCount := 0 |}.

(** What the two update handlers do once a request has passed the
    freshness gate: the signature decides. *)
Definition contact_signature_stage (db : RegistryDB) (now : Z) (soul : SoulRecord.t)
    (contact : Contact.t) (signature timestamp : string) : RegistryDB * response :=
  match verifySignature
          (MsgString ("contact-update:" ++ SoulRecord.did soul ++ ":" ++ timestamp))
          signature (SoulRecord.publicKey soul) with
  | Ok true => (fst (updateSoulContact db (SoulRecord.did soul) contact),
                ContactUpdated (SoulRecord.did soul) contact now)
  | _ => (db, Error INVALID_SIGNATURE)
  end.

Definition capabilities_signature_stage (db : RegistryDB) (now : Z)
    (soul : SoulRecord.t) (capabilities : list string) (riskLevel : option string)
    (signature timestamp : string) : RegistryDB * response :=
  match verifySignature
          (MsgString ("capabilities-update:" ++ SoulRecord.did soul ++ ":" ++ timestamp))
          signature (SoulRecord.publicKey soul) with
  | Ok true => (fst (updateSoulCapabilities db (SoulRecord.did soul)
                       capabilities riskLevel),
                CapabilitiesUpdated (SoulRecord.did soul) capabilities
                  (or_null riskLevel) now)
  | _ => (db, Error INVALID_SIGNATURE)
  end.

End WithHost.

(** The challenge [challengeId] is in the table, no longer pending, and its
    window ends at [expiresAt]. *)
Definition left_pending (db : RegistryDB) (challengeId : string) (expiresAt : Z)
  : Prop :=
  ∃ c, getChallenge db challengeId = Some c
    ∧ Challenge.status c ≠ pending
    ∧ Challenge.expiresAt c = expiresAt.

(** A registration document with another birth certificate. *)
Definition with_birth (d : SoulDocument.t) (b : BirthCertificate.t) : SoulDocument.t :=
  {| SoulDocument.did := SoulDocument.did d;
     SoulDocument.name := SoulDocument.name d;
     SoulDocument.publicKey := SoulDocument.publicKey d;
     SoulDocument.birth := b;
     SoulDocument.avatar := SoulDocument.avatar d;
     SoulDocument.description := SoulDocument.description d;
     SoulDocument.website := SoulDocument.website d;
     SoulDocument.contact := SoulDocument.contact d |}.

(** The keys a registration document can have at its top level. *)
Definition document_keys : list string :=
  ["did"; "name"; "publicKey"; "birth"; "avatar"; "description"; "website"; "contact"].

End Notions.

(** ** The table of souls as the checks of a registration see it *)

Module Table.
Import Js Db.

(** A row holds the name [name] up to the case of its ASCII letters, the
    comparison of [LOWER(name) = LOWER(?)] and of the NOCASE column; a row
    holds the DID [did], letter for letter. *)
Definition holds_name (db : RegistryDB) (name : string) : Prop :=
  ∃ r, In r (souls db) ∧ LOWER (SoulRecord.name r) = LOWER name.
Definition holds_did (db : RegistryDB) (did : string) : Prop :=
  ∃ r, In r (souls db) ∧ SoulRecord.did r = did.

End Table.

(** ** Reference instances of the two interfaces

    The handlers are stated over any [Ed25519] and any [Host].  The
    instances below run them on concrete requests: Ed25519 verification as
    RFC 8032 defines it, on the curve arithmetic of its section 5.1, and a
    host that reads ISO-8601 instants in UTC. *)

Module Ed25519Ref.
Import Js Sha512.

Local Notation "x *' y" := (BigZ.mul x y) (at level 40, left associativity).
Local Notation "x +' y" := (BigZ.add x y) (at level 50, left associativity).
Local Notation "x -' y" := (BigZ.sub x y) (at level 50, left associativity).

Definition p_Z : Z := 2 ^ 255 - 19.
Definition p : bigZ := BigZ.of_Z p_Z.
Definition L : Z := 2 ^ 252 + 27742317777372353535851937790883648493.
Definition d : bigZ := BigZ.of_Z
  37095705934669439343138083508754565189542113879843219016388785533085940283555.
Definition sqrt_m1 : bigZ := BigZ.of_Z
  19681161376707505956807079304988542015446066515923890162744021073123829784752.
Definition one : bigZ := BigZ.of_Z 1.
Definition two : bigZ := BigZ.of_Z 2.
Definition red (x : bigZ) : bigZ := BigZ.modulo x p.

(** Points in extended homogeneous coordinates (X, Y, Z, T). *)
Definition point : Type := (bigZ * bigZ * bigZ * bigZ)%type.

Definition B : point :=
  (BigZ.of_Z 15112221349535400772501151409588531511454012693041857206046113283949847762202,
   BigZ.of_Z 46316835694926478169428394003475163141307993866256225615783033603165251855960,
   one,
   BigZ.of_Z 46827403850823179245072216630277197565144205554125654976674165829533817101731).

Definition zero : point := (BigZ.of_Z 0, one, one, BigZ.of_Z 0).

Definition add (P Q : point) : point :=
  let '(X1, Y1, Z1, T1) := P in
  let '(X2, Y2, Z2, T2) := Q in
  let A := red ((Y1 -' X1) *' (Y2 -' X2)) in
  let B := red ((Y1 +' X1) *' (Y2 +' X2)) in
  let C := red (red (red (T1 *' two) *' d) *' T2) in
  let D := red ((Z1 *' two) *' Z2) in
  let E := B -' A in
  let F := D -' C in
  let G := D +' C in
  let H := B +' A in
  (red (E *' F), red (G *' H), red (F *' G), red (E *' H)).

Fixpoint mul_pos (k : positive) (P : point) : point :=
  match k with
  | xH => P
  | xO k' => let Q := mul_pos k' P in add Q Q
  | xI k' => let Q := mul_pos k' P in add (add Q Q) P
  end.

Definition mul (k : Z) (P : point) : point :=
  match k with
  | Zpos k' => mul_pos k' P
  | _ => zero
  end.

Fixpoint pow_pos (x : bigZ) (e : positive) : bigZ :=
  match e with
  | xH => red x
  | xO e' => let y := pow_pos x e' in red (y *' y)
  | xI e' => let y := pow_pos x e' in red (red (y *' y) *' x)
  end.

Definition is_zero (x : bigZ) : bool := BigZ.to_Z (red x) =? 0.

Definition point_eqb (P Q : point) : bool :=
  let '(X1, Y1, Z1, _) := P in
  let '(X2, Y2, Z2, _) := Q in
  is_zero (X1 *' Z2 -' X2 *' Z1) && is_zero (Y1 *' Z2 -' Y2 *' Z1).

(** Little-endian integer of a byte string. *)
Definition le_int (bs : list Byte.byte) : Z :=
  fold_right (fun b acc => Z_of_byte b + 256 * acc) 0 bs.

(** Decoding of a point (RFC 8032, 5.1.3). *)
Definition decompress (bs : list Byte.byte) : option point :=
  if negb (length bs =? 32)%nat then None
  else
    let n := le_int bs in
    let sign := Z.shiftr n 255 in
    let y_Z := Z.land n (Z.ones 255) in
    if p_Z <=? y_Z then None
    else
      let y := BigZ.of_Z y_Z in
      let u := red (y *' y -' one) in
      let v := red (d *' red (y *' y) +' one) in
      let v3 := red (red (v *' v) *' v) in
      let v7 := red (red (v3 *' v3) *' v) in
      let x := red (red (u *' v3) *' pow_pos (red (u *' v7)) (Z.to_pos ((p_Z - 5) / 8))) in
      let vxx := red (v *' red (x *' x)) in
      let root := if is_zero (vxx -' u) then Some x
                  else if is_zero (vxx +' u) then Some (red (x *' sqrt_m1))
                  else None in
      match root with
      | None => None
      | Some x =>
          let x_Z := BigZ.to_Z x in
          if (x_Z =? 0) && (sign =? 1) then None
          else
            let x := if x_Z mod 2 =? sign then x else p -' x in
            Some (x, y, one, red (x *' y))
      end.

(** Verification (RFC 8032, 5.1.7), with the cofactor: a signature that is
    not 64 bytes long is an error, every other failure is [false]. *)
Definition verify (signature msg publicKey : list Byte.byte) : result bool :=
  if negb (length signature =? 64)%nat then Throw "Uint8Array of length 64 expected"
  else
    match decompress publicKey, decompress (take 32 signature) with
    | Some A, Some R =>
        let S := le_int (drop 32 signature) in
        if L <=? S then Ok false
        else
          let k := le_int (sha512 (take 32 signature ++ publicKey ++ msg)) mod L in
          Ok (point_eqb (mul 8 (mul S B)) (mul 8 (add R (mul k A))))
    | _, _ => Ok false
    end.

Definition ed25519 : Crypto.Ed25519 := {| Crypto.verifyAsync := verify |}.

End Ed25519Ref.

Module HostRef.
Import Js.

Definition digit (c : ascii) : option Z :=
  let n := code c in
  if (48 <=? n) && (n <=? 57) then Some (n - 48) else None.

Fixpoint number (acc : Z) (cs : list ascii) : option Z :=
  match cs with
  | [] => Some acc
  | c :: r => d ← digit c; number (10 * acc + d) r
  end.

(** Days from 1970-01-01 to the civil date y-m-d. *)
Definition days_from_civil (y m d : Z) : Z :=
  let y' := if m <=? 2 then y - 1 else y in
  let era := y' / 400 in
  let yoe := y' - era * 400 in
  let doy := (153 * (if 2 <? m then m - 3 else m + 9) + 2) / 5 + d - 1 in
  let doe := yoe * 365 + yoe / 4 - yoe / 100 + doy in
  era * 146097 + doe - 719468.

Definition days_in_month (y m : Z) : Z :=
  if m =? 2 then
    if ((y mod 4 =? 0) && negb (y mod 100 =? 0)) || (y mod 400 =? 0) then 29 else 28
  else if (m =? 4) || (m =? 6) || (m =? 9) || (m =? 11) then 30
  else 31.

(** [new Date(s)] for the texts [YYYY-MM-DDTHH:MM:SS.sssZ]; every other
    text is taken as an invalid date. *)
Definition parse_iso (s : string) : Date :=
  match list_ascii_of_string s with
  | [y1; y2; y3; y4; d1; m1; m2; d2; a1; a2; T; h1; h2; c1; n1; n2; c2; s1; s2;
     dot; f1; f2; f3; z] =>
      if Ascii.eqb d1 "-" && Ascii.eqb d2 "-" && Ascii.eqb T "T"
         && Ascii.eqb c1 ":" && Ascii.eqb c2 ":" && Ascii.eqb dot "."
         && Ascii.eqb z "Z"
      then
        y ← number 0 [y1; y2; y3; y4];
        m ← number 0 [m1; m2];
        d ← number 0 [a1; a2];
        h ← number 0 [h1; h2];
        n ← number 0 [n1; n2];
        sec ← number 0 [s1; s2];
        ms ← number 0 [f1; f2; f3];
        if (1 <=? m) && (m <=? 12) && (1 <=? d) && (d <=? days_in_month y m)
           && (h <=? 23) && (n <=? 59) && (sec <=? 59)
        then Some ((((days_from_civil y m d * 24 + h) * 60 + n) * 60 + sec) * 1000 + ms)
        else None
      else None
  | _ => None
  end.

(** SQLite compares [expires_at], written by [toISOString] with a [T] after
    the date, with [datetime('now')], which has a space there: the texts
    differ at that place at the latest, and the stored one is the smaller
    exactly when its date is an earlier day. *)
Definition earlier_day (expiresAt now : Z) : bool :=
  expiresAt / 86400000 <? now / 86400000.

Definition host : Host :=
  {| Date_parse := parse_iso;
     sqlite_before_now := earlier_day |}.

End HostRef.

(** ** A registry session on concrete requests

    The agent of the README, [nexus], with the first key pair of RFC 8032
    (section 7.1); the signatures were produced with its private key. *)

Module Scenario.
Import Js Crypto Db Schemas Server.

#[local] Existing Instance Ed25519Ref.ed25519.
#[local] Existing Instance HostRef.host.

Definition publicKey : string :=
  "d75a980182b10ab7d54bfed3c964073a0ee172f3daa62325af021a68f707511a".

(** The public key of the second key pair of RFC 8032, a stranger's. *)
Definition otherKey : string :=
  "3d4017c3e843895a92b70aa74d1b7ebc9c982ccf2ec4968cc0cd55f12af4660c".

Definition birth : BirthCertificate.t :=
  {| BirthCertificate.timestamp := "2026-02-01T00:00:00Z";
     BirthCertificate.operator := "Adam";
     BirthCertificate.baseModel := None;
     BirthCertificate.platform := Some "Clawdbot";
     BirthCertificate.charterHash := None |}.

Definition nexus : SoulDocument.t :=
  {| SoulDocument.did := "did:soul:nexus";
     SoulDocument.name := "nexus";
     SoulDocument.publicKey := publicKey;
     SoulDocument.birth := birth;
     SoulDocument.avatar := None;
     SoulDocument.description := Some "A continuity-focused AI partner";
     SoulDocument.website := None;
     SoulDocument.contact := None |}.

(** The same agent, born a year later under another operator. *)
Definition forged_birth : BirthCertificate.t :=
  {| BirthCertificate.timestamp := "2027-02-01T00:00:00Z";
     BirthCertificate.operator := "Mallory";
     BirthCertificate.baseModel := None;
     BirthCertificate.platform := Some "Clawdbot";
     BirthCertificate.charterHash := None |}.

(** A document whose [did] is not [did:soul:] followed by its [name]. *)
Definition capitalised : SoulDocument.t :=
  {| SoulDocument.did := "did:soul:nexus";
     SoulDocument.name := "Nexus";
     SoulDocument.publicKey := publicKey;
     SoulDocument.birth := birth;
     SoulDocument.avatar := None;
     SoulDocument.description := Some "A continuity-focused AI partner";
     SoulDocument.website := None;
     SoulDocument.contact := None |}.

(** Signatures over the server's hash of [nexus] and of [capitalised]. *)
Definition sig_register : string :=
  "a2cb95db7cfe91e69a51c328dee867090f0ba31d1cce3b70fd7778a19901ac664c47a4e6171633eec351eea7bf8af99ab1a2a091957b3c41acbb369685ddfd08".
Definition sig_register_capitalised : string :=
  "4905c9816d77310115ab4742011f052876ce4508a4977db62798b040a228ce1caaed432aaddd7a171527b6e9d44b6027b32d32a73aa570ee6f07d7e8a8af9304".

(** The bytes drawn for the challenge, its identifier and nonce, and the
    signature over the nonce. *)
Definition random16 : list Byte.byte := map byte_of_Z (map Z.of_nat (seq 0 16)).
Definition random32 : list Byte.byte := map byte_of_Z (map Z.of_nat (seq 0 32)).
Definition challengeId : string := "ch_000102030405060708090a0b0c0d0e0f".
Definition sig_nonce : string :=
  "ef844bc63860e462145fbc5b214dd12e210b00d3d4537966bde7ce3203327fd8db2e8d6143d48b1b98c114825db6c3e3913fa8563869565e535b15b9f4999200".

(** Timestamps of update requests, and signatures over
    [contact-update:did:soul:nexus:] and [capabilities-update:did:soul:nexus:]
    followed by each. *)
Definition stale : string := "2020-01-01T00:00:00.000Z".
Definition future : string := "2099-01-01T00:00:00.000Z".
Definition sig_contact_stale : string :=
  "a2aa481e5b93b2214e93a800eb416802c78d907d0e3f2641561d5bf0f08b929f2183392d35e208f588eeb988965fffba06f4c1d584fff86839257dc641c7c600".
Definition sig_capabilities_stale : string :=
  "b8bced1b94e72604d6c6b10e03ddb21f306f2d2b4ad79dbab12e42c673af8812b9d1554d8c7c69ac165818ed2c2176b4c5cc73376ea469cf9743580b05158806".
Definition sig_contact_future : string :=
  "84b8aa7b6c00e4337138c99eeb264bd6a437d4f23f4c728d8257ad284666d316a9c4e5f7b27a8c55677fccb08509db12f1ade5c6f4088a5f38491ba3fa0e330d".
Definition sig_capabilities_future : string :=
  "4df680592969ebb268db05ba9294fa0f1f83a0e2ba0e2e5b4b58ea979e82b5e1821755072854ec9d8b67ae41315334f3546407b6e468c638f10abd059ac82f02".

(** The signature over [suspended:did:soul:nexus:maintenance], and a
    suspension request that also carries a timestamp. *)
Definition sig_suspend : string :=
  "d6c2731a4afc02eed9e7490f8c8d20060c9ace22fef8d58732796b1291aca58d7e79f866a564a290dd1929028ca0e10265d5a93036ad8509abe5faee6cd88b06".
Definition suspend_body : json :=
  JObject [("reason", JString "maintenance");
           ("signature", JString sig_suspend);
           ("timestamp", JString stale)].

Definition contact : Contact.t :=
  {| Contact.email := Some "nexus@example.org";
     Contact.inbox := None;
     Contact.agentmail := None;
     Contact.webhook := None;
     Contact.protocols := Some ["email"];
     Contact.preferred := Some "email" |}.

(** The clock: registration at 00:00:05 on 2026-02-01, the challenge at
    00:00:10 (it expires at 00:05:10), its completion at 00:00:20, a retry at
    00:00:30, another at 00:06:40, and updates at 01:00:00. *)
Definition t_register : Z := 1769904005000.
Definition t_challenge : Z := 1769904010000.
Definition t_verify : Z := 1769904020000.
Definition t_retry : Z := 1769904030000.
Definition t_late : Z := 1769904400000.
Definition t_update : Z := 1769907600000.

(** The store after the registration, after the challenge was issued, and
    after it was completed. *)
Definition db_registered : RegistryDB :=
  Eval vm_compute in fst (register Db.empty t_register nexus sig_register).
Definition db_challenged : RegistryDB :=
  Eval vm_compute in
    fst (postChallenge db_registered t_challenge "nexus" random16 random32).
Definition db_verified : RegistryDB :=
  Eval vm_compute in
    fst (postVerify db_challenged t_verify "nexus" challengeId sig_nonce).

End Scenario.

(** ** Notions for the decoders and encoders *)

Module Codec.
Import Js Crypto.

(** The number a little-endian list of byte values stands for, as
    [base58Decode] builds it, and the number a [Uint8Array] stands for when
    read big-endian. *)
Definition le_value (bytes : list Z) : Z :=
  fold_right (fun b acc => b + 256 * acc) 0 bytes.
Definition be_value (bs : list Byte.byte) : Z :=
  fold_left (fun acc b => 256 * acc + Z_of_byte b) bs 0.

(** Byte values, and lists of them, least significant first, that do not
    end in a zero: the shape of [bytes] in [base58Decode]. *)
Definition byte_values (bytes : list Z) : Prop := Forall (fun b => 0 ≤ b < 256) bytes.
Definition trimmed (bytes : list Z) : Prop :=
  bytes = [] ∨ ∃ low top, bytes = (low ++ [top])%list ∧ top ≠ 0.

(** The number a text stands for in base 58, each character counting for
    its place in the alphabet. *)
Definition base58_value (str : string) : Z :=
  fold_left (fun acc c => 58 * acc + indexOf BASE58_ALPHABET c)
            (list_ascii_of_string str) 0.

Definition base58_text (str : string) : Prop :=
  ∀ c, In c (list_ascii_of_string str) → indexOf BASE58_ALPHABET c ≠ -1.

Fixpoint leading_ones (str : string) : nat :=
  match str with
  | String c r => if Ascii.eqb c "1" then S (leading_ones r) else O
  | EmptyString => O
  end.

(** The text [decodeBase58OrHex] goes on with once the two prefixes are
    stripped. *)
Definition strip_prefixes (input : string) : string :=
  let input := if startsWith input "z" then slice 1 input else input in
  if startsWith input "0x" then slice 2 input else input.

(** Texts of the digits 0 to 9 and a to f. *)
Definition lower_hex_unit (c : ascii) : bool :=
  let n := code c in
  ((48 <=? n) && (n <=? 57)) || ((97 <=? n) && (n <=? 102)).

Fixpoint lowercase_hex (s : string) : bool :=
  match s with
  | EmptyString => true
  | String c r => lower_hex_unit c && lowercase_hex r
  end.

End Codec.

(** ** Notions for the canonical forms *)

Module Canonical.
Import Js JsObject.

(** What the server's digest of a registration document reads: the six
    texts of the top level, and whether there is a contact. *)
Definition signed_part (d : SoulDocument.t) :=
  (SoulDocument.did d, SoulDocument.name d, SoulDocument.publicKey d,
   SoulDocument.avatar d, SoulDocument.description d, SoulDocument.website d,
   match SoulDocument.contact d with Some _ => true | None => false end).

(** The same JSON value with the properties of its objects, at any depth,
    written in another order. *)
Inductive reordered : json → json → Prop :=
| reordered_null : reordered JNull JNull
| reordered_bool b : reordered (JBool b) (JBool b)
| reordered_number repr : reordered (JNumber repr) (JNumber repr)
| reordered_string s : reordered (JString s) (JString s)
| reordered_array items items' :
    Forall2 reordered items items' →
    reordered (JArray items) (JArray items')
| reordered_object props shuffled props' :
    NoDup (map fst props) →
    Forall2 (fun p q => fst p = fst q ∧ reordered (snd p) (snd q)) props shuffled →
    shuffled ≡ₚ props' →
    reordered (JObject props) (JObject props').

(** A value that holds no object: a scalar, or an array of such values. *)
Fixpoint flat (v : json) : bool :=
  match v with
  | JObject _ => false
  | JArray items => forallb flat items
  | _ => true
  end.

(** A key that an assignment appends as an own property: not an array
    index, and not [__proto__]. *)
Definition plain_key (k : string) : bool :=
  negb (String.eqb k "__proto__")
  && match array_index k with Some _ => false | None => true end.

End Canonical.

(** ** agent-self-register.js: the document [registerSoul] builds *)

Module Agent.
Import Js.

(** [soulDocument] as the server's schema parses it: [publicKeyHex] is the
    key the client generated, [timestamp] what its clock gave. *)
Definition soulDocument (name operator description publicKeyHex timestamp : string)
  : SoulDocument.t :=
  {| SoulDocument.did := "did:soul:" ++ toLowerCase name;
     SoulDocument.name := toLowerCase name;
     SoulDocument.publicKey := publicKeyHex;
     SoulDocument.birth :=
       {| BirthCertificate.timestamp := timestamp;
          BirthCertificate.operator := operator;
          BirthCertificate.baseModel := None;
          BirthCertificate.platform := Some "Agent Self-Registration";
          BirthCertificate.charterHash := None |};
     SoulDocument.avatar := None;
     SoulDocument.description := Some description;
     SoulDocument.website := None;
     SoulDocument.contact := None |}.

End Agent.

(** ** server.ts: the texts a soul signs *)

Module Signed.
Import Js Server.

(** The messages the handlers verify a signature over: for a contact
    update, a capabilities update and a status change. A registration is
    signed over the digest of the document, a verification over the nonce. *)
Definition contact_message (did timestamp : string) : string :=
  "contact-update:" ++ did ++ ":" ++ timestamp.
Definition capabilities_message (did timestamp : string) : string :=
  "capabilities-update:" ++ did ++ ":" ++ timestamp.
Definition status_message (newStatus : SoulStatus) (did reason : string) : string :=
  SoulStatus_text newStatus ++ ":" ++ did ++ ":" ++ reason.

End Signed.

(** ** types.ts: the pattern of a name *)

Module Patterns.
Import Js.

(** [/^[a-z0-9_-]+$/i], the pattern [SoulDocumentSchema] puts on [name]:
    without the [u] flag, ignoring case adds the capitals A to Z and nothing
    else. *)
Definition name_unit (c : ascii) : bool :=
  let n := code c in
  ((97 <=? n) && (n <=? 122)) || ((65 <=? n) && (n <=? 90))
  || ((48 <=? n) && (n <=? 57)) || (n =? 95) || (n =? 45).

Fixpoint name_units (s : string) : bool :=
  match s with
  | EmptyString => true
  | String c r => name_unit c && name_units r
  end.

Definition name_pattern (s : string) : bool :=
  match s with
  | EmptyString => false
  | _ => name_units s
  end.

End Patterns.

(** ** Notions for the store over a sequence of requests *)

Module History.
Import Js Crypto Db Server Patterns.

(** What a row keeps from the registration that created it. *)
Definition registration (r : SoulRecord.t) :=
  (SoulRecord.did r, SoulRecord.name r, SoulRecord.publicKey r, SoulRecord.birth r,
   SoulRecord.avatar r, SoulRecord.description r, SoulRecord.website r,
   SoulRecord.registeredAt r, SoulRecord._registryId r).

(** A row and a later state of it. *)
Definition evolves (r r' : SoulRecord.t) : Prop :=
  registration r' = registration r
  ∧ SoulRecord._version r ≤ SoulRecord._version r'
  ∧ SoulRecord.verificationCount r ≤ SoulRecord.verificationCount r'.

(** The table [souls] of [db'] holds the rows of [db], each at its place
    and possibly changed, followed by new rows. *)
Definition grows (db db' : RegistryDB) : Prop :=
  ∃ kept added, souls db' = (kept ++ added)%list ∧ Forall2 evolves (souls db) kept.

(** The constraints the schema of the table declares: [did] is unique,
    [name] is unique under NOCASE, and the row ids count from 1. *)
Definition unique_souls (db : RegistryDB) : Prop :=
  NoDup (map SoulRecord.did (souls db))
  ∧ NoDup (map (fun r => LOWER (SoulRecord.name r)) (souls db))
  ∧ map SoulRecord._registryId (souls db)
    = map (fun i : nat => Z.of_nat i) (seq 1 (length (souls db))).

(** Every challenge is stored under its own id, for a DID the table of
    souls holds, with a window of five minutes. *)
Definition challenges_refer (db : RegistryDB) : Prop :=
  ∀ k c, getChallenge db k = Some c →
    Challenge.challengeId c = k
    ∧ is_Some (getSoulByDid db (Challenge.did c))
    ∧ Challenge.expiresAt c = Challenge.issuedAt c + fiveMinutes.

(** The answer a request gets; the sweep is a timer and answers no one. *)
Definition answer `{Ed25519} `{Host} (db : RegistryDB) (at_event : Z * event)
  : option response :=
  let now := fst at_event in
  match snd at_event with
  | OnRegister d s => Some (snd (register db now d s))
  | OnPutContact n c s t => Some (snd (putContact db now n c s t))
  | OnPutCapabilities n cs r s t => Some (snd (putCapabilities db now n cs r s t))
  | OnPostChallenge n r16 r32 => Some (snd (postChallenge db now n r16 r32))
  | OnPostVerify n i s => Some (snd (postVerify db now n i s))
  | OnPostStatus n st b => Some (snd (updateStatus db now n st b))
  | OnSweep => None
  end.

(** Whether an answer reports a verification of [did], and whether it
    reports a signed change of the record of [did]. *)
Definition verifies (did : string) (a : option response) : bool :=
  match a with
  | Some (Verified did' _) => String.eqb did' did
  | _ => false
  end.
Definition changes (did : string) (a : option response) : bool :=
  match a with
  | Some (ContactUpdated did' _ _) | Some (CapabilitiesUpdated did' _ _ _)
  | Some (StatusChanged did' _ _) => String.eqb did' did
  | _ => false
  end.

(** How many requests of a sequence get an answer that [counts]. *)
Fixpoint tally `{Ed25519} `{Host} (counts : option response → bool)
    (db : RegistryDB) (events : list (Z * event)) : Z :=
  match events with
  | [] => 0
  | event :: rest =>
      (if counts (answer db event) then 1 else 0) + tally counts (step db event) rest
  end.

(** The rows are as registrations through the schema leave them: the name
    matches its pattern, and the DID is [did:soul:] and the name, up to the
    case of the letters. *)
Definition well_named (db : RegistryDB) : Prop :=
  ∀ r, In r (souls db) →
    name_pattern (SoulRecord.name r) = true
    ∧ toLowerCase (SoulRecord.did r) = "did:soul:" ++ toLowerCase (SoulRecord.name r).

End History.

(** ** server.ts: a registration and the requests that run while it waits *)

Module InFlight.
Import Js Crypto Db Schemas Server.

Section WithHost.
Context `{Ed25519} `{Host}.

(** POST /v1/souls/register with the [await] of its body written out. The
    handler checks the DID and the name on the store it finds, [db], and
    hashes the document; it then awaits [verifySignature], and while it
    waits the server runs other requests. [db'] is the store when the
    handler goes on, and [now] the clock it reads then: the INSERT of
    [createSoul] runs on [db']. With [db' = db] this is [Server.register]. *)
Definition register (db db' : RegistryDB) (now : Z)
    (soulDocument : SoulDocument.t) (signature : string) : RegistryDB * response :=
  let expectedDid := "did:soul:" ++ toLowerCase (SoulDocument.name soulDocument) in
  if negb (String.eqb (toLowerCase (SoulDocument.did soulDocument)) expectedDid)
  then (db, Error DID_MISMATCH)
  else
    match getSoulByName db (SoulDocument.name soulDocument) with
    | Some _ => (db, Error NAME_TAKEN)
    | None =>
        match hashSoulDocument (SoulDocument_json soulDocument) with
        | Throw _ => (db, Error INTERNAL_ERROR)
        | Ok docHash =>
            catch_internal db' (
              validSignature ← verifySignature (MsgString docHash) signature
                                 (SoulDocument.publicKey soulDocument);
              if negb validSignature then mret (db', Error INVALID_SIGNATURE)
              else
                created ← createSoul db'
                  {| NewSoul.document := soulDocument;
                     NewSoul.capabilities := None;
                     NewSoul.riskLevel := None;
                     NewSoul.status := active;
                     NewSoul.registeredAt := now;
                     NewSoul.verificationCount := 0 |};
                mret (fst created,
                      Registered (SoulRecord.did (snd created))
                                 (SoulRecord.registeredAt (snd created))))
        end
    end.

End WithHost.

End InFlight.

(** ** More requests for the session of [Scenario] *)

Module Replay.
Import Js Crypto Db Schemas Server Scenario.

(** The suspension request without a timestamp, the signature over
    [active:did:soul:nexus:restored], and the reactivation that carries it. *)
Definition suspend_request : json :=
  JObject [("reason", JString "maintenance"); ("signature", JString sig_suspend)].
Definition sig_reactivate : string :=
  "5a8d4aa51d46053e515a3a9eadc4839797dfe26c9b09177ff619568fa7212555947dd782fbeeda49b3c4ff14de3051cc253de2dcecab75667abdca4e204d980a".
Definition reactivate_request : json :=
  JObject [("reason", JString "restored"); ("signature", JString sig_reactivate)].

(** A contact the owner of [nexus] never signed for. *)
Definition other_contact : Contact.t :=
  {| Contact.email := Some "mallory@example.org";
     Contact.inbox := None;
     Contact.agentmail := None;
     Contact.webhook := Some "https://example.org/hook";
     Contact.protocols := Some ["webhook"];
     Contact.preferred := Some "webhook" |}.

(** [nexus] registering with a contact, the signature over the server's
    digest of that document, and the same registration with the contact and
    the birth certificate replaced. *)
Definition nexus_reachable : SoulDocument.t :=
  {| SoulDocument.did := "did:soul:nexus";
     SoulDocument.name := "nexus";
     SoulDocument.publicKey := publicKey;
     SoulDocument.birth := birth;
     SoulDocument.avatar := None;
     SoulDocument.description := Some "A continuity-focused AI partner";
     SoulDocument.website := None;
     SoulDocument.contact := Some contact |}.
Definition sig_register_reachable : string :=
  "73c5f70611df61c9e56dfa82c110176fbf673c2fcee14f7f480da51799510b926debeae54556a9ece6f6bab430e45c755f6d5921e59771713211547735631708".
Definition nexus_redirected : SoulDocument.t :=
  {| SoulDocument.did := "did:soul:nexus";
     SoulDocument.name := "nexus";
     SoulDocument.publicKey := publicKey;
     SoulDocument.birth := forged_birth;
     SoulDocument.avatar := None;
     SoulDocument.description := Some "A continuity-focused AI partner";
     SoulDocument.website := None;
     SoulDocument.contact := Some other_contact |}.

(** [nexus] declaring its DID with the prefix in capitals, which the DID
    check lets through, and the signature over the server's digest of that
    document. *)
Definition nexus_capital_prefix : SoulDocument.t :=
  {| SoulDocument.did := "DID:SOUL:nexus";
     SoulDocument.name := "nexus";
     SoulDocument.publicKey := publicKey;
     SoulDocument.birth := birth;
     SoulDocument.avatar := None;
     SoulDocument.description := Some "A continuity-focused AI partner";
     SoulDocument.website := None;
     SoulDocument.contact := None |}.
Definition sig_register_capital_prefix : string :=
  "f813a85d1e66c686a083d1b17054253921b712fc2c5d4e61f1b70c252ae3bec25e780897f91fc956113deb19379747a6677789899083ec49db1070c6c655f10c".

(** The clock again: a reactivation at 02:00:00 and a replay at 03:00:00. *)
Definition t_reactivate : Z := 1769911200000.
Definition t_replay : Z := 1769914800000.

(** What follows the registration of [nexus] in the session. *)
Definition session : list (Z * event) :=
  [(t_challenge, OnPostChallenge "nexus" random16 random32);
   (t_verify, OnPostVerify "nexus" challengeId sig_nonce);
   (t_update, OnPostStatus "nexus" suspended suspend_request)].

End Replay.

(** * Properties of the verification core *)

Import Js JsObject Crypto Db Schemas Server Notions.

(** ** The signature verifier *)

Section Verifier.
Context `{Ed25519}.

Lemma verifySignature_unfold msg signature publicKey :
  verifySignature msg signature publicKey =
  Ok (match decodeBase58OrHex signature, decodeBase58OrHex publicKey with
      | Ok sigBytes, Ok pubKeyBytes =>
          match verifyAsync sigBytes (message_bytes msg) pubKeyBytes with
          | Ok b => b
          | Throw _ => false
          end
      | _, _ => false
      end).
Proof.
  unfold verifySignature, try_catch, mbind, result_bind.
  destruct (decodeBase58OrHex signature) as [sigBytes|]; [|reflexivity].
  destruct (decodeBase58OrHex publicKey) as [pubKeyBytes|]; [|reflexivity].
  destruct (verifyAsync sigBytes (message_bytes msg) pubKeyBytes); reflexivity.
Qed.

Lemma verifySignature_total msg signature publicKey :
  ∃ b, verifySignature msg signature publicKey = Ok b.
Proof. rewrite verifySignature_unfold. eauto. Qed.

(** What makes the decoder throw: after the prefixes are stripped, a text
    that is not hexadecimal and holds a character outside the base-58
    alphabet. *)
Lemma base58_digits_throws str : ∀ bytes,
  (∃ m, base58_digits str bytes = Throw m) ↔
  ∃ c, In c (list_ascii_of_string str) ∧ indexOf BASE58_ALPHABET c = -1.
Proof.
  induction str as [|c r IH]; intros bytes; simpl.
  - split; [intros [m Hm]; discriminate | intros (c & [] & _)].
  - destruct (Z.eqb_spec (indexOf BASE58_ALPHABET c) (-1)) as [Hc|Hc].
    + split; [intros _; exists c; auto | eauto].
    + destruct (mul58 bytes (indexOf BASE58_ALPHABET c)) as [bytes' carry].
      rewrite IH. split.
      * intros (c' & Hin & Hc'). exists c'. auto.
      * intros (c' & [->|Hin] & Hc'); [contradiction | eauto].
Qed.

(** C3. [verifySignature] returns a boolean on every input and never throws:
    when either text fails to decode, or the Ed25519 routine throws or
    answers no, the result is [false]; it is [true] only when both texts
    decode and the routine accepts the decoded bytes. *)
Theorem verifySignature_never_throws (msg : message) (signature publicKey : string) :
  (∃ b, verifySignature msg signature publicKey = Ok b)
  ∧ verifySignature msg signature publicKey =
    Ok (match decodeBase58OrHex signature, decodeBase58OrHex publicKey with
        | Ok sigBytes, Ok pubKeyBytes =>
            match verifyAsync sigBytes (message_bytes msg) pubKeyBytes with
            | Ok b => b
            | Throw _ => false
            end
        | _, _ => false
        end).
Proof. split; [apply verifySignature_total | apply verifySignature_unfold]. Qed.

End Verifier.

(** ** Registration *)

#[local] Arguments Sha512.sha512 : simpl never.
#[local] Arguments JSON_stringify : simpl never.
#[local] Arguments verifySignature : simpl never.
#[local] Arguments hashSoulDocument : simpl never.
#[local] Arguments toLowerCase : simpl never.

Lemma hashSoulDocument_object props :
  ∃ h, hashSoulDocument (JObject props) = Ok h.
Proof. unfold hashSoulDocument, Object_keys, mbind, result_bind. eauto. Qed.

Lemma SoulDocument_json_object d : ∃ props, SoulDocument_json d = JObject props.
Proof. unfold SoulDocument_json. eauto. Qed.

Lemma hashSoulDocument_document d :
  ∃ h, hashSoulDocument (SoulDocument_json d) = Ok h.
Proof.
  destruct (SoulDocument_json_object d) as [props ->].
  apply hashSoulDocument_object.
Qed.

Section Registration.
Context `{Ed25519} `{Host}.

(** The handler, gate by gate. *)
Lemma register_unfold db now d signature :
  register db now d signature =
  if negb (String.eqb (toLowerCase (SoulDocument.did d))
                      ("did:soul:" ++ toLowerCase (SoulDocument.name d)))
  then (db, Error DID_MISMATCH)
  else match getSoulByName db (SoulDocument.name d) with
       | Some _ => (db, Error NAME_TAKEN)
       | None =>
           match hashSoulDocument (SoulDocument_json d) with
           | Throw _ => (db, Error INTERNAL_ERROR)
           | Ok docHash =>
               match verifySignature (MsgString docHash) signature
                       (SoulDocument.publicKey d) with
               | Ok true =>
                   if violates_unique db d then (db, Error INTERNAL_ERROR)
                   else (Db.Build (souls db
                                   ++ [inserted_row (candidate now d)
                                         (Z.of_nat (length (souls db)) + 1)])
                                  (challenges db),
                         Registered (SoulDocument.did d) now)
               | _ => (db, Error INVALID_SIGNATURE)
               end
           end
       end.
Proof.
  unfold register, catch_internal.
  destruct (negb _); [reflexivity|].
  destruct (getSoulByName db (SoulDocument.name d)); [reflexivity|].
  unfold mbind, result_bind.
  destruct (hashSoulDocument (SoulDocument_json d)) as [docHash|]; [|reflexivity].
  destruct (verifySignature_total (MsgString docHash) signature
              (SoulDocument.publicKey d)) as [[|] ->]; simpl; [|reflexivity].
  unfold createSoul, candidate. simpl.
  destruct (violates_unique db d); reflexivity.
Qed.

(** The name check and the constraints of the INSERT, read on the table. *)
Lemma getSoulByName_holds_name db name :
  is_Some (getSoulByName db name) ↔ Table.holds_name db name.
Proof.
  unfold getSoulByName, Table.holds_name. split.
  - intros [r Hr]. apply find_some in Hr as [Hin Heq%String.eqb_eq]. eauto.
  - intros (r & Hin & Heq).
    destruct (List.find _ (souls db)) as [r'|] eqn:Hfind; [eauto|].
    apply (find_none _ _ Hfind) in Hin. cbn in Hin.
    by rewrite Heq, String.eqb_refl in Hin.
Qed.

Lemma violates_unique_holds db d :
  violates_unique db d = true
  ↔ Table.holds_did db (SoulDocument.did d) ∨ Table.holds_name db (SoulDocument.name d).
Proof.
  unfold violates_unique, Table.holds_did, Table.holds_name.
  rewrite existsb_exists. split.
  - intros (r & Hin & [Heq%String.eqb_eq|Heq%String.eqb_eq]%orb_prop); eauto.
  - intros [(r & Hin & Heq)|(r & Hin & Heq)]; exists r; (split; [done|]);
      rewrite Heq, String.eqb_refl; [done | apply orb_true_r].
Qed.

(** C8. Registration applies its gates in order: the DID check, the
    case-insensitive name check, then the signature check against the public
    key of the candidate document. The name check stops a request exactly
    when a row of the table holds its name up to the case of the letters. A
    request stopped at a gate leaves the store as it was, and each error
    answer tells which gate stopped it. The answer is a success exactly when
    the three gates are passed and no row holds the DID of the document; the
    signature then verifies over the hash of the document under the
    document's own public key, and exactly one row was added, with status
    active, a verification count of zero and the server's clock as its
    registration time. *)
Theorem register_gates_in_order (db : RegistryDB) (now : Z)
    (d : SoulDocument.t) (signature : string) :
  let expectedDid := "did:soul:" ++ toLowerCase (SoulDocument.name d) in
  let out := register db now d signature in
  let signed (answer : bool) :=
    ∃ docHash, hashSoulDocument (SoulDocument_json d) = Ok docHash
      ∧ verifySignature (MsgString docHash) signature (SoulDocument.publicKey d)
        = Ok answer in
  (toLowerCase (SoulDocument.did d) ≠ expectedDid →
   out = (db, Error DID_MISMATCH))
  ∧ (is_Some (getSoulByName db (SoulDocument.name d))
     ↔ Table.holds_name db (SoulDocument.name d))
  ∧ (toLowerCase (SoulDocument.did d) = expectedDid →
     Table.holds_name db (SoulDocument.name d) →
     out = (db, Error NAME_TAKEN))
  ∧ (toLowerCase (SoulDocument.did d) = expectedDid →
     ¬ Table.holds_name db (SoulDocument.name d) →
     (∀ docHash, hashSoulDocument (SoulDocument_json d) = Ok docHash →
        verifySignature (MsgString docHash) signature (SoulDocument.publicKey d)
        = Ok false) →
     out = (db, Error INVALID_SIGNATURE))
  ∧ (toLowerCase (SoulDocument.did d) = expectedDid →
     ¬ Table.holds_name db (SoulDocument.name d) →
     signed true →
     ¬ Table.holds_did db (SoulDocument.did d) →
     out = (Db.Build (souls db
                      ++ [inserted_row (candidate now d)
                            (Z.of_nat (length (souls db)) + 1)])%list
                     (challenges db),
            Registered (SoulDocument.did d) now))
  ∧ (snd out = Error DID_MISMATCH →
     toLowerCase (SoulDocument.did d) ≠ expectedDid)
  ∧ (snd out = Error NAME_TAKEN →
     toLowerCase (SoulDocument.did d) = expectedDid
     ∧ Table.holds_name db (SoulDocument.name d))
  ∧ (snd out = Error INVALID_SIGNATURE →
     toLowerCase (SoulDocument.did d) = expectedDid
     ∧ ¬ Table.holds_name db (SoulDocument.name d)
     ∧ signed false)
  ∧ (∀ did registeredAt, snd out = Registered did registeredAt →
     toLowerCase (SoulDocument.did d) = expectedDid
     ∧ getSoulByName db (SoulDocument.name d) = None
     ∧ ¬ Table.holds_name db (SoulDocument.name d)
     ∧ ¬ Table.holds_did db (SoulDocument.did d)
     ∧ signed true
     ∧ did = SoulDocument.did d
     ∧ registeredAt = now
     ∧ ∃ row, souls (fst out) = (souls db ++ [row])%list
         ∧ challenges (fst out) = challenges db
         ∧ SoulRecord.did row = SoulDocument.did d
         ∧ SoulRecord.name row = SoulDocument.name d
         ∧ SoulRecord.publicKey row = SoulDocument.publicKey d
         ∧ SoulRecord.status row = active
         ∧ SoulRecord.verificationCount row = 0
         ∧ SoulRecord.registeredAt row = now)
  ∧ ((∀ did registeredAt, snd out ≠ Registered did registeredAt) → fst out = db).
Proof.
  cbv zeta. rewrite register_unfold.
  pose proof (getSoulByName_holds_name db (SoulDocument.name d)) as Hheld.
  pose proof (violates_unique_holds db d) as Hunique.
  destruct (String.eqb_spec (toLowerCase (SoulDocument.did d))
              ("did:soul:" ++ toLowerCase (SoulDocument.name d))) as [Hdid|Hdid];
    cbn [negb].
  2: { split_and!; try done. }
  destruct (getSoulByName db (SoulDocument.name d)) as [existing|] eqn:Hname.
  { assert (Hrow : Table.holds_name db (SoulDocument.name d))
      by (apply Hheld; eauto).
    split_and!; try done. }
  assert (Hfree : ¬ Table.holds_name db (SoulDocument.name d)).
  { intros Hrow. apply Hheld in Hrow as [? ?]. done. }
  destruct (hashSoulDocument_document d) as [docHash Hhash]. rewrite Hhash.
  destruct (verifySignature_total (MsgString docHash) signature
              (SoulDocument.publicKey d)) as [[|] Hsig]; rewrite Hsig.
  - assert (Hvalid : ¬ ∀ h, Ok docHash = Ok h →
                verifySignature (MsgString h) signature (SoulDocument.publicKey d)
                = Ok false).
    { intros Hfalse. specialize (Hfalse docHash eq_refl). congruence. }
    destruct (violates_unique db d) eqn:Hviolates; cbn [fst snd].
    + assert (Hclash : Table.holds_did db (SoulDocument.did d)).
      { destruct (proj1 Hunique eq_refl) as [Hrow|Hrow]; [done | by destruct Hfree]. }
      split_and!; try done.
    + assert (Hnew : ¬ Table.holds_did db (SoulDocument.did d)).
      { intros Hrow. assert (false = true); [|done]. apply Hunique. by left. }
      split_and!; try done.
      * intros did registeredAt [= <- <-].
        split_and!; try done; [eauto|].
        eexists. split_and!; reflexivity.
      * intros Hne. exfalso. by eapply Hne.
  - split_and!; try done.
    + intros _ _ (h & [= <-] & Htrue) _. congruence.
    + intros _. split_and!; eauto.
Qed.

End Registration.

Section DerivedDid.
Context `{Ed25519} `{Host}.

(** C9, as the code has it. Registration is rejected with DID_MISMATCH
    whenever the declared [did], in lower case, differs from [did:soul:]
    followed by the name in lower case; and a [did] that passes is stored
    and answered exactly as declared. *)
Theorem did_checked_in_lower_case (db : RegistryDB) (now : Z)
    (d : SoulDocument.t) (signature : string) :
  (toLowerCase (SoulDocument.did d) ≠ "did:soul:" ++ toLowerCase (SoulDocument.name d) →
   register db now d signature = (db, Error DID_MISMATCH))
  ∧ (∀ did registeredAt,
       snd (register db now d signature) = Registered did registeredAt →
       did = SoulDocument.did d
       ∧ ∃ row, souls (fst (register db now d signature)) = (souls db ++ [row])%list
           ∧ SoulRecord.did row = SoulDocument.did d).
Proof.
  rewrite register_unfold. split.
  - intros Hdid.
    destruct (String.eqb_spec (toLowerCase (SoulDocument.did d))
                ("did:soul:" ++ toLowerCase (SoulDocument.name d))); done.
  - intros did registeredAt.
    destruct (negb _); [done|].
    destruct (getSoulByName db (SoulDocument.name d)); [done|].
    destruct (hashSoulDocument (SoulDocument_json d)); [|done].
    destruct (verifySignature _ _ _) as [[|]|]; try done.
    destruct (violates_unique db d); [done|].
    cbn [fst snd]. intros [= <- <-]. split; [done|].
    eexists. split; reflexivity.
Qed.

End DerivedDid.

(** ** Metadata updates and the freshness window *)

Lemma assoc_app_other {A} (P k : string) (v : A) (props : list (string * A)) :
  String.eqb P k = false → assoc P (props ++ [(k, v)]) = assoc P props.
Proof.
  intros Hne. induction props as [|[k' v'] props IH]; cbn [app assoc].
  - by rewrite Hne.
  - by destruct (String.eqb P k').
Qed.

(** [StatusUpdateSchema] strips a [timestamp] from the body. *)
Lemma safeParse_ignores_timestamp props ts :
  StatusUpdateSchema_safeParse (JObject (props ++ [("timestamp", ts)]))
  = StatusUpdateSchema_safeParse (JObject props).
Proof.
  unfold StatusUpdateSchema_safeParse. by rewrite !assoc_app_other.
Qed.

Section Updates.
Context `{Ed25519} `{Host}.

Lemma putContact_unfold db now didOrName contact signature timestamp :
  putContact db now didOrName contact signature timestamp =
  match resolveSoul db didOrName with
  | None => (db, Error NOT_FOUND)
  | Some soul =>
      if Date_lt (Date_parse timestamp) (Some (now - fiveMinutes))
      then (db, Error TIMESTAMP_EXPIRED)
      else contact_signature_stage db now soul contact signature timestamp
  end.
Proof.
  unfold putContact, catch_internal, contact_signature_stage.
  destruct (resolveSoul db didOrName) as [soul|]; [|reflexivity].
  destruct (Date_lt _ _); [reflexivity|].
  unfold mbind, result_bind.
  destruct (verifySignature_total
              (MsgString ("contact-update:" ++ SoulRecord.did soul ++ ":" ++ timestamp))
              signature (SoulRecord.publicKey soul)) as [[|] ->]; reflexivity.
Qed.

Lemma putCapabilities_unfold db now didOrName capabilities riskLevel signature timestamp :
  putCapabilities db now didOrName capabilities riskLevel signature timestamp =
  match resolveSoul db didOrName with
  | None => (db, Error NOT_FOUND)
  | Some soul =>
      if Date_lt (Date_parse timestamp) (Some (now - fiveMinutes))
      then (db, Error TIMESTAMP_EXPIRED)
      else capabilities_signature_stage db now soul capabilities riskLevel
             signature timestamp
  end.
Proof.
  unfold putCapabilities, catch_internal, capabilities_signature_stage.
  destruct (resolveSoul db didOrName) as [soul|]; [|reflexivity].
  destruct (Date_lt _ _); [reflexivity|].
  unfold mbind, result_bind.
  destruct (verifySignature_total
              (MsgString ("capabilities-update:" ++ SoulRecord.did soul ++ ":"
                          ++ timestamp))
              signature (SoulRecord.publicKey soul)) as [[|] ->]; reflexivity.
Qed.

Lemma contact_stage_not_expired db now soul contact signature timestamp :
  snd (contact_signature_stage db now soul contact signature timestamp)
  ≠ Error TIMESTAMP_EXPIRED.
Proof.
  unfold contact_signature_stage.
  destruct (verifySignature _ _ _) as [[|]|]; done.
Qed.

Lemma capabilities_stage_not_expired db now soul capabilities riskLevel
    signature timestamp :
  snd (capabilities_signature_stage db now soul capabilities riskLevel
         signature timestamp)
  ≠ Error TIMESTAMP_EXPIRED.
Proof.
  unfold capabilities_signature_stage.
  destruct (verifySignature _ _ _) as [[|]|]; done.
Qed.

Lemma updateStatus_unfold db now didOrName newStatus body :
  updateStatus db now didOrName newStatus body =
  match StatusUpdateSchema_safeParse body with
  | None => (db, Error INVALID_REQUEST)
  | Some data =>
      match resolveSoul db didOrName with
      | None => (db, Error NOT_FOUND)
      | Some soul =>
          match verifySignature
                  (MsgString (SoulStatus_text newStatus ++ ":" ++ SoulRecord.did soul
                              ++ ":" ++ StatusUpdate.reason data))
                  (StatusUpdate.signature data) (SoulRecord.publicKey soul) with
          | Ok true =>
              (fst (updateSoulStatus db (SoulRecord.did soul) newStatus
                      (StatusUpdate.reason data) now),
               StatusChanged (SoulRecord.did soul) newStatus now)
          | _ => (db, Error INVALID_SIGNATURE)
          end
      end
  end.
Proof.
  unfold updateStatus, catch_internal.
  destruct (StatusUpdateSchema_safeParse body) as [data|]; [|reflexivity].
  destruct (resolveSoul db didOrName) as [soul|]; [|reflexivity].
  unfold mbind, result_bind.
  destruct (verifySignature_total
              (MsgString (SoulStatus_text newStatus ++ ":" ++ SoulRecord.did soul
                          ++ ":" ++ StatusUpdate.reason data))
              (StatusUpdate.signature data) (SoulRecord.publicKey soul))
    as [[|] ->]; reflexivity.
Qed.

Lemma updateStatus_not_expired db now didOrName newStatus body :
  snd (updateStatus db now didOrName newStatus body) ≠ Error TIMESTAMP_EXPIRED.
Proof.
  rewrite updateStatus_unfold.
  destruct (StatusUpdateSchema_safeParse body); [|done].
  destruct (resolveSoul db didOrName); [|done].
  by destruct (verifySignature _ _ _) as [[|]|].
Qed.

(** C7, as the code has it. A contact or capabilities update addressed to
    a registered subject, whose timestamp is more than five minutes older
    than the server's clock, is rejected with TIMESTAMP_EXPIRED whatever the
    signature, and the store is unchanged. A status change has no such gate:
    a body that carries the same stale timestamp is handled as the body
    without it, and is never answered TIMESTAMP_EXPIRED. *)
Theorem stale_update_rejected (db : RegistryDB) (now : Z) (didOrName : string)
    (soul : SoulRecord.t) (signature timestamp : string) (t : Z) :
  resolveSoul db didOrName = Some soul →
  Date_parse timestamp = Some t →
  t < now - fiveMinutes →
  (∀ contact,
     putContact db now didOrName contact signature timestamp
     = (db, Error TIMESTAMP_EXPIRED))
  ∧ (∀ capabilities riskLevel,
       putCapabilities db now didOrName capabilities riskLevel signature timestamp
       = (db, Error TIMESTAMP_EXPIRED))
  ∧ (∀ newStatus props,
       updateStatus db now didOrName newStatus
         (JObject (props ++ [("timestamp", JString timestamp)]))
       = updateStatus db now didOrName newStatus (JObject props)
       ∧ snd (updateStatus db now didOrName newStatus (JObject props))
         ≠ Error TIMESTAMP_EXPIRED).
Proof.
  intros Hsoul Hparse Hold.
  assert (Hlt : Date_lt (Date_parse timestamp) (Some (now - fiveMinutes)) = true).
  { rewrite Hparse. simpl. by apply Z.ltb_lt. }
  split_and!; intros.
  - by rewrite putContact_unfold, Hsoul, Hlt.
  - by rewrite putCapabilities_unfold, Hsoul, Hlt.
  - split.
    + by rewrite !updateStatus_unfold, safeParse_ignores_timestamp.
    + apply updateStatus_not_expired.
Qed.

(** C10. The freshness gate bounds the timestamp from below only. For a
    registered subject, a timestamp in the future of the server's clock, however
    far, passes the gate and the request goes on to signature verification;
    and the answer is TIMESTAMP_EXPIRED exactly when the timestamp is more
    than five minutes in the past. *)
Theorem freshness_bounds_the_past_only (db : RegistryDB) (now : Z)
    (didOrName : string) (soul : SoulRecord.t) (signature timestamp : string)
    (t : Z) :
  resolveSoul db didOrName = Some soul →
  Date_parse timestamp = Some t →
  (now < t →
   (∀ contact,
      putContact db now didOrName contact signature timestamp
      = contact_signature_stage db now soul contact signature timestamp)
   ∧ (∀ capabilities riskLevel,
        putCapabilities db now didOrName capabilities riskLevel signature timestamp
        = capabilities_signature_stage db now soul capabilities riskLevel
            signature timestamp))
  ∧ (∀ contact,
       snd (putContact db now didOrName contact signature timestamp)
       = Error TIMESTAMP_EXPIRED ↔ t < now - fiveMinutes)
  ∧ (∀ capabilities riskLevel,
       snd (putCapabilities db now didOrName capabilities riskLevel
              signature timestamp)
       = Error TIMESTAMP_EXPIRED ↔ t < now - fiveMinutes).
Proof.
  intros Hsoul Hparse.
  assert (Hgate : Date_lt (Date_parse timestamp) (Some (now - fiveMinutes))
                  = (t <? now - fiveMinutes)).
  { by rewrite Hparse. }
  split_and!.
  - intros Hfuture.
    assert (Hpass : (t <? now - fiveMinutes) = false).
    { apply Z.ltb_ge. unfold fiveMinutes. lia. }
    split; intros.
    + by rewrite putContact_unfold, Hsoul, Hgate, Hpass.
    + by rewrite putCapabilities_unfold, Hsoul, Hgate, Hpass.
  - intros contact. rewrite putContact_unfold, Hsoul, Hgate.
    destruct (Z.ltb_spec t (now - fiveMinutes)) as [Hlt|Hge].
    + done.
    + split; [|lia]. intros Hsnd.
      by apply contact_stage_not_expired in Hsnd.
  - intros capabilities riskLevel. rewrite putCapabilities_unfold, Hsoul, Hgate.
    destruct (Z.ltb_spec t (now - fiveMinutes)) as [Hlt|Hge].
    + done.
    + split; [|lia]. intros Hsnd.
      by apply capabilities_stage_not_expired in Hsnd.
Qed.

End Updates.

(** ** The version counter *)

Lemma find_update_where_did (souls : list SoulRecord.t) (did did' : string)
    (set : SoulRecord.t → SoulRecord.t) :
  (∀ r, SoulRecord.did (set r) = SoulRecord.did r) →
  List.find (fun r => String.eqb (SoulRecord.did r) did)
    (map (fun r => if String.eqb (SoulRecord.did r) did' then set r else r) souls)
  = (fun r => if String.eqb (SoulRecord.did r) did' then set r else r)
      <$> List.find (fun r => String.eqb (SoulRecord.did r) did) souls.
Proof.
  intros Hset. induction souls as [|r rest IH]; [reflexivity|].
  cbn [map List.find].
  assert (Hdid : SoulRecord.did
                   (if String.eqb (SoulRecord.did r) did' then set r else r)
                 = SoulRecord.did r).
  { destruct (String.eqb _ did'); [apply Hset | reflexivity]. }
  rewrite Hdid. destruct (String.eqb (SoulRecord.did r) did); [reflexivity | apply IH].
Qed.

Lemma getSoulByDid_update db did did' set :
  (∀ r, SoulRecord.did (set r) = SoulRecord.did r) →
  getSoulByDid (update_where_did db did' set) did
  = (fun r => if String.eqb (SoulRecord.did r) did' then set r else r)
      <$> getSoulByDid db did.
Proof. intros Hset. by apply find_update_where_did. Qed.

Lemma getSoulByDid_did db did soul :
  getSoulByDid db did = Some soul → SoulRecord.did soul = did.
Proof.
  unfold getSoulByDid. intros Hfind.
  apply List.find_some in Hfind as [_ Heq]. by apply String.eqb_eq.
Qed.

Lemma resolveSoul_in db didOrName soul :
  resolveSoul db didOrName = Some soul → In soul (souls db).
Proof.
  unfold resolveSoul, getSoulByDid, getSoulByName.
  destruct (startsWith didOrName "did:soul:"); intros Hfind;
    by apply List.find_some in Hfind as [Hin _].
Qed.

Lemma getSoulByDid_of_member db soul :
  In soul (souls db) → is_Some (getSoulByDid db (SoulRecord.did soul)).
Proof.
  unfold getSoulByDid. intros Hin.
  destruct (List.find _ (souls db)) eqn:Hfind; [eauto|].
  eapply List.find_none in Hfind; [|exact Hin].
  by rewrite String.eqb_refl in Hfind.
Qed.

Section Version.
Context `{Ed25519} `{Host}.

Lemma postVerify_unfold db now didOrName challengeId signature :
  postVerify db now didOrName challengeId signature =
  match getChallenge db challengeId with
  | None => (db, Error CHALLENGE_NOT_FOUND)
  | Some challenge =>
      if Challenge.expiresAt challenge <? now
      then (updateChallengeStatus db challengeId expired, Error CHALLENGE_EXPIRED)
      else if negb (bool_decide (Challenge.status challenge = pending))
      then (db, Error CHALLENGE_USED)
      else
        match resolveSoul db didOrName with
        | None => (db, Error NOT_FOUND)
        | Some soul =>
            if negb (String.eqb (Challenge.did challenge) (SoulRecord.did soul))
            then (db, Error DID_MISMATCH)
            else
              match verifySignature (MsgString (Challenge.nonce challenge))
                      signature (SoulRecord.publicKey soul) with
              | Ok true =>
                  (incrementVerificationCount
                     (updateChallengeStatus db challengeId completed)
                     (SoulRecord.did soul) now,
                   Verified (SoulRecord.did soul) now)
              | _ => (db, Error INVALID_SIGNATURE)
              end
        end
  end.
Proof.
  unfold postVerify, catch_internal.
  destruct (getChallenge db challengeId) as [challenge|]; [|reflexivity].
  destruct (_ <? now); [reflexivity|].
  destruct (negb (bool_decide _)); [reflexivity|].
  destruct (resolveSoul db didOrName) as [soul|]; [|reflexivity].
  destruct (negb (String.eqb _ _)); [reflexivity|].
  unfold mbind, result_bind.
  destruct (verifySignature_total (MsgString (Challenge.nonce challenge))
              signature (SoulRecord.publicKey soul)) as [[|] ->]; reflexivity.
Qed.

(** The three signed mutations add one to the version of the record they
    change. *)
Lemma signed_mutations_bump_version db now didOrName :
  (∀ contact signature timestamp did updatedAt,
     snd (putContact db now didOrName contact signature timestamp)
     = ContactUpdated did contact updatedAt →
     ∃ soul, getSoulByDid db did = Some soul
       ∧ getSoulByDid (fst (putContact db now didOrName contact signature timestamp))
           did = Some (set_contact contact soul))
  ∧ (∀ capabilities riskLevel signature timestamp did risk' updatedAt,
       snd (putCapabilities db now didOrName capabilities riskLevel signature timestamp)
       = CapabilitiesUpdated did capabilities risk' updatedAt →
       ∃ soul, getSoulByDid db did = Some soul
         ∧ getSoulByDid (fst (putCapabilities db now didOrName capabilities
                                riskLevel signature timestamp)) did
           = Some (set_capabilities capabilities riskLevel soul))
  ∧ (∀ newStatus body did changedAt,
       snd (updateStatus db now didOrName newStatus body)
       = StatusChanged did newStatus changedAt →
       ∃ soul data, StatusUpdateSchema_safeParse body = Some data
         ∧ getSoulByDid db did = Some soul
         ∧ getSoulByDid (fst (updateStatus db now didOrName newStatus body)) did
           = Some (set_status newStatus (StatusUpdate.reason data) now soul))
  ∧ (∀ contact capabilities riskLevel status reason changedAt soul,
       SoulRecord._version (set_contact contact soul) = SoulRecord._version soul + 1
       ∧ SoulRecord._version (set_capabilities capabilities riskLevel soul)
         = SoulRecord._version soul + 1
       ∧ SoulRecord._version (set_status status reason changedAt soul)
         = SoulRecord._version soul + 1).
Proof.
  split_and!.
  - intros contact signature timestamp did updatedAt.
    rewrite putContact_unfold.
    destruct (resolveSoul db didOrName) as [soul|] eqn:Hsoul; [|done].
    destruct (Date_lt _ _); [done|]. unfold contact_signature_stage.
    destruct (verifySignature _ _ _) as [[|]|]; try done.
    cbn [fst snd]. intros [= <- _].
    destruct (getSoulByDid_of_member db soul) as [first Hfirst];
      [by eapply resolveSoul_in|].
    exists first. split; [done|]. unfold updateSoulContact. cbn [fst].
    rewrite getSoulByDid_update, Hfirst by done. cbn [fmap option_fmap option_map].
    by rewrite (getSoulByDid_did _ _ _ Hfirst), String.eqb_refl.
  - intros capabilities riskLevel signature timestamp did risk' updatedAt.
    rewrite putCapabilities_unfold.
    destruct (resolveSoul db didOrName) as [soul|] eqn:Hsoul; [|done].
    destruct (Date_lt _ _); [done|]. unfold capabilities_signature_stage.
    destruct (verifySignature _ _ _) as [[|]|]; try done.
    cbn [fst snd]. intros [= <- _].
    destruct (getSoulByDid_of_member db soul) as [first Hfirst];
      [by eapply resolveSoul_in|].
    exists first. split; [done|]. unfold updateSoulCapabilities. cbn [fst].
    rewrite getSoulByDid_update, Hfirst by done. cbn [fmap option_fmap option_map].
    by rewrite (getSoulByDid_did _ _ _ Hfirst), String.eqb_refl.
  - intros newStatus body did changedAt.
    rewrite updateStatus_unfold.
    destruct (StatusUpdateSchema_safeParse body) as [data|]; [|done].
    destruct (resolveSoul db didOrName) as [soul|] eqn:Hsoul; [|done].
    destruct (verifySignature _ _ _) as [[|]|]; try done.
    cbn [fst snd]. intros [= <- _].
    destruct (getSoulByDid_of_member db soul) as [first Hfirst];
      [by eapply resolveSoul_in|].
    exists first, data. split_and!; try done. unfold updateSoulStatus. cbn [fst].
    rewrite getSoulByDid_update, Hfirst by done. cbn [fmap option_fmap option_map].
    by rewrite (getSoulByDid_did _ _ _ Hfirst), String.eqb_refl.
  - intros. split_and!; reflexivity.
Qed.

(** C6, where the code departs from it. A successful challenge completion
    changes the subject's record, adding one to its verification count, and
    leaves the version of every record as it was. *)
Theorem verification_leaves_version (db : RegistryDB) (now : Z)
    (didOrName challengeId signature did : string) (verifiedAt : Z) :
  snd (postVerify db now didOrName challengeId signature) = Verified did verifiedAt →
  let db' := fst (postVerify db now didOrName challengeId signature) in
  map SoulRecord._version (souls db') = map SoulRecord._version (souls db)
  ∧ ∃ soul, getSoulByDid db did = Some soul
      ∧ getSoulByDid db' did = Some (set_verified now soul)
      ∧ SoulRecord.verificationCount (set_verified now soul)
        = SoulRecord.verificationCount soul + 1
      ∧ SoulRecord._version (set_verified now soul) = SoulRecord._version soul.
Proof.
  cbv zeta. rewrite postVerify_unfold.
  destruct (getChallenge db challengeId) as [challenge|]; [|done].
  destruct (_ <? now); [done|].
  destruct (negb (bool_decide _)); [done|].
  destruct (resolveSoul db didOrName) as [soul|] eqn:Hsoul; [|done].
  destruct (negb (String.eqb _ _)); [done|].
  destruct (verifySignature _ _ _) as [[|]|]; try done.
  cbn [fst snd]. intros [= <- _]. split.
  - unfold incrementVerificationCount, update_where_did, updateChallengeStatus.
    cbn [souls]. rewrite map_map. apply map_ext. intros r.
    by destruct (String.eqb _ _).
  - destruct (getSoulByDid_of_member db soul) as [first Hfirst];
      [by eapply resolveSoul_in|].
    exists first. split_and!; try done.
    unfold incrementVerificationCount.
    rewrite getSoulByDid_update by done.
    unfold getSoulByDid, updateChallengeStatus in *. cbn [souls].
    rewrite Hfirst. cbn [fmap option_fmap option_map].
    apply List.find_some in Hfirst as [_ Heq]. by rewrite Heq.
Qed.

End Version.

(** ** Challenges *)

Lemma lookup_updateChallengeStatus db challengeId challengeId' status :
  getChallenge (updateChallengeStatus db challengeId' status) challengeId
  = if decide (challengeId' = challengeId)
    then set_challenge_status status <$> getChallenge db challengeId'
    else getChallenge db challengeId.
Proof. unfold getChallenge, updateChallengeStatus. cbn [challenges]. apply lookup_alter. Qed.

Lemma left_pending_updateChallengeStatus db challengeId expiresAt challengeId' status :
  status ≠ pending →
  left_pending db challengeId expiresAt →
  left_pending (updateChallengeStatus db challengeId' status) challengeId expiresAt.
Proof.
  intros Hstatus (c & Hc & Hleft & Hexp). unfold left_pending.
  rewrite lookup_updateChallengeStatus. case_decide as Heq.
  - subst challengeId'. rewrite Hc. eexists. split; [reflexivity|]. done.
  - eauto.
Qed.

Lemma left_pending_same_challenges db db' challengeId expiresAt :
  challenges db' = challenges db →
  left_pending db challengeId expiresAt → left_pending db' challengeId expiresAt.
Proof. unfold left_pending, getChallenge. by intros ->. Qed.

Section Challenges.
Context `{Ed25519} `{Host}.

Lemma register_challenges db now d signature :
  challenges (fst (register db now d signature)) = challenges db.
Proof.
  rewrite register_unfold.
  destruct (negb _); [done|].
  destruct (getSoulByName db (SoulDocument.name d)); [done|].
  destruct (hashSoulDocument (SoulDocument_json d)); [|done].
  destruct (verifySignature _ _ _) as [[|]|]; try done.
  by destruct (violates_unique db d).
Qed.

Lemma putContact_challenges db now didOrName contact signature timestamp :
  challenges (fst (putContact db now didOrName contact signature timestamp))
  = challenges db.
Proof.
  rewrite putContact_unfold.
  destruct (resolveSoul db didOrName); [|done].
  destruct (Date_lt _ _); [done|]. unfold contact_signature_stage.
  by destruct (verifySignature _ _ _) as [[|]|].
Qed.

Lemma putCapabilities_challenges db now didOrName capabilities riskLevel
    signature timestamp :
  challenges (fst (putCapabilities db now didOrName capabilities riskLevel
                     signature timestamp))
  = challenges db.
Proof.
  rewrite putCapabilities_unfold.
  destruct (resolveSoul db didOrName); [|done].
  destruct (Date_lt _ _); [done|]. unfold capabilities_signature_stage.
  by destruct (verifySignature _ _ _) as [[|]|].
Qed.

Lemma updateStatus_challenges db now didOrName newStatus body :
  challenges (fst (updateStatus db now didOrName newStatus body)) = challenges db.
Proof.
  rewrite updateStatus_unfold.
  destruct (StatusUpdateSchema_safeParse body); [|done].
  destruct (resolveSoul db didOrName); [|done].
  by destruct (verifySignature _ _ _) as [[|]|].
Qed.

Lemma left_pending_postChallenge db now didOrName random16 random32
    challengeId expiresAt :
  left_pending db challengeId expiresAt →
  left_pending (fst (postChallenge db now didOrName random16 random32))
    challengeId expiresAt.
Proof.
  intros (c & Hc & Hleft & Hexp). unfold postChallenge.
  destruct (resolveSoul db didOrName) as [soul|]; [|by exists c].
  unfold createChallenge. cbn [Challenge.challengeId].
  destruct (challenges db !! generateChallengeId random16) eqn:Hfresh;
    [by exists c|].
  exists c. split; [|done]. unfold getChallenge in *. cbn [fst challenges].
  rewrite lookup_insert_ne; [done|]. intros Heq. congruence.
Qed.

Lemma left_pending_postVerify db now didOrName challengeId' signature
    challengeId expiresAt :
  left_pending db challengeId expiresAt →
  left_pending (fst (postVerify db now didOrName challengeId' signature))
    challengeId expiresAt.
Proof.
  intros Hleft. rewrite postVerify_unfold.
  destruct (getChallenge db challengeId') as [challenge|] eqn:Hch; [|done].
  destruct (_ <? now); [by apply left_pending_updateChallengeStatus|].
  destruct (negb (bool_decide _)); [done|].
  destruct (resolveSoul db didOrName); [|done].
  destruct (negb (String.eqb _ _)); [done|].
  destruct (verifySignature _ _ _) as [[|]|]; try done.
  cbn [fst]. eapply left_pending_same_challenges;
    [|apply left_pending_updateChallengeStatus; [|exact Hleft]]; done.
Qed.

Lemma left_pending_sweep db now challengeId expiresAt :
  left_pending db challengeId expiresAt →
  left_pending (fst (cleanExpiredChallenges db now)) challengeId expiresAt.
Proof.
  intros (c & Hc & Hleft & Hexp). exists c. split; [|done].
  unfold getChallenge, cleanExpiredChallenges in *. cbn [fst challenges].
  apply map_lookup_filter_Some. split; [done|]. cbn [snd]. unfold swept.
  rewrite bool_decide_eq_false_2 by done. apply andb_false_r.
Qed.

(** No event brings a challenge back to pending or removes it once it has
    left pending, and none moves the end of its window. *)
Lemma left_pending_step db event challengeId expiresAt :
  left_pending db challengeId expiresAt →
  left_pending (step db event) challengeId expiresAt.
Proof.
  intros Hleft. destruct event as [now [ | | | | | | ]]; unfold step; cbn [fst snd].
  - eapply left_pending_same_challenges; [apply register_challenges|done].
  - eapply left_pending_same_challenges; [apply putContact_challenges|done].
  - eapply left_pending_same_challenges; [apply putCapabilities_challenges|done].
  - by apply left_pending_postChallenge.
  - by apply left_pending_postVerify.
  - eapply left_pending_same_challenges; [apply updateStatus_challenges|done].
  - by apply left_pending_sweep.
Qed.

Lemma left_pending_run events : ∀ db challengeId expiresAt,
  left_pending db challengeId expiresAt →
  left_pending (run db events) challengeId expiresAt.
Proof.
  induction events as [|event events IH]; intros db challengeId expiresAt Hleft.
  - done.
  - apply IH. by apply left_pending_step.
Qed.

(** An expired challenge stays expired. *)
Lemma expired_is_terminal events : ∀ db challengeId c,
  getChallenge db challengeId = Some c →
  Challenge.status c = expired →
  getChallenge (run db events) challengeId = Some c.
Proof.
  induction events as [|[now event] events IH]; intros db challengeId c Hc Hexpired;
    [done|].
  apply IH; [|done]. unfold step, getChallenge in *. cbn [fst snd].
  destruct event.
  - by rewrite register_challenges.
  - by rewrite putContact_challenges.
  - by rewrite putCapabilities_challenges.
  - unfold postChallenge.
    destruct (resolveSoul db didOrName) as [soul|]; [|done].
    unfold createChallenge. cbn [Challenge.challengeId].
    destruct (challenges db !! generateChallengeId random16) eqn:Hfresh; [done|].
    cbn [fst challenges]. rewrite lookup_insert_ne; [done|]. intros Heq. congruence.
  - rewrite postVerify_unfold. fold (getChallenge db challengeId0).
    destruct (getChallenge db challengeId0) as [challenge|] eqn:Hch; [|done].
    assert (Hset : ∀ db', challenges db' = challenges db →
              challenges (updateChallengeStatus db' challengeId0 expired)
                !! challengeId = Some c).
    { intros db' Hsame.
      pose proof (lookup_updateChallengeStatus db' challengeId challengeId0 expired)
        as Hlookup.
      unfold getChallenge in Hlookup. rewrite Hlookup, Hsame.
      case_decide as Heq; [|done]. subst challengeId0.
      unfold getChallenge in Hch. rewrite Hc. cbn. f_equal.
      destruct c. cbn in *. by subst. }
    destruct (_ <? now); [by apply Hset|].
    destruct (bool_decide_reflect (Challenge.status challenge = pending))
      as [Hpending|Hused]; cbn [negb]; [|done].
    destruct (resolveSoul db didOrName); [|done].
    destruct (negb (String.eqb _ _)); [done|].
    destruct (verifySignature _ _ _) as [[|]|]; try done.
    cbn [fst]. unfold incrementVerificationCount, update_where_did. cbn [challenges].
    pose proof (lookup_updateChallengeStatus db challengeId challengeId0 completed)
      as Hlookup.
    unfold getChallenge in Hlookup. rewrite Hlookup.
    case_decide as Heq; [|done]. subst challengeId0.
    unfold getChallenge in Hch. congruence.
  - by rewrite updateStatus_challenges.
  - unfold cleanExpiredChallenges. cbn [fst challenges].
    apply map_lookup_filter_Some. split; [done|]. cbn [snd]. unfold swept.
    rewrite bool_decide_eq_false_2 by congruence. apply andb_false_r.
Qed.

(** C4, where the code departs from it. A verify attempt that arrives after
    [expiresAt] writes the status expired over a challenge that was already
    completed; the expiry branch of the handler does not look at the status
    the challenge has. *)
Theorem late_verify_overwrites_completed (db : RegistryDB) (now : Z)
    (didOrName challengeId signature : string) (c : Challenge.t) :
  getChallenge db challengeId = Some c →
  Challenge.status c = completed →
  Challenge.expiresAt c < now →
  postVerify db now didOrName challengeId signature
  = (updateChallengeStatus db challengeId expired, Error CHALLENGE_EXPIRED)
  ∧ ∃ c', getChallenge (fst (postVerify db now didOrName challengeId signature))
            challengeId = Some c'
      ∧ Challenge.status c' = expired.
Proof.
  intros Hc Hcompleted Hlate. rewrite postVerify_unfold, Hc.
  replace (Challenge.expiresAt c <? now) with true by (symmetry; by apply Z.ltb_lt).
  split; [done|]. cbn [fst].
  rewrite lookup_updateChallengeStatus, decide_True by done. rewrite Hc.
  eexists. split; reflexivity.
Qed.

(** C5, as the code has it. Once a challenge has been completed, every
    later attempt on it, after any events and with any signature, fails:
    with CHALLENGE_USED while the window of the challenge is open, leaving
    the store as it is, and with CHALLENGE_EXPIRED once the window has
    closed. No later attempt is verified. *)
Theorem completed_challenge_is_spent (db : RegistryDB) (first : Z)
    (didOrName challengeId signature did : string) (verifiedAt : Z) :
  snd (postVerify db first didOrName challengeId signature) = Verified did verifiedAt →
  ∃ c, getChallenge db challengeId = Some c
    ∧ ∀ events now didOrName' signature',
        let db' := run (fst (postVerify db first didOrName challengeId signature))
                       events in
        snd (postVerify db' now didOrName' challengeId signature')
        = Error (if Challenge.expiresAt c <? now then CHALLENGE_EXPIRED
                 else CHALLENGE_USED)
        ∧ (now ≤ Challenge.expiresAt c →
           fst (postVerify db' now didOrName' challengeId signature') = db').
Proof.
  intros Hverified.
  assert (Hleft : ∃ c, getChallenge db challengeId = Some c
            ∧ left_pending (fst (postVerify db first didOrName challengeId signature))
                challengeId (Challenge.expiresAt c)).
  { revert Hverified. rewrite postVerify_unfold.
    destruct (getChallenge db challengeId) as [c|] eqn:Hc; [|done].
    destruct (_ <? first); [done|].
    destruct (negb (bool_decide _)); [done|].
    destruct (resolveSoul db didOrName); [|done].
    destruct (negb (String.eqb _ _)); [done|].
    destruct (verifySignature _ _ _) as [[|]|]; try done.
    intros _. exists c. split; [done|]. cbn [fst].
    apply (left_pending_same_challenges
             (updateChallengeStatus db challengeId completed)); [done|].
    unfold left_pending. rewrite lookup_updateChallengeStatus, decide_True by done.
    rewrite Hc. eexists. split; [reflexivity|]. done. }
  destruct Hleft as (c & Hc & Hleft). exists c. split; [done|].
  intros events now didOrName' signature'. cbv zeta.
  destruct (left_pending_run events _ _ _ Hleft) as (c' & Hc' & Hstatus & Hexp).
  rewrite postVerify_unfold, Hc', Hexp.
  destruct (Z.ltb_spec (Challenge.expiresAt c) now) as [Hlate|Hopen].
  - split; [done | lia].
  - by rewrite bool_decide_eq_false_2.
Qed.

End Challenges.

(** ** Canonical hashing *)

Lemma assoc_map {A B} (f : A → B) (P : string) (props : list (string * A)) :
  assoc P (map (fun '(k, x) => (k, f x)) props) = f <$> assoc P props.
Proof.
  induction props as [|[k x] props IH]; [reflexivity|].
  cbn [map assoc]. destruct (String.eqb P k); [reflexivity | apply IH].
Qed.

(** Under a property list, an object is serialized from the values it
    holds under the keys of the list, and from nothing else. *)
Lemma serialize_object_ext (K : list string) (props props' : list (string * json)) :
  (∀ P, In P K →
     SerializeJSONProperty (Some K) <$> assoc P props
     = SerializeJSONProperty (Some K) <$> assoc P props') →
  SerializeJSONProperty (Some K) (JObject props)
  = SerializeJSONProperty (Some K) (JObject props').
Proof.
  intros Hsame. cbn [SerializeJSONProperty]. do 3 f_equal.
  assert (Hkeys : ∀ keys, (∀ P, In P keys → In P K) →
    flat_map
      (fun P => match assoc P (map (fun '(k, x) =>
                                      (k, SerializeJSONProperty (Some K) x)) props) with
                | Some strP => [QuoteJSONString P ++ ":" ++ strP]
                | None => []
                end) keys
    = flat_map
        (fun P => match assoc P (map (fun '(k, x) =>
                                        (k, SerializeJSONProperty (Some K) x)) props') with
                  | Some strP => [QuoteJSONString P ++ ":" ++ strP]
                  | None => []
                  end) keys).
  { induction keys as [|P keys IH]; intros Hin; [reflexivity|].
    cbn [flat_map]. rewrite !assoc_map, Hsame by (apply Hin; by left).
    f_equal. apply IH. intros P' HP'. apply Hin. by right. }
  by apply Hkeys.
Qed.

Lemma serialize_object_none (K : list string) (props : list (string * json)) :
  (∀ P, In P K → assoc P props = None) →
  SerializeJSONProperty (Some K) (JObject props) = "{}".
Proof.
  intros Hnone. rewrite (serialize_object_ext K props []).
  - cbn [SerializeJSONProperty map assoc].
    assert (Hempty : ∀ keys : list string,
              flat_map (fun _ : string => @nil string) keys = []).
    { induction keys; [reflexivity | assumption]. }
    by rewrite Hempty.
  - intros P HP. by rewrite Hnone.
Qed.

Lemma property_list_In (replacer : list string) : ∀ seen P,
  In P (property_list seen replacer) → In P seen ∨ In P replacer.
Proof.
  induction replacer as [|k r IH]; intros seen P HP; cbn [property_list] in HP.
  - by left.
  - destruct (existsb (String.eqb k) seen).
    + destruct (IH _ _ HP); [by left | right; by right].
    + destruct (IH _ _ HP) as [Hseen|Hr]; [|right; by right].
      apply in_app_or in Hseen as [Hseen|[<-|[]]]; [by left | right; by left].
Qed.

Lemma sort_In (keys : list string) (P : string) : In P (sort keys) → In P keys.
Proof.
  unfold sort. rewrite <- !list_elem_of_In. by rewrite merge_sort_Permutation.
Qed.

Lemma SoulDocument_keys d props P :
  SoulDocument_json d = JObject props → In P (map fst props) → In P document_keys.
Proof.
  unfold SoulDocument_json. intros [= <-].
  destruct (SoulDocument.avatar d), (SoulDocument.description d),
    (SoulDocument.website d), (SoulDocument.contact d);
    cbn; intuition.
Qed.

Lemma birth_holds_no_document_key b props P :
  BirthCertificate_json b = JObject props → In P document_keys →
  assoc P props = None.
Proof.
  unfold BirthCertificate_json. intros [= <-] HP.
  destruct (BirthCertificate.baseModel b), (BirthCertificate.platform b),
    (BirthCertificate.charterHash b);
    cbn in HP; intuition; subst; reflexivity.
Qed.

Lemma birth_serialized_empty K b :
  (∀ P, In P K → In P document_keys) →
  SerializeJSONProperty (Some K) (BirthCertificate_json b) = "{}".
Proof.
  intros HK. destruct (BirthCertificate_json b) as [| | | | |props] eqn:Hb;
    try discriminate.
  apply serialize_object_none. intros P HP.
  eapply birth_holds_no_document_key; eauto.
Qed.

(** The server's canonical form of a registration document does not depend
    on its birth certificate. *)
Lemma hashSoulDocument_with_birth (d : SoulDocument.t) (b : BirthCertificate.t) :
  hashSoulDocument (SoulDocument_json (with_birth d b))
  = hashSoulDocument (SoulDocument_json d).
Proof.
  unfold hashSoulDocument.
  destruct (SoulDocument_json d) as [| | | | |props] eqn:Hd; try discriminate.
  destruct (SoulDocument_json (with_birth d b)) as [| | | | |props'] eqn:Hd';
    try discriminate.
  assert (Hkeys : map fst props' = map fst props).
  { revert Hd Hd'. unfold SoulDocument_json, with_birth.
    cbn [SoulDocument.did SoulDocument.name SoulDocument.publicKey SoulDocument.birth
         SoulDocument.avatar SoulDocument.description SoulDocument.website
         SoulDocument.contact].
    intros [= <-] [= <-]. reflexivity. }
  cbn [Object_keys]. rewrite Hkeys. unfold mbind, result_bind, mret, result_ret.
  enough (Hcanonical :
            JSON_stringify (JObject props') (Some (sort (map fst props)))
            = JSON_stringify (JObject props) (Some (sort (map fst props))))
    by (by rewrite Hcanonical).
  unfold JSON_stringify. cbn [fmap option_fmap option_map].
  set (K := property_list [] (sort (map fst props))).
  assert (HK : ∀ P, In P K → In P document_keys).
  { intros P HP. apply property_list_In in HP as [[]|HP].
    eapply SoulDocument_keys; [exact Hd|]. by apply sort_In. }
  apply serialize_object_ext. intros P HP.
  revert Hd Hd'. unfold SoulDocument_json, with_birth.
  cbn [SoulDocument.did SoulDocument.name SoulDocument.publicKey SoulDocument.birth
       SoulDocument.avatar SoulDocument.description SoulDocument.website
       SoulDocument.contact].
  intros [= <-] [= <-]. cbn [app assoc].
  destruct (String.eqb P "did"); [reflexivity|].
  destruct (String.eqb P "name"); [reflexivity|].
  destruct (String.eqb P "publicKey"); [reflexivity|].
  destruct (String.eqb P "birth"); [|reflexivity].
  cbn [fmap option_fmap option_map]. by rewrite !birth_serialized_empty.
Qed.

Section HashThenSign.
Context `{Ed25519}.

(** C2, where the code departs from it. A signature that verifies over the
    hash of a registration document still verifies, under the same key,
    over the hash of that document with any other birth certificate: the
    server's hash does not cover the nested fields. *)
Theorem signature_survives_birth_mutation (d : SoulDocument.t)
    (b : BirthCertificate.t) (signature publicKey docHash : string) :
  hashSoulDocument (SoulDocument_json d) = Ok docHash →
  verifySignature (MsgString docHash) signature publicKey = Ok true →
  ∃ docHash', hashSoulDocument (SoulDocument_json (with_birth d b))
              = Ok docHash'
    ∧ verifySignature (MsgString docHash') signature publicKey = Ok true.
Proof.
  intros Hhash Hsig. exists docHash. by rewrite hashSoulDocument_with_birth.
Qed.

(** At the register route: a request is answered the same way whatever
    birth certificate the document carries. *)
Lemma registration_blind_to_birth `{Host} (db : RegistryDB) (now : Z)
    (d : SoulDocument.t) (b : BirthCertificate.t) (signature : string) :
  snd (register db now (with_birth d b) signature)
  = snd (register db now d signature).
Proof.
  rewrite !register_unfold, hashSoulDocument_with_birth.
  unfold with_birth, violates_unique.
  cbn [SoulDocument.did SoulDocument.name SoulDocument.publicKey].
  destruct (negb _); [done|].
  destruct (getSoulByName db (SoulDocument.name d)); [done|].
  destruct (hashSoulDocument (SoulDocument_json d)); [|done].
  destruct (verifySignature _ _ _) as [[|]|]; try done.
  by destruct (existsb _ _).
Qed.

End HashThenSign.

(** ** The properties on the session of [Scenario] *)

Section Session.
Import Scenario.

#[local] Existing Instance Ed25519Ref.ed25519.
#[local] Existing Instance HostRef.host.

(** The reference verifier accepts the first test vector of RFC 8032, and
    the signatures of the session. *)
Example rfc8032_test_vector :
  verifySignature (MsgString EmptyString)
    "e5564300c360ac729086e2cc806e828a84877f1eb8e5d974d873e065224901555fb8821590a33bacc61e39701cf9b46bd25bf5f0595bbe24655141438e7a100b"
    publicKey = Ok true.
Proof. vm_compute. reflexivity. Qed.

(** Malformed and hostile inputs: a signature with a character outside
    both alphabets, a key of two bytes, a signature of the wrong length, and
    a well-formed signature under a stranger's key. *)
Example verifySignature_on_bad_input :
  verifySignature (MsgString "nonce") "0OIl" publicKey = Ok false
  ∧ verifySignature (MsgString "nonce") sig_nonce "abcd" = Ok false
  ∧ verifySignature (MsgString "nonce") "0xdeadbeef" publicKey = Ok false
  ∧ verifySignature (MsgString "000102030405060708090a0b0c0d0e0f101112131415161718191a1b1c1d1e1f")
      sig_nonce otherKey = Ok false.
Proof. vm_compute. repeat split; reflexivity. Qed.

(** C1, where the code departs from it. On the registration document of
    the README the server's digest and the client's differ: the server
    serializes the birth certificate as an empty object, the client with
    its three fields. *)
Theorem server_hash_differs_from_client :
  ∃ docHash, hashSoulDocument (SoulDocument_json nexus) = Ok docHash
    ∧ String.eqb docHash (Client.hashSoulDocument (SoulDocument_json nexus)) = false
    ∧ docHash = "15193198233989ca51fb7d7c71f37e3fbb3f6bb43c7dc4155420faefffe4268cf4055693dfae6cb0ed94e9e8d2f64daeb2c3bbd99f755d3d54227fa23d8ee521"
    ∧ Client.hashSoulDocument (SoulDocument_json nexus)
      = "b76890b88f36056174c00e8c43a32373ae813e855f55a7e05ba699afb3cc774471ff264a7094c61fe5d0680e71321de7c25b2c3286d9bb1f7b061f2721866b9f".
Proof. eexists. vm_compute. repeat split; reflexivity. Qed.

(** On a document without nested objects the two digests are the same. *)
Example hashes_agree_on_flat_document :
  let doc := JObject [("name", JString "nexus");
                      ("did", JString "did:soul:nexus");
                      ("tags", JArray [JString "b"; JString "a"; JNull]);
                      ("active", JBool true)] in
  hashSoulDocument doc = Ok (Client.hashSoulDocument doc).
Proof. vm_compute. reflexivity. Qed.

(** The signature made for [nexus] verifies for the same document with a
    forged birth certificate. *)
Lemma signature_survives_birth_mutation_witness :
  SoulDocument_json (with_birth nexus forged_birth) ≠ SoulDocument_json nexus
  ∧ ∃ docHash', hashSoulDocument (SoulDocument_json (with_birth nexus forged_birth))
                = Ok docHash'
      ∧ verifySignature (MsgString docHash') sig_register publicKey = Ok true.
Proof.
  split; [discriminate|].
  apply (signature_survives_birth_mutation nexus forged_birth sig_register publicKey
           "15193198233989ca51fb7d7c71f37e3fbb3f6bb43c7dc4155420faefffe4268cf4055693dfae6cb0ed94e9e8d2f64daeb2c3bbd99f755d3d54227fa23d8ee521");
    vm_compute; reflexivity.
Defined.

(** The registration of [nexus] passes the three gates and adds its row.
    Under a stranger's key the same request stops at the signature gate;
    once [nexus] is in the table, the well-signed registration of [Nexus]
    stops at the name gate; and a document that declares another DID stops
    at the first gate. *)
Lemma register_gates_in_order_witness :
  (snd (register Db.empty t_register nexus sig_register)
   = Registered "did:soul:nexus" t_register
   ∧ ∃ row, souls (fst (register Db.empty t_register nexus sig_register)) = [row]
       ∧ SoulRecord.status row = active
       ∧ SoulRecord.verificationCount row = 0
       ∧ SoulRecord.registeredAt row = t_register)
  ∧ register Db.empty t_register
      {| SoulDocument.did := "did:soul:nexus";
         SoulDocument.name := "nexus";
         SoulDocument.publicKey := otherKey;
         SoulDocument.birth := birth;
         SoulDocument.avatar := None;
         SoulDocument.description := Some "A continuity-focused AI partner";
         SoulDocument.website := None;
         SoulDocument.contact := None |} sig_register
    = (Db.empty, Error INVALID_SIGNATURE)
  ∧ register db_registered t_update capitalised sig_register_capitalised
    = (db_registered, Error NAME_TAKEN)
  ∧ register db_registered t_update
      {| SoulDocument.did := "did:soul:other";
         SoulDocument.name := "nexus";
         SoulDocument.publicKey := publicKey;
         SoulDocument.birth := birth;
         SoulDocument.avatar := None;
         SoulDocument.description := Some "A continuity-focused AI partner";
         SoulDocument.website := None;
         SoulDocument.contact := None |} sig_register
    = (db_registered, Error DID_MISMATCH).
Proof.
  assert (Hempty : ∀ name, ¬ Table.holds_name Db.empty name)
    by (by intros name (r & [] & _)).
  split; [|split; [|split]].
  - destruct (register_gates_in_order Db.empty t_register nexus sig_register)
      as (_ & _ & _ & _ & Hsuccess & _).
    cbv zeta in Hsuccess. rewrite Hsuccess.
    + split; [reflexivity|]. eexists. by split_and!.
    + reflexivity.
    + apply Hempty.
    + eexists. split; [vm_compute; reflexivity|]. vm_compute. reflexivity.
    + by intros (r & [] & _).
  - destruct (register_gates_in_order Db.empty t_register
                {| SoulDocument.did := "did:soul:nexus";
                   SoulDocument.name := "nexus";
                   SoulDocument.publicKey := otherKey;
                   SoulDocument.birth := birth;
                   SoulDocument.avatar := None;
                   SoulDocument.description := Some "A continuity-focused AI partner";
                   SoulDocument.website := None;
                   SoulDocument.contact := None |} sig_register)
      as (_ & _ & _ & Hsignature & _).
    apply Hsignature; [reflexivity | apply Hempty |].
    intros docHash Hhash. vm_compute in Hhash. injection Hhash as <-.
    vm_compute. reflexivity.
  - destruct (register_gates_in_order db_registered t_update capitalised
                sig_register_capitalised) as (_ & _ & Hname & _).
    apply Hname; [reflexivity|].
    eexists. split; [left; reflexivity | reflexivity].
  - destruct (register_gates_in_order db_registered t_update
                {| SoulDocument.did := "did:soul:other";
                   SoulDocument.name := "nexus";
                   SoulDocument.publicKey := publicKey;
                   SoulDocument.birth := birth;
                   SoulDocument.avatar := None;
                   SoulDocument.description := Some "A continuity-focused AI partner";
                   SoulDocument.website := None;
                   SoulDocument.contact := None |} sig_register)
      as (Hdid & _).
    apply Hdid. discriminate.
Defined.

(** A document named [Nexus] that declares [did:soul:nexus] is registered,
    although its [did] is not [did:soul:] followed by its name. *)
Lemma capitalised_name_is_registered :
  SoulDocument.did capitalised ≠ "did:soul:" ++ SoulDocument.name capitalised
  ∧ snd (register Db.empty t_register capitalised sig_register_capitalised)
    = Registered "did:soul:nexus" t_register.
Proof. split; [discriminate | vm_compute; reflexivity]. Qed.

Lemma did_checked_in_lower_case_witness :
  register Db.empty t_register
    {| SoulDocument.did := "did:soul:other";
       SoulDocument.name := "nexus";
       SoulDocument.publicKey := publicKey;
       SoulDocument.birth := birth;
       SoulDocument.avatar := None;
       SoulDocument.description := None;
       SoulDocument.website := None;
       SoulDocument.contact := None |} sig_register
  = (Db.empty, Error DID_MISMATCH).
Proof.
  apply (did_checked_in_lower_case Db.empty t_register _ sig_register).
  vm_compute. discriminate.
Defined.

(** After its completion at 00:00:20 the challenge is completed; the
    attempt of 00:06:40 turns it into an expired one. *)
Lemma late_verify_overwrites_completed_witness :
  (Challenge.status <$> getChallenge db_verified challengeId) = Some completed
  ∧ (Challenge.status
       <$> getChallenge (fst (postVerify db_verified t_late "nexus" challengeId sig_nonce))
             challengeId) = Some expired.
Proof.
  split; [vm_compute; reflexivity|].
  destruct (late_verify_overwrites_completed db_verified t_late "nexus" challengeId
              sig_nonce
              {| Challenge.challengeId := challengeId;
                 Challenge.did := "did:soul:nexus";
                 Challenge.nonce :=
                   "000102030405060708090a0b0c0d0e0f101112131415161718191a1b1c1d1e1f";
                 Challenge.issuedAt := t_challenge;
                 Challenge.expiresAt := t_challenge + fiveMinutes;
                 Challenge.status := completed |})
    as (_ & c' & Hc' & Hexpired);
    [vm_compute; reflexivity | reflexivity | vm_compute; reflexivity |].
  by rewrite Hc', <- Hexpired.
Defined.

(** The second attempt on the completed challenge, made after the window
    has closed, is answered CHALLENGE_EXPIRED and not CHALLENGE_USED. *)
Lemma second_attempt_after_expiry_is_expired :
  let first := postVerify db_challenged t_verify "nexus" challengeId sig_nonce in
  snd first = Verified "did:soul:nexus" t_verify
  ∧ snd (postVerify (fst first) t_late "nexus" challengeId sig_nonce)
    = Error CHALLENGE_EXPIRED.
Proof. vm_compute. split; reflexivity. Qed.

(** A retry ten seconds after the completion, a sweep having run in
    between, is answered CHALLENGE_USED. *)
Lemma completed_challenge_is_spent_witness :
  let first := postVerify db_challenged t_verify "nexus" challengeId sig_nonce in
  snd first = Verified "did:soul:nexus" t_verify
  ∧ snd (postVerify (run (fst first) [(t_retry, OnSweep)]) t_retry "nexus"
           challengeId sig_nonce)
    = Error CHALLENGE_USED.
Proof.
  cbv zeta.
  assert (Hfirst : snd (postVerify db_challenged t_verify "nexus" challengeId sig_nonce)
                   = Verified "did:soul:nexus" t_verify)
    by (vm_compute; reflexivity).
  split; [exact Hfirst|].
  destruct (completed_challenge_is_spent db_challenged t_verify "nexus" challengeId
              sig_nonce "did:soul:nexus" t_verify Hfirst) as (c & Hc & Hspent).
  destruct (Hspent [(t_retry, OnSweep)] t_retry "nexus" sig_nonce) as [-> _].
  assert (Hwindow : Challenge.expiresAt c = t_challenge + fiveMinutes).
  { assert (Hlookup : getChallenge db_challenged challengeId
                      = Some {| Challenge.challengeId := challengeId;
                                Challenge.did := "did:soul:nexus";
                                Challenge.nonce :=
                                  "000102030405060708090a0b0c0d0e0f101112131415161718191a1b1c1d1e1f";
                                Challenge.issuedAt := t_challenge;
                                Challenge.expiresAt := t_challenge + fiveMinutes;
                                Challenge.status := pending |})
      by (vm_compute; reflexivity).
    rewrite Hc in Hlookup. by injection Hlookup as ->. }
  rewrite Hwindow. reflexivity.
Defined.

(** The completion of the challenge takes the verification count of
    [nexus] from 0 to 1 and leaves its version at 1. *)
Lemma verification_leaves_version_witness :
  let db' := fst (postVerify db_challenged t_verify "nexus" challengeId sig_nonce) in
  map SoulRecord._version (souls db_challenged) = [1]
  ∧ map SoulRecord.verificationCount (souls db_challenged) = [0]
  ∧ map SoulRecord._version (souls db') = [1]
  ∧ map SoulRecord.verificationCount (souls db') = [1].
Proof.
  cbv zeta.
  destruct (verification_leaves_version db_challenged t_verify "nexus" challengeId
              sig_nonce "did:soul:nexus" t_verify) as [Hversion _];
    [vm_compute; reflexivity|].
  rewrite Hversion. vm_compute. repeat split; reflexivity.
Defined.

(** A suspension whose body carries a timestamp six years old, with a
    valid signature, is carried out; and a contact update with that
    timestamp, addressed to a name that is not registered, is answered
    NOT_FOUND. *)
Lemma stale_status_change_is_accepted :
  assoc "timestamp" [("reason", JString "maintenance");
                     ("signature", JString sig_suspend);
                     ("timestamp", JString stale)] = Some (JString stale)
  ∧ Date_lt (Date_parse stale) (Some (t_update - fiveMinutes)) = true
  ∧ snd (updateStatus db_verified t_update "nexus" suspended suspend_body)
    = StatusChanged "did:soul:nexus" suspended t_update
  ∧ map SoulRecord.status (souls db_verified) = [active]
  ∧ map SoulRecord.status
      (souls (fst (updateStatus db_verified t_update "nexus" suspended suspend_body)))
    = [suspended]
  ∧ putContact db_verified t_update "ghost" contact sig_contact_stale stale
    = (db_verified, Error NOT_FOUND).
Proof. vm_compute. repeat split; reflexivity. Qed.

Lemma stale_update_rejected_witness :
  verifySignature (MsgString ("contact-update:did:soul:nexus:" ++ stale))
    sig_contact_stale publicKey = Ok true
  ∧ putContact db_verified t_update "nexus" contact sig_contact_stale stale
    = (db_verified, Error TIMESTAMP_EXPIRED)
  ∧ verifySignature (MsgString ("capabilities-update:did:soul:nexus:" ++ stale))
      sig_capabilities_stale publicKey = Ok true
  ∧ putCapabilities db_verified t_update "did:soul:nexus" ["chat"] (Some "low")
      sig_capabilities_stale stale
    = (db_verified, Error TIMESTAMP_EXPIRED).
Proof.
  assert (Hname : ∃ soul, resolveSoul db_verified "nexus" = Some soul)
    by (vm_compute; eauto).
  assert (Hdid : ∃ soul, resolveSoul db_verified "did:soul:nexus" = Some soul)
    by (vm_compute; eauto).
  destruct Hname as [soul Hname], Hdid as [soul' Hdid].
  destruct (stale_update_rejected db_verified t_update "nexus" soul
              sig_contact_stale stale 1577836800000 Hname)
    as (Hcontact & _ & _); [vm_compute; reflexivity | vm_compute; reflexivity |].
  destruct (stale_update_rejected db_verified t_update "did:soul:nexus" soul'
              sig_capabilities_stale stale 1577836800000 Hdid)
    as (_ & Hcapabilities & _); [vm_compute; reflexivity | vm_compute; reflexivity |].
  split_and!.
  - vm_compute. reflexivity.
  - exact (Hcontact contact).
  - vm_compute. reflexivity.
  - exact (Hcapabilities ["chat"] (Some "low")).
Defined.

(** An update stamped 2099, seventy-two years ahead of the server's clock,
    passes the freshness gate and, its signature being valid, is carried
    out. *)
Lemma freshness_bounds_the_past_only_witness :
  Date_parse future = Some 4070908800000
  ∧ t_update < 4070908800000
  ∧ snd (putContact db_verified t_update "nexus" contact sig_contact_future future)
    = ContactUpdated "did:soul:nexus" contact t_update
  ∧ snd (putCapabilities db_verified t_update "nexus" ["chat"] (Some "low")
           sig_capabilities_future future)
    = CapabilitiesUpdated "did:soul:nexus" ["chat"] (Some "low") t_update.
Proof.
  assert (Hname : ∃ soul, resolveSoul db_verified "nexus" = Some soul
                    ∧ SoulRecord.did soul = "did:soul:nexus"
                    ∧ SoulRecord.publicKey soul = publicKey)
    by (vm_compute; eauto).
  destruct Hname as (soul & Hname & Hdid & Hkey).
  destruct (freshness_bounds_the_past_only db_verified t_update "nexus" soul
              sig_contact_future future 4070908800000 Hname)
    as ([Hcontact _] & _); [vm_compute; reflexivity | vm_compute; reflexivity |].
  destruct (freshness_bounds_the_past_only db_verified t_update "nexus" soul
              sig_capabilities_future future 4070908800000 Hname)
    as ([_ Hcapabilities] & _); [vm_compute; reflexivity | vm_compute; reflexivity |].
  split_and!; [vm_compute; reflexivity | vm_compute; reflexivity | |].
  - assert (Hsig : verifySignature
                     (MsgString ("contact-update:" ++ "did:soul:nexus" ++ ":" ++ future))
                     sig_contact_future publicKey = Ok true)
      by (vm_compute; reflexivity).
    rewrite Hcontact. unfold contact_signature_stage.
    rewrite Hdid, Hkey, Hsig. reflexivity.
  - assert (Hsig : verifySignature
                     (MsgString ("capabilities-update:" ++ "did:soul:nexus" ++ ":"
                                 ++ future))
                     sig_capabilities_future publicKey = Ok true)
      by (vm_compute; reflexivity).
    rewrite Hcapabilities. unfold capabilities_signature_stage.
    rewrite Hdid, Hkey, Hsig. reflexivity.
Defined.

End Session.

(** * Further properties of the code *)

Import Codec.

(** ** Decoding keys and signatures *)

Lemma Z_of_byte_range b : 0 ≤ Z_of_byte b < 256.
Proof.
  unfold Z_of_byte. pose proof (Byte.to_N_bounded b). lia.
Qed.

Lemma Z_of_byte_of_Z z : 0 ≤ z < 256 → Z_of_byte (byte_of_Z z) = z.
Proof.
  intros Hz. unfold Z_of_byte, byte_of_Z. rewrite Z.mod_small by lia.
  destruct (Byte.of_N (Z.to_N z)) as [b|] eqn:Hb.
  - apply Byte.to_of_N in Hb. lia.
  - apply Byte.of_N_None_iff in Hb. lia.
Qed.

Lemma byte_of_Z_of_byte b : byte_of_Z (Z_of_byte b) = b.
Proof.
  unfold byte_of_Z. rewrite Z.mod_small by apply Z_of_byte_range.
  unfold Z_of_byte. rewrite N2Z.id. by rewrite Byte.of_to_N.
Qed.

Lemma land_255 c : 0 ≤ c → Z.land c 255 = c mod 256.
Proof. intros Hc. change 255 with (Z.ones 8). by rewrite Z.land_ones. Qed.

Lemma shiftr_8 c : Z.shiftr c 8 = c / 256.
Proof. by rewrite Z.shiftr_div_pow2. Qed.

Lemma le_value_range bytes :
  byte_values bytes → 0 ≤ le_value bytes < 256 ^ Z.of_nat (length bytes).
Proof.
  induction 1 as [|b bytes Hb _ IH]; [simpl; lia|].
  cbn [le_value fold_right length]. fold (le_value bytes).
  rewrite Nat2Z.inj_succ, Z.pow_succ_r by lia. nia.
Qed.

Lemma le_value_app bytes bytes' :
  le_value (bytes ++ bytes')%list
  = le_value bytes + 256 ^ Z.of_nat (length bytes) * le_value bytes'.
Proof.
  induction bytes as [|b bytes IH]; [simpl; lia|].
  cbn [app le_value fold_right length]. fold (le_value (bytes ++ bytes')%list).
  fold (le_value bytes). rewrite IH, Nat2Z.inj_succ, Z.pow_succ_r by lia. lia.
Qed.

(** One turn of the inner loop of [base58Decode]. *)
Lemma mul58_spec bytes : ∀ carry,
  0 ≤ carry → byte_values bytes →
  byte_values (fst (mul58 bytes carry))
  ∧ length (fst (mul58 bytes carry)) = length bytes
  ∧ 0 ≤ snd (mul58 bytes carry)
  ∧ le_value (fst (mul58 bytes carry))
    + 256 ^ Z.of_nat (length bytes) * snd (mul58 bytes carry)
    = 58 * le_value bytes + carry.
Proof.
  induction bytes as [|b bytes IH]; intros carry Hcarry Hbytes.
  - cbn. split_and!; [constructor | done | done | lia].
  - inversion_clear Hbytes as [|? ? Hb Hrest]. cbn [mul58].
    assert (Hc : 0 ≤ carry + b * 58) by lia.
    destruct (IH (Z.shiftr (carry + b * 58) 8)) as (Hvals & Hlen & Hpos & Hval);
      [rewrite shiftr_8; by apply Z.div_pos | done |].
    destruct (mul58 bytes (Z.shiftr (carry + b * 58) 8)) as [r' c'] eqn:Hmul.
    cbn [fst snd] in *. split_and!.
    + constructor; [|done]. rewrite land_255 by done.
      by apply Z.mod_pos_bound.
    + cbn [length]. by rewrite Hlen.
    + done.
    + cbn [le_value fold_right length]. fold (le_value r') (le_value bytes).
      rewrite land_255, Nat2Z.inj_succ, Z.pow_succ_r by lia.
      rewrite shiftr_8 in Hval.
      pose proof (Z.div_mod (carry + b * 58) 256). nia.
Qed.

Lemma push_carry_spec fuel : ∀ carry,
  0 ≤ carry ≤ Z.of_nat fuel →
  byte_values (push_carry fuel carry)
  ∧ le_value (push_carry fuel carry) = carry
  ∧ (0 < carry → ∃ low top, push_carry fuel carry = (low ++ [top])%list ∧ top ≠ 0).
Proof.
  induction fuel as [|fuel IH]; intros carry Hcarry.
  - cbn. split_and!; [constructor | lia | lia].
  - cbn [push_carry]. destruct (Z.ltb_spec 0 carry) as [Hpos|Hzero].
    + assert (Hnext : 0 ≤ Z.shiftr carry 8 ≤ Z.of_nat fuel).
      { rewrite shiftr_8. split; [apply Z.div_pos; lia|].
        assert (carry / 256 < carry) by (apply Z.div_lt; lia). lia. }
      destruct (IH _ Hnext) as (Hvals & Hval & Htop). split_and!.
      * constructor; [|done]. rewrite land_255 by lia. by apply Z.mod_pos_bound.
      * cbn [le_value fold_right]. fold (le_value (push_carry fuel (Z.shiftr carry 8))).
        rewrite Hval, land_255, shiftr_8 by lia.
        pose proof (Z.div_mod carry 256). lia.
      * intros _. destruct (Z.ltb_spec 0 (Z.shiftr carry 8)) as [Hmore|Hlast].
        -- destruct (Htop Hmore) as (low & top & -> & Hne).
           exists (Z.land carry 255 :: low), top. done.
        -- assert (Z.shiftr carry 8 = 0) as Hz by lia.
           exists [], (Z.land carry 255). split.
           ++ rewrite Hz. by destruct fuel.
           ++ rewrite land_255 by lia. rewrite shiftr_8 in Hz.
              pose proof (Z.div_mod carry 256). lia.
    + split_and!; [constructor | cbn; lia | lia].
Qed.

Lemma trimmed_value bytes :
  byte_values bytes → trimmed bytes → bytes ≠ [] →
  256 ^ Z.of_nat (length bytes - 1) ≤ le_value bytes.
Proof.
  intros Hvals [->|(low & top & -> & Htop)] Hne; [done|].
  apply Forall_app in Hvals as [Hlow Htopv]. inversion_clear Htopv as [|? ? Ht _].
  rewrite le_value_app, length_app. cbn [length le_value fold_right].
  replace (length low + 1 - 1)%nat with (length low) by lia.
  pose proof (le_value_range low Hlow). nia.
Qed.

Lemma value_trimmed bytes :
  byte_values bytes → bytes ≠ [] →
  256 ^ Z.of_nat (length bytes - 1) ≤ le_value bytes → trimmed bytes.
Proof.
  intros Hvals Hne Hbig. right.
  destruct (exists_last Hne) as (low & top & ->). exists low, top. split; [done|].
  intros ->. apply Forall_app in Hvals as [Hlow _].
  rewrite le_value_app, length_app in Hbig. cbn [length le_value fold_right] in Hbig.
  replace (length low + 1 - 1)%nat with (length low) in Hbig by lia.
  pose proof (le_value_range low Hlow). lia.
Qed.

Lemma indexOf_from_range s c : ∀ i, 0 ≤ i →
  indexOf_from i s c = -1 ∨ i ≤ indexOf_from i s c < i + Z.of_nat (String.length s).
Proof.
  induction s as [|d r IH]; intros i Hi; [by left|].
  cbn [indexOf_from String.length]. destruct (Ascii.eqb d c); [right; lia|].
  destruct (IH (i + 1)); lia.
Qed.

Lemma base58_index_range c :
  indexOf BASE58_ALPHABET c ≠ -1 → 0 ≤ indexOf BASE58_ALPHABET c < 58.
Proof.
  intros Hc. destruct (indexOf_from_range BASE58_ALPHABET c 0) as [|Hr]; [lia|done|].
  change (Z.of_nat (String.length BASE58_ALPHABET)) with 58 in Hr.
  unfold indexOf. lia.
Qed.

(** The first loop of [base58Decode] on a text of the alphabet: no error,
    and the list keeps standing for the number read so far, without a
    leading zero. *)
Lemma base58_digits_spec str : ∀ bytes,
  base58_text str → byte_values bytes → trimmed bytes →
  ∃ bytes', base58_digits str bytes = Ok bytes'
    ∧ byte_values bytes' ∧ trimmed bytes'
    ∧ le_value bytes'
      = fold_left (fun acc c => 58 * acc + indexOf BASE58_ALPHABET c)
                  (list_ascii_of_string str) (le_value bytes).
Proof.
  induction str as [|c r IH]; intros bytes Htext Hvals Hcanon.
  - exists bytes. done.
  - cbn [base58_digits list_ascii_of_string fold_left].
    assert (Hc : 0 ≤ indexOf BASE58_ALPHABET c < 58).
    { apply base58_index_range, Htext. by left. }
    destruct (Z.eqb_spec (indexOf BASE58_ALPHABET c) (-1)) as [|_]; [lia|].
    destruct (mul58_spec bytes (indexOf BASE58_ALPHABET c)) as (Hv & Hlen & Hpos & Hval);
      [lia | done |].
    destruct (mul58 bytes (indexOf BASE58_ALPHABET c)) as [bytes1 carry] eqn:Hmul.
    cbn [fst snd] in *.
    destruct (push_carry_spec (Z.to_nat carry) carry) as (Hpv & Hpval & Hptop); [lia|].
    assert (Hvals' : byte_values (bytes1 ++ push_carry (Z.to_nat carry) carry)%list).
    { by apply Forall_app. }
    assert (Hvalue : le_value (bytes1 ++ push_carry (Z.to_nat carry) carry)%list
                     = 58 * le_value bytes + indexOf BASE58_ALPHABET c).
    { rewrite le_value_app, Hpval, Hlen. lia. }
    assert (Hcanon' : trimmed (bytes1 ++ push_carry (Z.to_nat carry) carry)%list).
    { destruct (Z.ltb_spec 0 carry) as [Hcarry|Hcarry].
      - destruct (Hptop Hcarry) as (low & top & -> & Hne). right.
        exists (bytes1 ++ low)%list, top. by rewrite app_assoc.
      - assert (carry = 0) as -> by lia. cbn [Z.to_nat push_carry].
        rewrite app_nil_r in *. destruct bytes as [|b0 bytes0].
        + destruct bytes1; [by left | done].
        + apply value_trimmed; [done | by destruct bytes1 |].
          rewrite Hvalue, Hlen.
          assert (Hne : b0 :: bytes0 ≠ []) by done.
          pose proof (trimmed_value (b0 :: bytes0) Hvals Hcanon Hne). lia. }
    destruct (IH _ (fun c' Hin => Htext c' (or_intror Hin)) Hvals' Hcanon')
      as (bytes' & -> & ? & ? & Hfinal).
    exists bytes'. split_and!; try done. by rewrite Hfinal, Hvalue.
Qed.

Lemma leading_zeros_repeat str : leading_zeros str = repeat 0 (leading_ones str).
Proof.
  induction str as [|c r IH]; [done|]. cbn [leading_zeros leading_ones].
  destruct (Ascii.eqb c "1"); [|done]. cbn [repeat]. by rewrite IH.
Qed.

Lemma be_value_app bs bs' :
  be_value (bs ++ bs')%list
  = fold_left (fun acc b => 256 * acc + Z_of_byte b) bs' (be_value bs).
Proof. unfold be_value. by rewrite fold_left_app. Qed.

Lemma be_value_rev bytes :
  byte_values bytes → be_value (map byte_of_Z (rev bytes)) = le_value bytes.
Proof.
  induction 1 as [|b bytes Hb _ IH]; [done|].
  cbn [rev]. rewrite map_app, be_value_app, IH. cbn.
  rewrite Z_of_byte_of_Z by done. fold (le_value bytes). lia.
Qed.

(** X1. [base58Decode] on a text of the alphabet: one zero byte for each
    leading [1], then the number the text stands for in base 58, written
    big-endian without a leading zero. *)
Theorem base58Decode_value (str : string) :
  base58_text str →
  ∃ digits, base58Decode str
            = Ok (repeat Byte.x00 (leading_ones str) ++ digits)%list
    ∧ be_value digits = base58_value str
    ∧ head digits ≠ Some Byte.x00.
Proof.
  intros Htext. unfold base58Decode.
  destruct (base58_digits_spec str [] Htext) as (bytes & -> & Hvals & Hcanon & Hvalue);
    [constructor | by left |].
  exists (map byte_of_Z (rev bytes)). split_and!.
  - cbn. do 2 f_equal. rewrite rev_app_distr, map_app, leading_zeros_repeat. f_equal.
    rewrite rev_repeat. clear. induction (leading_ones str); [done|]. cbn. by f_equal.
  - by rewrite be_value_rev.
  - destruct Hcanon as [->|(low & top & -> & Htop)]; [done|].
    rewrite rev_app_distr. cbn. intros [= Hzero].
    apply Forall_app in Hvals as [_ Htopv]. inversion_clear Htopv as [|? ? Ht _].
    apply (f_equal Z_of_byte) in Hzero. rewrite Z_of_byte_of_Z in Hzero by done.
    by apply Htop.
Qed.

(** A base-58 text and its bytes. *)
Lemma base58Decode_value_witness :
  base58Decode "11StV1DL6CwTryKyV"
  = Ok (map byte_of_Z [0; 0; 104; 101; 108; 108; 111; 32; 119; 111; 114; 108; 100]).
Proof.
  destruct (base58Decode_value "11StV1DL6CwTryKyV") as (digits & Hdecode & _ & _).
  - intros c Hin. cbn in Hin.
    repeat (destruct Hin as [<-|Hin]; [vm_compute; discriminate|]). destruct Hin.
  - rewrite Hdecode. vm_compute in Hdecode. by injection Hdecode as <-.
Defined.

Lemma hex_digit_value n : 0 ≤ n < 16 → hex_value (hex_digit n) = Some n.
Proof.
  intros Hn.
  assert (Hcases : n = 0 ∨ n = 1 ∨ n = 2 ∨ n = 3 ∨ n = 4 ∨ n = 5 ∨ n = 6 ∨ n = 7
                   ∨ n = 8 ∨ n = 9 ∨ n = 10 ∨ n = 11 ∨ n = 12 ∨ n = 13 ∨ n = 14
                   ∨ n = 15) by lia.
  repeat (destruct Hcases as [->|Hcases]; [reflexivity|]). by subst.
Qed.

Lemma hex_pair b :
  hex_value (hex_digit (Z.shiftr (Z_of_byte b) 4)) = Some (Z.shiftr (Z_of_byte b) 4)
  ∧ hex_value (hex_digit (Z.land (Z_of_byte b) 15)) = Some (Z.land (Z_of_byte b) 15)
  ∧ byte_of_Z (16 * Z.shiftr (Z_of_byte b) 4 + Z.land (Z_of_byte b) 15) = b.
Proof. destruct b; repeat split; reflexivity. Qed.

(** [Buffer.from(text, 'hex')] reads back what [toString('hex')] wrote. *)
Lemma Buffer_from_hex_toString bs : Buffer_from_hex (Buffer_toString_hex bs) = bs.
Proof.
  induction bs as [|b bs IH]; [done|].
  cbn [Buffer_toString_hex Buffer_from_hex].
  destruct (hex_pair b) as (-> & -> & ->). by rewrite IH.
Qed.

Lemma all_hex_toString bs : all_hex (Buffer_toString_hex bs) = true.
Proof.
  induction bs as [|b bs IH]; [done|].
  cbn [Buffer_toString_hex all_hex].
  destruct (hex_pair b) as (-> & -> & _). by rewrite IH.
Qed.

Lemma toString_hex_head b bs :
  ∃ c d r, Buffer_toString_hex (b :: bs) = String c (String d r)
    ∧ is_Some (hex_value c) ∧ is_Some (hex_value d).
Proof.
  cbn [Buffer_toString_hex]. destruct (hex_pair b) as (H1 & H2 & _).
  eexists _, _, _. split; [reflexivity|]. rewrite H1, H2. eauto.
Qed.

Lemma hex_value_not_prefix c :
  is_Some (hex_value c) → Ascii.eqb "z" c = false ∧ Ascii.eqb "x" c = false.
Proof.
  intros [n Hn]. split.
  - destruct (Ascii.eqb_spec "z" c) as [<-|]; [discriminate|done].
  - destruct (Ascii.eqb_spec "x" c) as [<-|]; [discriminate|done].
Qed.

Lemma decodeBase58OrHex_stripped input :
  decodeBase58OrHex input
  = if is_hex_string (strip_prefixes input)
    then Ok (Buffer_from_hex (strip_prefixes input))
    else base58Decode (strip_prefixes input).
Proof. reflexivity. Qed.

Lemma strip_0x text : strip_prefixes ("0x" ++ text) = text.
Proof. by destruct text. Qed.

Lemma strip_z0x text : strip_prefixes ("z0x" ++ text) = text.
Proof. by destruct text. Qed.

Lemma strip_z text :
  startsWith text "0x" = false → strip_prefixes ("z" ++ text) = text.
Proof.
  intros Hx. unfold strip_prefixes.
  replace (startsWith ("z" ++ text) "z") with true by (by destruct text).
  change (slice 1 ("z" ++ text)) with text. by rewrite Hx.
Qed.

(** A hexadecimal text written by [toString('hex')] passes the test for
    hexadecimal texts, unless it is empty, and starts with neither prefix. *)
Lemma hex_text_decodes (bs : list Byte.byte) :
  (if is_hex_string (Buffer_toString_hex bs)
   then Ok (Buffer_from_hex (Buffer_toString_hex bs))
   else base58Decode (Buffer_toString_hex bs)) = Ok bs.
Proof.
  destruct bs as [|b bs]; [reflexivity|].
  unfold is_hex_string.
  destruct (toString_hex_head b bs) as (c & d & r & Heq & _).
  rewrite Heq at 1. rewrite all_hex_toString. by rewrite Buffer_from_hex_toString.
Qed.

Lemma hex_text_no_prefix (bs : list Byte.byte) :
  startsWith (Buffer_toString_hex bs) "z" = false
  ∧ startsWith (Buffer_toString_hex bs) "0x" = false.
Proof.
  destruct bs as [|b bs]; [done|].
  destruct (toString_hex_head b bs) as (c & d & r & -> & Hc & Hd).
  unfold startsWith. cbn [String.prefix].
  destruct (hex_value_not_prefix _ Hc) as [Hz _].
  destruct (hex_value_not_prefix _ Hd) as [_ Hx].
  destruct (ascii_dec "z" c) as [<-|]; [by rewrite Ascii.eqb_refl in Hz|].
  split; [done|].
  destruct (ascii_dec "0" c); [|done].
  destruct (ascii_dec "x" d) as [<-|]; [by rewrite Ascii.eqb_refl in Hx | done].
Qed.

Lemma strip_hex_text (bs : list Byte.byte) :
  strip_prefixes (Buffer_toString_hex bs) = Buffer_toString_hex bs.
Proof.
  destruct (hex_text_no_prefix bs) as [Hz Hx]. unfold strip_prefixes.
  by rewrite Hz, Hx.
Qed.

Lemma decode_hex_text (bs : list Byte.byte) :
  decodeBase58OrHex (Buffer_toString_hex bs) = Ok bs.
Proof.
  rewrite decodeBase58OrHex_stripped, strip_hex_text. apply hex_text_decodes.
Qed.

(** X2. The decoder reads back every byte string from its hexadecimal text,
    bare or behind the prefixes it strips. *)
Theorem decodeBase58OrHex_of_hex (bs : list Byte.byte) :
  decodeBase58OrHex (Buffer_toString_hex bs) = Ok bs
  ∧ decodeBase58OrHex ("0x" ++ Buffer_toString_hex bs) = Ok bs
  ∧ decodeBase58OrHex ("z" ++ Buffer_toString_hex bs) = Ok bs
  ∧ decodeBase58OrHex ("z0x" ++ Buffer_toString_hex bs) = Ok bs.
Proof.
  pose proof (hex_text_decodes bs) as Hdecodes.
  destruct (hex_text_no_prefix bs) as [_ Hx].
  rewrite !decodeBase58OrHex_stripped.
  rewrite strip_hex_text, strip_0x, strip_z0x, (strip_z _ Hx).
  by rewrite Hdecodes.
Qed.

Section Undecodable.
Context `{Ed25519}.

Lemma base58Decode_throws str :
  (∃ m, base58Decode str = Throw m)
  ↔ ∃ c, In c (list_ascii_of_string str) ∧ indexOf BASE58_ALPHABET c = -1.
Proof.
  rewrite <- (base58_digits_throws str []). unfold base58Decode, mbind, result_bind.
  destruct (base58_digits str []); split; intros [m Hm]; try done; eauto.
Qed.

(** X3. The decoder throws on one kind of input only: a text that, once
    a leading [z] and then a leading [0x] are taken off, is not made of
    hexadecimal digits alone and holds a character outside the base-58
    alphabet. The verifier answers such a signature or key with [false]. *)
Theorem decoder_throws_exactly (input : string) :
  ((∃ m, decodeBase58OrHex input = Throw m)
   ↔ is_hex_string (strip_prefixes input) = false
     ∧ ∃ c, In c (list_ascii_of_string (strip_prefixes input))
         ∧ indexOf BASE58_ALPHABET c = -1)
  ∧ ((∃ m, decodeBase58OrHex input = Throw m) →
     ∀ msg other,
       verifySignature msg input other = Ok false
       ∧ verifySignature msg other input = Ok false).
Proof.
  split.
  - rewrite decodeBase58OrHex_stripped.
    destruct (is_hex_string (strip_prefixes input)).
    + split; [by intros [m Hm] | by intros [Hhex _]].
    + rewrite base58Decode_throws. split; [by split | by intros [_ Hc]].
  - intros [m Hm] msg other. rewrite !verifySignature_unfold, Hm.
    split; [done|]. by destruct (decodeBase58OrHex other).
Qed.

End Undecodable.

(** ** Digests and identifiers *)

Lemma length_be_bytes n x : length (Sha512.be_bytes n x) = n.
Proof. induction n as [|n IH]; [done|]. cbn. by rewrite IH. Qed.

Lemma length_sha512 msg : length (Sha512.sha512 msg) = 64%nat.
Proof.
  unfold Sha512.sha512. cbn [flat_map]. rewrite !length_app, !length_be_bytes. done.
Qed.

Lemma toString_hex_format bs :
  String.length (Buffer_toString_hex bs) = (2 * length bs)%nat
  ∧ lowercase_hex (Buffer_toString_hex bs) = true.
Proof.
  induction bs as [|b bs (IHlength & IHlower)]; [done|].
  cbn [Buffer_toString_hex String.length length lowercase_hex]. split; [lia|].
  assert (Hpair : lower_hex_unit (hex_digit (Z.shiftr (Z_of_byte b) 4)) = true
                  ∧ lower_hex_unit (hex_digit (Z.land (Z_of_byte b) 15)) = true)
    by (destruct b; split; reflexivity).
  destruct Hpair as [-> ->]. by rewrite IHlower.
Qed.

Lemma digest_text_format msg :
  String.length (Buffer_toString_hex (Sha512.sha512 msg)) = 128%nat
  ∧ lowercase_hex (Buffer_toString_hex (Sha512.sha512 msg)) = true.
Proof.
  destruct (toString_hex_format (Sha512.sha512 msg)) as [-> ->].
  by rewrite length_sha512.
Qed.

(** X4. Whatever object is hashed, the digest is a text of 128 lowercase
    hexadecimal digits, which the decoder reads back as the 64 bytes of the
    SHA-512 digest; the server's function throws on [null] and on nothing
    else. *)
Theorem digest_format (doc : json) :
  match hashSoulDocument doc with
  | Ok docHash =>
      doc ≠ JNull
      ∧ String.length docHash = 128%nat
      ∧ lowercase_hex docHash = true
      ∧ ∃ digest, decodeBase58OrHex docHash = Ok digest ∧ length digest = 64%nat
  | Throw _ => doc = JNull
  end
  ∧ String.length (Client.hashSoulDocument doc) = 128%nat
  ∧ lowercase_hex (Client.hashSoulDocument doc) = true.
Proof.
  pose proof digest_text_format as Hformat.
  split; [|apply Hformat].
  unfold hashSoulDocument, mbind, result_bind, mret, result_ret.
  destruct (Object_keys doc) as [keys|] eqn:Hkeys; [|by destruct doc].
  split; [by destruct doc|].
  split; [apply Hformat|]. split; [apply Hformat|].
  eexists. split; [apply decode_hex_text | apply length_sha512].
Qed.

(** ** Canonical forms *)

Import Canonical.

Lemma sort_Permutation keys keys' : keys ≡ₚ keys' → sort keys = sort keys'.
Proof.
  intros Hperm. unfold sort.
  apply (Sorted_unique String.le); [apply Sorted_merge_sort, _..|].
  by rewrite !merge_sort_Permutation.
Qed.

Lemma assoc_Some_In {A} (k : string) (v : A) props :
  assoc k props = Some v → In (k, v) props.
Proof.
  induction props as [|[k' v'] props IH]; [done|]. cbn.
  destruct (String.eqb_spec k k') as [->|]; [intros [= ->]; by left|].
  intros Hk. right. by apply IH.
Qed.

Lemma assoc_In_NoDup {A} (k : string) (v : A) props :
  NoDup (map fst props) → In (k, v) props → assoc k props = Some v.
Proof.
  induction props as [|[k' v'] props IH]; [done|]. cbn.
  intros [Hfresh Hrest]%NoDup_cons [[= -> ->]|Hin].
  - by rewrite String.eqb_refl.
  - destruct (String.eqb_spec k k') as [->|]; [|by apply IH].
    exfalso. apply Hfresh, list_elem_of_In, in_map_iff. by exists (k', v).
Qed.

Lemma assoc_None_In {A} (k : string) (props : list (string * A)) :
  assoc k props = None → ¬ In k (map fst props).
Proof.
  induction props as [|[k' v'] props IH]; [by intros _ []|]. cbn.
  destruct (String.eqb_spec k k') as [->|Hne]; [done|].
  intros Hnone [Heq|Hin]; [congruence | by apply IH].
Qed.

(** With distinct keys, what a key holds does not depend on the order of
    the properties. *)
Lemma assoc_Permutation {A} (k : string) (props props' : list (string * A)) :
  NoDup (map fst props) → props ≡ₚ props' → assoc k props = assoc k props'.
Proof.
  intros Hdistinct Hperm.
  assert (Hdistinct' : NoDup (map fst props')) by (by rewrite <- Hperm).
  destruct (assoc k props) as [v|] eqn:Hk.
  - symmetry. apply assoc_In_NoDup; [done|].
    apply list_elem_of_In. rewrite <- Hperm. by apply list_elem_of_In, assoc_Some_In.
  - destruct (assoc k props') as [v'|] eqn:Hk'; [|done].
    exfalso. apply (assoc_None_In _ _ Hk), in_map_iff. exists (k, v').
    split; [done|]. apply list_elem_of_In. rewrite Hperm.
    by apply list_elem_of_In, assoc_Some_In.
Qed.

(** X5. The server's digest of an object does not depend on the order in
    which the object lists its properties. *)
Theorem server_digest_ignores_key_order (props props' : list (string * json)) :
  NoDup (map fst props) →
  props ≡ₚ props' →
  hashSoulDocument (JObject props) = hashSoulDocument (JObject props').
Proof.
  intros Hdistinct Hperm. unfold hashSoulDocument. cbn [Object_keys].
  unfold mbind, result_bind, mret, result_ret.
  rewrite <- (sort_Permutation (map fst props) (map fst props'))
    by (by rewrite Hperm).
  enough (Hcanonical :
            JSON_stringify (JObject props) (Some (sort (map fst props)))
            = JSON_stringify (JObject props') (Some (sort (map fst props))))
    by (by rewrite Hcanonical).
  unfold JSON_stringify. cbn [fmap option_fmap option_map].
  apply serialize_object_ext. intros P _.
  by rewrite (assoc_Permutation P props props').
Qed.

Lemma contact_holds_no_document_key c props P :
  Contact_json c = JObject props → In P document_keys → assoc P props = None.
Proof.
  unfold Contact_json. intros [= <-] HP.
  destruct (Contact.email c), (Contact.inbox c), (Contact.agentmail c),
    (Contact.webhook c), (Contact.protocols c), (Contact.preferred c);
    cbn in HP; intuition; subst; reflexivity.
Qed.

Lemma contact_serialized_empty K c :
  (∀ P, In P K → In P document_keys) →
  SerializeJSONProperty (Some K) (Contact_json c) = "{}".
Proof.
  intros HK. destruct (Contact_json c) as [| | | | |props] eqn:Hc;
    try discriminate.
  apply serialize_object_none. intros P HP.
  eapply contact_holds_no_document_key; eauto.
Qed.

Lemma digest_of_signed_part (d d' : SoulDocument.t) :
  signed_part d = signed_part d' →
  hashSoulDocument (SoulDocument_json d) = hashSoulDocument (SoulDocument_json d').
Proof.
  intros Hsigned. unfold hashSoulDocument.
  destruct (SoulDocument_json d) as [| | | | |props] eqn:Hd; try discriminate.
  destruct (SoulDocument_json d') as [| | | | |props'] eqn:Hd'; try discriminate.
  destruct d as [did name publicKey birth avatar description website contact].
  destruct d' as [did' name' publicKey' birth' avatar' description' website' contact'].
  unfold signed_part in Hsigned. cbn in Hsigned.
  assert (Hpresent : match contact, contact' with
                     | Some _, Some _ | None, None => True
                     | _, _ => False
                     end) by (destruct contact, contact'; by simplify_eq).
  assert (did' = did ∧ name' = name ∧ publicKey' = publicKey ∧ avatar' = avatar
          ∧ description' = description ∧ website' = website)
    as (-> & -> & -> & -> & -> & ->) by (by simplify_eq).
  clear Hsigned.
  assert (Hkeys : map fst props' = map fst props).
  { revert Hd Hd'. unfold SoulDocument_json. cbn. intros [= <-] [= <-].
    destruct contact, contact'; try done; cbn [map]; rewrite !map_app; reflexivity. }
  cbn [Object_keys]. rewrite Hkeys. unfold mbind, result_bind, mret, result_ret.
  enough (Hcanonical :
            JSON_stringify (JObject props) (Some (sort (map fst props)))
            = JSON_stringify (JObject props') (Some (sort (map fst props))))
    by (by rewrite Hcanonical).
  unfold JSON_stringify. cbn [fmap option_fmap option_map].
  set (K := property_list [] (sort (map fst props))).
  assert (HK : ∀ P, In P K → In P document_keys).
  { intros P HP. apply property_list_In in HP as [[]|HP].
    eapply SoulDocument_keys; [exact Hd|]. by apply sort_In. }
  apply serialize_object_ext. intros P HP.
  revert Hd Hd'. unfold SoulDocument_json.
  cbn [SoulDocument.did SoulDocument.name SoulDocument.publicKey SoulDocument.birth
       SoulDocument.avatar SoulDocument.description SoulDocument.website
       SoulDocument.contact].
  intros [= <-] [= <-]. cbn [app assoc].
  destruct (String.eqb P "did"); [reflexivity|].
  destruct (String.eqb P "name"); [reflexivity|].
  destruct (String.eqb P "publicKey"); [reflexivity|].
  destruct (String.eqb P "birth");
    [cbn [fmap option_fmap option_map]; by rewrite !birth_serialized_empty|].
  destruct avatar, description, website, contact, contact'; try done;
    cbn [opt_string app assoc];
    repeat (match goal with
            | |- context [String.eqb P ?k] =>
                destruct (String.eqb P k); [try reflexivity|]
            end);
    try reflexivity;
    cbn [fmap option_fmap option_map]; by rewrite !contact_serialized_empty.
Qed.

Section SignedPart.
Context `{Ed25519} `{Host}.

(** X6. What a registration signs. The server's digest of a registration
    document reads the DID, the name, the public key, the avatar, the
    description and the website, and whether there is a contact; two
    documents that agree on these have the same digest, whatever their birth
    certificates and their contacts hold, and the register route gives both
    the same answer under the same signature. *)
Theorem registration_signs_top_level_texts (d d' : SoulDocument.t) :
  signed_part d = signed_part d' →
  hashSoulDocument (SoulDocument_json d) = hashSoulDocument (SoulDocument_json d')
  ∧ ∀ db now signature,
      snd (register db now d signature) = snd (register db now d' signature).
Proof.
  intros Hsigned. split; [by apply digest_of_signed_part|].
  intros db now signature.
  rewrite !register_unfold, (digest_of_signed_part d d' Hsigned).
  unfold violates_unique.
  assert (SoulDocument.did d' = SoulDocument.did d
          ∧ SoulDocument.name d' = SoulDocument.name d
          ∧ SoulDocument.publicKey d' = SoulDocument.publicKey d)
    as (-> & -> & ->) by (unfold signed_part in Hsigned; by simplify_eq).
  destruct (negb _); [done|].
  destruct (getSoulByName db (SoulDocument.name d)); [done|].
  destruct (hashSoulDocument (SoulDocument_json d')); [|done].
  destruct (verifySignature _ _ _) as [[|]|]; try done.
  by destruct (existsb _ _).
Qed.

End SignedPart.

(** ** The client's canonical form *)

(** Induction on a JSON value, with the property at hand for the items of
    an array and the values of an object. *)
Lemma json_induction (P : json → Prop) :
  P JNull → (∀ b, P (JBool b)) → (∀ repr, P (JNumber repr)) → (∀ s, P (JString s)) →
  (∀ items, Forall P items → P (JArray items)) →
  (∀ props, Forall (fun p => P (snd p)) props → P (JObject props)) →
  ∀ v, P v.
Proof.
  intros Hnull Hbool Hnumber Hstring Harray Hobject.
  fix IH 1. intros [|b|repr|s|items|props].
  - apply Hnull.
  - apply Hbool.
  - apply Hnumber.
  - apply Hstring.
  - apply Harray. induction items as [|x items IHitems]; constructor;
      [apply IH | apply IHitems].
  - apply Hobject. induction props as [|[k x] props IHprops]; constructor;
      [apply IH | apply IHprops].
Qed.

Lemma fold_left_agree {A B} (f g : A → B → A) (l : list B) (a : A) :
  (∀ a b, In b l → f a b = g a b) → fold_left f l a = fold_left g l a.
Proof.
  revert a. induction l as [|b l IH]; intros a Hfg; [done|].
  cbn. rewrite Hfg by (by left). apply IH. intros a' b' Hb'. apply Hfg. by right.
Qed.

(** [sortObjectKeys] on an object: the sorted keys are assigned one after
    the other, each with the canonical form of what the object holds under
    it. *)
Lemma sortObjectKeys_object props :
  Client.sortObjectKeys (JObject props)
  = JObject (fold_left
               (fun sorted key =>
                  match Client.sortObjectKeys <$> assoc key props with
                  | Some x => Object_set sorted key x
                  | None => sorted
                  end)
               (sort (map fst props)) []).
Proof.
  cbn [Client.sortObjectKeys]. f_equal. apply fold_left_agree.
  intros sorted key _. by rewrite assoc_map.
Qed.

Lemma assoc_Forall2 (R : json → json → Prop) (k : string)
    (props shuffled : list (string * json)) :
  Forall2 (fun p q => fst p = fst q ∧ R (snd p) (snd q)) props shuffled →
  option_Forall2 R (assoc k props) (assoc k shuffled).
Proof.
  induction 1 as [|[k1 x1] [k2 x2] props shuffled [Hk Hx] _ IH]; [constructor|].
  cbn in *. subst k2. destruct (String.eqb k k1); [by constructor | exact IH].
Qed.

Lemma reordered_sortObjectKeys v : ∀ v',
  reordered v v' → Client.sortObjectKeys v = Client.sortObjectKeys v'.
Proof.
  induction v as [|b|repr|s|items IH|props IH] using json_induction;
    intros v' Hreordered; inversion Hreordered; subst; try reflexivity.
  - cbn [Client.sortObjectKeys]. f_equal. clear Hreordered.
    match goal with Hitems : Forall2 reordered _ _ |- _ =>
      induction Hitems as [|x x' items items' Hx _ IHitems]
    end; [done|].
    apply Forall_cons in IH as [IHx IH]. cbn. rewrite (IHx _ Hx). f_equal.
    by apply IHitems.
  - rewrite !sortObjectKeys_object.
    match goal with
    | Hdistinct : NoDup (map fst props),
      Hvalues : Forall2 _ props ?shuffled,
      Hperm : ?shuffled ≡ₚ ?props' |- _ =>
        rename Hdistinct into Hkeys; rename Hvalues into Hshuffled;
        rename Hperm into Hpermuted
    end.
    assert (Hfst : map fst shuffled = map fst props).
    { clear -Hshuffled. induction Hshuffled as [|p q ? ? [Hk _] _ IHs]; [done|].
      cbn. by rewrite Hk, IHs. }
    assert (Hsorted : sort (map fst props') = sort (map fst props)).
    { rewrite <- Hfst. apply sort_Permutation. by rewrite Hpermuted. }
    rewrite Hsorted. f_equal. apply fold_left_agree. intros sorted key _.
    rewrite <- (assoc_Permutation key shuffled props')
      by (by rewrite ?Hfst).
    pose proof (assoc_Forall2 reordered key props shuffled Hshuffled) as Hkey.
    destruct (assoc key props) as [x|] eqn:Hassoc;
      inversion Hkey as [? x' Hx|]; subst; [|done].
    cbn. apply assoc_Some_In, list_elem_of_In in Hassoc.
    rewrite Forall_forall in IH. specialize (IH _ Hassoc x' Hx). cbn in IH.
    by rewrite IH.
Qed.

(** X7. The client's canonical form is canonical: two JSON values that
    differ only in the order in which their objects, at any depth, list
    their properties have the same canonical form and the same digest. *)
Theorem client_digest_ignores_key_order (v v' : json) :
  reordered v v' →
  Client.sortObjectKeys v = Client.sortObjectKeys v'
  ∧ Client.hashSoulDocument v = Client.hashSoulDocument v'.
Proof.
  intros Hreordered. unfold Client.hashSoulDocument.
  by rewrite (reordered_sortObjectKeys v v' Hreordered).
Qed.

(** ** Where the two digests agree *)

Lemma flat_value v :
  flat v = true →
  Client.sortObjectKeys v = v
  ∧ ∀ K K', SerializeJSONProperty K v = SerializeJSONProperty K' v.
Proof.
  induction v as [|b|repr|s|items IH|props IH] using json_induction;
    intros Hflat; try done.
  cbn [flat] in Hflat. rewrite forallb_forall in Hflat.
  assert (Hitems : map Client.sortObjectKeys items = items
                   ∧ ∀ K K', map (SerializeJSONProperty K) items
                             = map (SerializeJSONProperty K') items).
  { induction items as [|x items IHitems]; [done|].
    apply Forall_cons in IH as [IHx IH].
    destruct (IHx (Hflat x (or_introl eq_refl))) as [Hx HxK].
    destruct IHitems as [Hrest HrestK]; [done|intros y Hy; apply Hflat; by right|].
    split; [cbn; by rewrite Hx, Hrest|].
    intros K K'. cbn. by rewrite (HxK K K'), (HrestK K K'). }
  destruct Hitems as [Hsorted Hserialized]. split.
  - cbn [Client.sortObjectKeys]. by rewrite Hsorted.
  - intros K K'. cbn [SerializeJSONProperty]. by rewrite (Hserialized K K').
Qed.

Lemma property_list_NoDup (replacer : list string) : ∀ seen,
  NoDup (seen ++ replacer) → property_list seen replacer = (seen ++ replacer)%list.
Proof.
  induction replacer as [|k r IH]; intros seen Hdistinct; cbn [property_list].
  - by rewrite app_nil_r.
  - assert (Hfresh : existsb (String.eqb k) seen = false).
    { apply not_true_iff_false. intros (k' & Hin & <-%String.eqb_eq)%existsb_exists.
      apply NoDup_app in Hdistinct as (_ & Hdisjoint & _).
      apply (Hdisjoint k); [by apply list_elem_of_In | by left]. }
    rewrite Hfresh, IH by (by rewrite <- app_assoc).
    by rewrite <- app_assoc.
Qed.

Lemma Object_set_plain sorted key x :
  plain_key key = true → ¬ In key (map fst sorted) →
  Object_set sorted key x = (sorted ++ [(key, x)])%list.
Proof.
  unfold plain_key, Object_set. intros [Hproto Hindex]%andb_prop Hfresh.
  apply negb_true_iff in Hproto. rewrite Hproto.
  destruct (assoc key sorted) as [y|] eqn:Hkey.
  - exfalso. apply Hfresh, in_map_iff. exists (key, y).
    split; [done | by apply assoc_Some_In].
  - rewrite bool_decide_eq_false_2 by (by intros [? ?]).
    by destruct (array_index key).
Qed.

Lemma assign_plain_keys (g : string → json) (props : list (string * json))
    (keys : list string) : ∀ sorted,
  Forall (fun key => plain_key key = true ∧ assoc key props = Some (g key)) keys →
  NoDup (map fst sorted ++ keys) →
  fold_left (fun sorted key =>
               match Client.sortObjectKeys <$> assoc key props with
               | Some x => Object_set sorted key x
               | None => sorted
               end) keys sorted
  = (sorted ++ map (fun key => (key, Client.sortObjectKeys (g key))) keys)%list.
Proof.
  induction keys as [|key keys IH]; intros sorted Hkeys Hdistinct.
  - by rewrite app_nil_r.
  - apply Forall_cons in Hkeys as [[Hplain Hkey] Hkeys].
    cbn [fold_left map]. rewrite Hkey. cbn [fmap option_fmap option_map].
    rewrite Object_set_plain; [|done|].
    + rewrite IH; [by rewrite <- app_assoc|done|].
      by rewrite map_app, <- app_assoc.
    + apply NoDup_app in Hdistinct as (_ & Hdisjoint & _).
      intros Hin. apply (Hdisjoint key); [by apply list_elem_of_In | by left].
Qed.

Lemma assoc_of_keys {A} (h : string → A) (keys : list string) (P : string) :
  In P keys → assoc P (map (fun key => (key, h key)) keys) = Some (h P).
Proof.
  induction keys as [|key keys IH]; [done|]. cbn.
  destruct (String.eqb_spec P key) as [->|Hne]; [done|].
  intros [Heq|Hin]; [congruence | by apply IH].
Qed.

Lemma flat_map_agree {A B} (f g : A → list B) (l : list A) :
  (∀ a, In a l → f a = g a) → flat_map f l = flat_map g l.
Proof.
  induction l as [|a l IH]; intros Hfg; [done|].
  cbn. rewrite Hfg by (by left). f_equal. apply IH. intros b Hb. apply Hfg. by right.
Qed.

Lemma canonical_forms_agree (props : list (string * json)) :
  NoDup (map fst props) →
  Forall (fun p => plain_key (fst p) = true ∧ flat (snd p) = true) props →
  JSON_stringify (JObject props) (Some (sort (map fst props)))
  = JSON_stringify (Client.sortObjectKeys (JObject props)) None.
Proof.
  intros Hdistinct Hprops.
  set (K := sort (map fst props)).
  set (g := fun key => default JNull (assoc key props)).
  assert (HK : ∀ key, In key K →
            plain_key key = true ∧ assoc key props = Some (g key)
            ∧ flat (g key) = true).
  { intros key Hkey. apply sort_In, in_map_iff in Hkey as ([k x] & <- & Hin).
    rewrite Forall_forall in Hprops.
    destruct (Hprops _ (proj2 (list_elem_of_In _ _) Hin)) as [Hplain Hflat].
    unfold g. cbn [fst snd] in *.
    rewrite (assoc_In_NoDup k x props Hdistinct Hin). done. }
  assert (HKdistinct : NoDup K).
  { unfold K, sort. by rewrite merge_sort_Permutation. }
  rewrite sortObjectKeys_object. fold K.
  rewrite (assign_plain_keys g props K []).
  2:{ apply Forall_forall. intros key Hkey%list_elem_of_In.
      by destruct (HK key Hkey) as (? & ? & _). }
  2:{ done. }
  cbn [app]. unfold JSON_stringify. cbn [fmap option_fmap option_map].
  rewrite (property_list_NoDup K []) by done. cbn [app SerializeJSONProperty].
  rewrite !map_map. cbn [fst]. rewrite map_id.
  do 3 f_equal. apply flat_map_agree. intros P HP.
  destruct (HK P HP) as (_ & Hvalue & Hflat).
  rewrite assoc_map, Hvalue. cbn [fmap option_fmap option_map].
  rewrite (assoc_of_keys
             (fun key => SerializeJSONProperty None (Client.sortObjectKeys (g key)))
             K P HP).
  destruct (flat_value (g P) Hflat) as [-> Hserialized].
  by rewrite (Hserialized (Some K) None).
Qed.

(** X8. Where server and client agree. On an object whose values hold no
    object, and whose keys are distinct and none of them an array index or
    [__proto__], the server's digest is the client's. *)
Theorem digests_agree_without_nesting (props : list (string * json)) :
  NoDup (map fst props) →
  Forall (fun p => plain_key (fst p) = true ∧ flat (snd p) = true) props →
  hashSoulDocument (JObject props) = Ok (Client.hashSoulDocument (JObject props)).
Proof.
  intros Hdistinct Hprops.
  unfold hashSoulDocument, Client.hashSoulDocument. cbn [Object_keys].
  unfold mbind, result_bind, mret, result_ret.
  by rewrite (canonical_forms_agree props Hdistinct Hprops).
Qed.

(** ** The reference client at the register route *)

Lemma lower_unit_idempotent c : lower_unit (lower_unit c) = lower_unit c.
Proof. by destruct c as [[] [] [] [] [] [] [] []]. Qed.

Lemma toLowerCase_idempotent s : toLowerCase (toLowerCase s) = toLowerCase s.
Proof.
  unfold toLowerCase. induction s as [|c s IH]; [done|].
  cbn. by rewrite lower_unit_idempotent, IH.
Qed.

Lemma toLowerCase_did name :
  toLowerCase ("did:soul:" ++ name) = "did:soul:" ++ toLowerCase name.
Proof. reflexivity. Qed.

Section Agent.
Context `{Ed25519} `{Host}.

(** X9. The document the reference client builds always passes the DID
    check, whatever the case of the name it was given: the register route
    never answers it with DID_MISMATCH, and when it registers it, it is under
    the name in lower case. *)
Theorem client_document_passes_did_check (db : RegistryDB) (now : Z)
    (name operator description publicKeyHex timestamp signature : string) :
  let d := Agent.soulDocument name operator description publicKeyHex timestamp in
  snd (register db now d signature) ≠ Error DID_MISMATCH
  ∧ ∀ did registeredAt,
      snd (register db now d signature) = Registered did registeredAt →
      did = "did:soul:" ++ toLowerCase name.
Proof.
  intros d. rewrite register_unfold. unfold d, Agent.soulDocument.
  cbn [SoulDocument.did SoulDocument.name SoulDocument.publicKey].
  rewrite toLowerCase_did, toLowerCase_idempotent, String.eqb_refl. cbn [negb].
  split.
  - destruct (getSoulByName _ _); [done|].
    destruct (hashSoulDocument _); [|done].
    destruct (verifySignature _ _ _) as [[|]|]; try done.
    by destruct (violates_unique _ _).
  - intros did registeredAt.
    destruct (getSoulByName _ _); [done|].
    destruct (hashSoulDocument _); [|done].
    destruct (verifySignature _ _ _) as [[|]|]; try done.
    destruct (violates_unique _ _); [done|]. by intros [= <- _].
Qed.

End Agent.

(** ** The table of souls over a sequence of requests *)

Import History.

Lemma evolves_refl r : evolves r r.
Proof. unfold evolves. split_and!; [done|lia..]. Qed.

Lemma evolves_trans r1 r2 r3 : evolves r1 r2 → evolves r2 r3 → evolves r1 r3.
Proof. unfold evolves. intros (-> & ? & ?) (-> & ? & ?). split_and!; [done|lia..]. Qed.

Lemma evolves_set_status status reason now r : evolves r (set_status status reason now r).
Proof. unfold evolves, registration. cbn. split_and!; [done|lia..]. Qed.

Lemma evolves_set_verified now r : evolves r (set_verified now r).
Proof. unfold evolves, registration. cbn. split_and!; [done|lia..]. Qed.

Lemma evolves_set_contact contact r : evolves r (set_contact contact r).
Proof. unfold evolves, registration. cbn. split_and!; [done|lia..]. Qed.

Lemma evolves_set_capabilities capabilities riskLevel r :
  evolves r (set_capabilities capabilities riskLevel r).
Proof. unfold evolves, registration. cbn. split_and!; [done|lia..]. Qed.

Lemma evolves_where_did did (set : SoulRecord.t → SoulRecord.t) r :
  (∀ r, evolves r (set r)) →
  evolves r (if String.eqb (SoulRecord.did r) did then set r else r).
Proof. intros Hset. destruct (String.eqb _ _); [apply Hset | apply evolves_refl]. Qed.

Section Souls.
Context `{Ed25519} `{Host}.

(** What one request does to the table: it changes rows in place, or adds
    one row that breaks no constraint. *)
Lemma step_souls db event :
  (∃ g, (∀ r, evolves r (g r)) ∧ souls (step db event) = map g (souls db))
  ∨ (∃ now d, violates_unique db d = false
       ∧ souls (step db event)
         = (souls db ++ [inserted_row (candidate now d)
                           (Z.of_nat (length (souls db)) + 1)])%list).
Proof.
  assert (Hsame : ∀ db', souls db' = souls db →
            ∃ g, (∀ r, evolves r (g r)) ∧ souls db' = map g (souls db)).
  { intros db' ->. exists (fun r => r). split; [apply evolves_refl|].
    by rewrite map_id. }
  assert (Hset : ∀ did set, (∀ r, evolves r (set r)) →
            ∃ g, (∀ r, evolves r (g r))
              ∧ souls (update_where_did db did set) = map g (souls db)).
  { intros did set Hevolves. eexists. split; [|reflexivity].
    intros r. by apply evolves_where_did. }
  destruct event as [now event]. unfold step. cbn [fst snd]. destruct event.
  - rewrite register_unfold.
    destruct (negb _); [left; by apply Hsame|].
    destruct (getSoulByName _ _); [left; by apply Hsame|].
    destruct (hashSoulDocument _); [|left; by apply Hsame].
    destruct (verifySignature _ _ _) as [[|]|]; try (left; by apply Hsame).
    destruct (violates_unique db soulDocument) eqn:Hunique; [left; by apply Hsame|].
    right. by exists now, soulDocument.
  - left. rewrite putContact_unfold.
    destruct (resolveSoul _ _); [|by apply Hsame].
    destruct (Date_lt _ _); [by apply Hsame|].
    unfold contact_signature_stage.
    destruct (verifySignature _ _ _) as [[|]|]; try (by apply Hsame).
    apply Hset, evolves_set_contact.
  - left. rewrite putCapabilities_unfold.
    destruct (resolveSoul _ _); [|by apply Hsame].
    destruct (Date_lt _ _); [by apply Hsame|].
    unfold capabilities_signature_stage.
    destruct (verifySignature _ _ _) as [[|]|]; try (by apply Hsame).
    apply Hset, evolves_set_capabilities.
  - left. unfold postChallenge.
    destruct (resolveSoul _ _); [|by apply Hsame].
    unfold createChallenge. destruct (_ !! _); by apply Hsame.
  - left. rewrite postVerify_unfold.
    destruct (getChallenge _ _); [|by apply Hsame].
    destruct (_ <? _); [by apply Hsame|].
    destruct (negb (bool_decide _)); [by apply Hsame|].
    destruct (resolveSoul _ _); [|by apply Hsame].
    destruct (negb (String.eqb _ _)); [by apply Hsame|].
    destruct (verifySignature _ _ _) as [[|]|]; try (by apply Hsame).
    eexists. split; [|reflexivity].
    intros r. apply evolves_where_did, evolves_set_verified.
  - left. rewrite updateStatus_unfold.
    destruct (StatusUpdateSchema_safeParse _); [|by apply Hsame].
    destruct (resolveSoul _ _); [|by apply Hsame].
    destruct (verifySignature _ _ _) as [[|]|]; try (by apply Hsame).
    apply Hset, evolves_set_status.
  - left. by apply Hsame.
Qed.

Lemma grows_refl db : grows db db.
Proof.
  exists (souls db), []. split; [by rewrite app_nil_r|].
  apply Forall2_same_length_lookup_2; [done|].
  intros i r r' Hr Hr'. assert (r' = r) as -> by congruence. apply evolves_refl.
Qed.

Lemma grows_trans db1 db2 db3 : grows db1 db2 → grows db2 db3 → grows db1 db3.
Proof.
  intros (kept & added & Hsouls & Hkept) (kept' & added' & Hsouls' & Hkept').
  rewrite Hsouls in Hkept'.
  apply Forall2_app_inv_l in Hkept' as (k1 & k2 & Hk1 & Hk2 & ->).
  exists k1, (k2 ++ added')%list. split; [by rewrite Hsouls', <- app_assoc|].
  eapply Forall2_trans; [|exact Hkept|exact Hk1].
  intros r1 r2 r3. apply evolves_trans.
Qed.

Lemma grows_step db event : grows db (step db event).
Proof.
  unfold grows.
  destruct (step_souls db event) as [(g & Hg & ->)|(now & d & _ & ->)].
  - exists (map g (souls db)), []. split; [by rewrite app_nil_r|].
    apply Forall2_fmap_r, Forall_Forall2_diag, Forall_forall. intros r _. apply Hg.
  - eexists (souls db), _. split; [reflexivity|].
    apply Forall_Forall2_diag, Forall_forall. intros r _. apply evolves_refl.
Qed.

Lemma grows_run events : ∀ db, grows db (run db events).
Proof.
  induction events as [|event events IH]; intros db; [apply grows_refl|].
  eapply grows_trans; [apply grows_step | apply IH].
Qed.

(** X10. Nothing the registry does deletes a soul, moves it, or changes
    what it was registered with: after any sequence of requests the table
    lists the same DIDs, names, public keys, birth certificates, avatars,
    descriptions, websites, registration times and row ids, in the same
    order, followed by those of the souls registered since. *)
Theorem registration_is_permanent (db : RegistryDB) (events : list (Z * event)) :
  ∃ added, map registration (souls (run db events))
           = (map registration (souls db) ++ added)%list.
Proof.
  destruct (grows_run events db) as (kept & added & -> & Hkept).
  exists (map registration added). rewrite map_app. f_equal.
  induction Hkept as [|r r' rs rs' (Hr & _) _ IH]; [done|].
  cbn. by rewrite Hr, IH.
Qed.


Lemma evolves_fields r r' :
  evolves r r' →
  SoulRecord.did r' = SoulRecord.did r
  ∧ SoulRecord.name r' = SoulRecord.name r
  ∧ SoulRecord.publicKey r' = SoulRecord.publicKey r
  ∧ SoulRecord._registryId r' = SoulRecord._registryId r.
Proof. intros (Hr & _). unfold registration in Hr. by simplify_eq. Qed.

Lemma map_evolved {A} (f : SoulRecord.t → A) (g : SoulRecord.t → SoulRecord.t) rows :
  (∀ r, f (g r) = f r) → map f (map g rows) = map f rows.
Proof. intros Hf. rewrite map_map. apply map_ext, Hf. Qed.

Lemma violates_unique_false db d r :
  violates_unique db d = false → In r (souls db) →
  SoulRecord.did r ≠ SoulDocument.did d
  ∧ LOWER (SoulRecord.name r) ≠ LOWER (SoulDocument.name d).
Proof.
  unfold violates_unique. intros Hnone Hin.
  apply not_true_iff_false in Hnone.
  split; intros Heq; apply Hnone, existsb_exists; exists r; (split; [done|]);
    rewrite Heq, String.eqb_refl; [done | apply orb_true_r].
Qed.

Lemma unique_souls_step db event : unique_souls db → unique_souls (step db event).
Proof.
  intros (Hdid & Hname & Hid). unfold unique_souls.
  destruct (step_souls db event) as [(g & Hg & ->)|(now & d & Hnew & ->)].
  - rewrite !map_evolved, length_map;
      [done|intros r; destruct (evolves_fields _ _ (Hg r)) as (? & ? & ? & ?);
            congruence..].
  - rewrite !map_app, length_app, Nat.add_1_r, seq_S, map_app. cbn [map length].
    split_and!.
    + apply NoDup_app. split_and!; [done| |apply NoDup_singleton].
      intros did Hin ->%list_elem_of_singleton.
      apply list_elem_of_In, in_map_iff in Hin as (r & Hr & Hin).
      by destruct (violates_unique_false db d r Hnew Hin).
    + apply NoDup_app. split_and!; [done| |apply NoDup_singleton].
      intros name Hin ->%list_elem_of_singleton.
      apply list_elem_of_In, in_map_iff in Hin as (r & Hr & Hin).
      by destruct (violates_unique_false db d r Hnew Hin).
    + rewrite Hid. cbn [inserted_row SoulRecord._registryId]. do 2 f_equal. lia.
Qed.

(** X11. The constraints of the table hold for good: after any sequence
    of requests no two souls share a DID, no two share a name up to the case
    of its letters, and the row ids still count from 1. *)
Theorem souls_stay_unique (db : RegistryDB) (events : list (Z * event)) :
  unique_souls db → unique_souls (run db events).
Proof.
  revert db. induction events as [|event events IH]; intros db Hdb; [done|].
  by apply IH, unique_souls_step.
Qed.

Lemma find_unique {A} (f : A → string) (key : string) (l : list A) (x : A) :
  NoDup (map f l) → In x l → f x = key →
  List.find (fun y => String.eqb (f y) key) l = Some x.
Proof.
  induction l as [|y l IH]; [done|]. cbn.
  intros [Hfresh Hrest]%NoDup_cons [->|Hin] Hkey.
  - by rewrite Hkey, String.eqb_refl.
  - destruct (String.eqb_spec (f y) key) as [Hy|]; [|by apply IH].
    exfalso. apply Hfresh, list_elem_of_In, in_map_iff.
    exists x. split; [congruence | done].
Qed.

(** X12. Resolution is exact and unambiguous. While the table meets its
    constraints, a path that starts with [did:soul:] finds the one soul whose
    DID is that text, letter for letter, and any other path finds the one
    soul whose name is that text up to the case of its letters. *)
Theorem resolution_is_unambiguous (db : RegistryDB) (didOrName : string)
    (r : SoulRecord.t) :
  unique_souls db →
  resolveSoul db didOrName = Some r
  ↔ In r (souls db)
    ∧ if startsWith didOrName "did:soul:"
      then SoulRecord.did r = didOrName
      else LOWER (SoulRecord.name r) = LOWER didOrName.
Proof.
  intros (Hdid & Hname & _). unfold resolveSoul, getSoulByDid, getSoulByName.
  destruct (startsWith didOrName "did:soul:"); split.
  - intros [Hin Hr%String.eqb_eq]%find_some. done.
  - intros [Hin Hr]. by apply (find_unique SoulRecord.did).
  - intros [Hin Hr%String.eqb_eq]%find_some. done.
  - intros [Hin Hr].
    by apply (find_unique (fun r => LOWER (SoulRecord.name r))).
Qed.

(** A lookup that finds a row finds the later state of that row in a table
    grown from the first. *)
Lemma find_grows (P : SoulRecord.t → bool) rows kept added r :
  (∀ r r', evolves r r' → P r' = P r) →
  Forall2 evolves rows kept →
  List.find P rows = Some r →
  ∃ r', List.find P (kept ++ added)%list = Some r' ∧ evolves r r'.
Proof.
  intros HP Hkept. induction Hkept as [|r0 r0' rows kept Hr0 _ IH]; [done|].
  cbn. rewrite (HP _ _ Hr0). destruct (P r0); [|done].
  intros [= <-]. eauto.
Qed.

Lemma getSoulByDid_grows db db' did r :
  grows db db' → getSoulByDid db did = Some r →
  ∃ r', getSoulByDid db' did = Some r' ∧ evolves r r'.
Proof.
  intros (kept & added & Hsouls & Hkept). unfold getSoulByDid. rewrite Hsouls.
  apply find_grows; [|done].
  intros r1 r2 (-> & _)%evolves_fields. done.
Qed.

Lemma getSoulByName_grows db db' name r :
  grows db db' → getSoulByName db name = Some r →
  ∃ r', getSoulByName db' name = Some r' ∧ evolves r r'.
Proof.
  intros (kept & added & Hsouls & Hkept). unfold getSoulByName. rewrite Hsouls.
  apply find_grows; [|done].
  intros r1 r2 (_ & -> & _)%evolves_fields. done.
Qed.

Lemma resolveSoul_grows db db' didOrName r :
  grows db db' → resolveSoul db didOrName = Some r →
  ∃ r', resolveSoul db' didOrName = Some r' ∧ evolves r r'.
Proof.
  unfold resolveSoul. destruct (startsWith _ _);
    [apply getSoulByDid_grows | apply getSoulByName_grows].
Qed.

Lemma find_app_first {A} (P : A → bool) (l : list A) (x : A) (rest : list A) :
  (∀ y, In y l → P y = false) → P x = true →
  List.find P (l ++ x :: rest)%list = Some x.
Proof.
  intros Hl Hx. induction l as [|y l IH]; cbn; [by rewrite Hx|].
  rewrite (Hl y) by (by left). apply IH. intros z Hz. apply Hl. by right.
Qed.

(** A successful registration adds its row behind rows that have another
    DID and another name. *)
Lemma registered_row db now d signature did registeredAt :
  snd (register db now d signature) = Registered did registeredAt →
  souls (fst (register db now d signature))
  = (souls db ++ [inserted_row (candidate now d)
                    (Z.of_nat (length (souls db)) + 1)])%list
  ∧ violates_unique db d = false.
Proof.
  rewrite register_unfold.
  destruct (negb _); [done|].
  destruct (getSoulByName _ _); [done|].
  destruct (hashSoulDocument _); [|done].
  destruct (verifySignature _ _ _) as [[|]|]; try done.
  by destruct (violates_unique db d) eqn:Hnew.
Qed.

Lemma Forall2_evolves_In rows kept r' :
  Forall2 evolves rows kept → In r' kept → ∃ r, In r rows ∧ evolves r r'.
Proof.
  intros Hkept. induction Hkept as [|r0 r0' rows kept Hr0 _ IH]; [done|].
  intros [<-|Hin]; [exists r0; split; [by left|done]|].
  destruct (IH Hin) as (r & Hr & Hevolves). exists r. split; [by right|done].
Qed.

(** [db'] is a later state of a store in which [d] was registered behind
    the rows of [db]: the row of [d] is what its DID and its name find. *)
Lemma registered_row_later db db0 db' now d :
  violates_unique db d = false →
  souls db0 = (souls db ++ [inserted_row (candidate now d)
                              (Z.of_nat (length (souls db)) + 1)])%list →
  grows db0 db' →
  ∃ r, evolves (inserted_row (candidate now d) (Z.of_nat (length (souls db)) + 1)) r
    ∧ getSoulByDid db' (SoulDocument.did d) = Some r
    ∧ ∀ name, LOWER name = LOWER (SoulDocument.name d) →
        getSoulByName db' name = Some r.
Proof.
  intros Hnew Hsouls (kept & added & Hsouls' & Hkept). rewrite Hsouls in Hkept.
  apply Forall2_app_inv_l in Hkept as (kept0 & k1 & Hkept0 & Hk1 & ->).
  apply Forall2_cons_inv_l in Hk1 as (r & k2 & Hr & ->%Forall2_nil_inv_l & ->).
  exists r. split; [done|].
  destruct (evolves_fields _ _ Hr) as (Hdid & Hname & _). cbn in Hdid, Hname.
  unfold getSoulByDid, getSoulByName. rewrite Hsouls', <- app_assoc. cbn [app].
  split.
  - apply find_app_first; [|rewrite Hdid; apply String.eqb_refl].
    intros r' Hr'. destruct (Forall2_evolves_In _ _ _ Hkept0 Hr') as (r0 & Hr0 & Hev).
    apply String.eqb_neq. destruct (evolves_fields _ _ Hev) as (-> & _).
    by destruct (violates_unique_false db d r0 Hnew Hr0).
  - intros name Hlower.
    apply find_app_first; [|rewrite Hname, Hlower; apply String.eqb_refl].
    intros r' Hr'. destruct (Forall2_evolves_In _ _ _ Hkept0 Hr') as (r0 & Hr0 & Hev).
    apply String.eqb_neq. destruct (evolves_fields _ _ Hev) as (_ & -> & _).
    rewrite Hlower. by destruct (violates_unique_false db d r0 Hnew Hr0).
Qed.

(** X13. A soul that was registered is found from then on. After any
    sequence of requests, the row stored under its DID is the row its name
    resolves to at the routes, in whatever case the letters are written; it
    carries the DID, the name and the public key of the registration, the
    clock of the registration and the next free row id. The DID itself
    resolves to that row at the routes when it is written with the prefix
    [did:soul:] in lower case; a DID that was accepted with capitals in its
    prefix is looked up as a name, and found only if a soul is named so. *)
Theorem registered_soul_resolves (db : RegistryDB) (now : Z) (d : SoulDocument.t)
    (signature did : string) (registeredAt : Z) (events : list (Z * event)) :
  snd (register db now d signature) = Registered did registeredAt →
  let db' := run (fst (register db now d signature)) events in
  ∃ r, getSoulByDid db' (SoulDocument.did d) = Some r
    ∧ (∀ name, LOWER name = LOWER (SoulDocument.name d) →
         getSoulByName db' name = Some r
         ∧ (startsWith name "did:soul:" = false → resolveSoul db' name = Some r))
    ∧ (if startsWith (SoulDocument.did d) "did:soul:"
       then resolveSoul db' (SoulDocument.did d) = Some r
       else is_Some (resolveSoul db' (SoulDocument.did d))
            ↔ Table.holds_name db' (SoulDocument.did d))
    ∧ SoulRecord.did r = SoulDocument.did d
    ∧ SoulRecord.name r = SoulDocument.name d
    ∧ SoulRecord.publicKey r = SoulDocument.publicKey d
    ∧ SoulRecord.registeredAt r = now
    ∧ SoulRecord._registryId r = Z.of_nat (length (souls db)) + 1.
Proof.
  intros Hregistered db'.
  destruct (registered_row _ _ _ _ _ _ Hregistered) as (Hsouls & Hnew).
  destruct (registered_row_later db _ db' now d Hnew Hsouls (grows_run events _))
    as (r & (Hreg & _) & Hdid & Hname).
  exists r. split; [done|]. split; [|split].
  - intros name Hlower. split; [by apply Hname|].
    intros Hpath. unfold resolveSoul. rewrite Hpath. by apply Hname.
  - unfold resolveSoul.
    destruct (startsWith (SoulDocument.did d) "did:soul:"); [done|].
    apply getSoulByName_holds_name.
  - unfold registration in Hreg. split_and!; by simplify_eq.
Qed.

(** X14. A name is registered once: when a registration has succeeded, then
    after any sequence of requests a registration under the same name, in
    whatever case, is refused before its signature is looked at, and leaves
    the store as it is. *)
Theorem registered_name_is_taken (db : RegistryDB) (now : Z) (d : SoulDocument.t)
    (signature did : string) (registeredAt : Z) (events : list (Z * event))
    (now' : Z) (d' : SoulDocument.t) (signature' : string) :
  snd (register db now d signature) = Registered did registeredAt →
  LOWER (SoulDocument.name d') = LOWER (SoulDocument.name d) →
  let db' := run (fst (register db now d signature)) events in
  register db' now' d' signature'
  = (db', Error (if String.eqb (toLowerCase (SoulDocument.did d'))
                      ("did:soul:" ++ toLowerCase (SoulDocument.name d'))
                 then NAME_TAKEN else DID_MISMATCH)).
Proof.
  intros Hregistered Hlower db'.
  destruct (registered_row _ _ _ _ _ _ Hregistered) as (Hsouls & Hnew).
  destruct (registered_row_later db _ db' now d Hnew Hsouls (grows_run events _))
    as (r & _ & _ & Hname).
  rewrite register_unfold, (Hname _ Hlower). by destruct (String.eqb _ _).
Qed.

End Souls.

(** ** Signed requests over time *)

Section Replays.
Context `{Ed25519} `{Host}.

Lemma updateStatus_accepted db now didOrName newStatus body did changedAt :
  snd (updateStatus db now didOrName newStatus body)
  = StatusChanged did newStatus changedAt →
  ∃ data soul,
    StatusUpdateSchema_safeParse body = Some data
    ∧ resolveSoul db didOrName = Some soul
    ∧ verifySignature
        (MsgString (SoulStatus_text newStatus ++ ":" ++ SoulRecord.did soul
                    ++ ":" ++ StatusUpdate.reason data))
        (StatusUpdate.signature data) (SoulRecord.publicKey soul) = Ok true
    ∧ did = SoulRecord.did soul ∧ changedAt = now.
Proof.
  rewrite updateStatus_unfold.
  destruct (StatusUpdateSchema_safeParse body) as [data|]; [|done].
  destruct (resolveSoul db didOrName) as [soul|]; [|done].
  destruct (verifySignature _ _ _) as [[|]|] eqn:Hsig; try done.
  intros [= <- <-]. by exists data, soul.
Qed.

(** X15. A status change carries nothing that ties it to a moment: the
    request that was accepted once is accepted again, word for word, after
    any sequence of requests and at any later time, and sets the status
    again. *)
Theorem status_change_replays (db : RegistryDB) (now : Z) (didOrName : string)
    (newStatus : SoulStatus) (body : json) (did : string) (changedAt : Z)
    (events : list (Z * event)) (now' : Z) :
  snd (updateStatus db now didOrName newStatus body)
  = StatusChanged did newStatus changedAt →
  let db' := run (fst (updateStatus db now didOrName newStatus body)) events in
  snd (updateStatus db' now' didOrName newStatus body)
  = StatusChanged did newStatus now'
  ∧ ∃ soul, getSoulByDid (fst (updateStatus db' now' didOrName newStatus body)) did
            = Some soul
      ∧ SoulRecord.status soul = newStatus
      ∧ SoulRecord.statusChangedAt soul = Some now'.
Proof.
  intros Haccepted db'.
  destruct (updateStatus_accepted _ _ _ _ _ _ _ Haccepted)
    as (data & soul & Hdata & Hsoul & Hsig & -> & ->).
  assert (Hgrows : grows db db').
  { eapply grows_trans; [|apply grows_run].
    apply (grows_step db (now, OnPostStatus didOrName newStatus body)). }
  destruct (resolveSoul_grows _ _ _ _ Hgrows Hsoul) as (soul' & Hsoul' & Hevolves).
  destruct (evolves_fields _ _ Hevolves) as (Hdid & _ & Hkey & _).
  rewrite updateStatus_unfold, Hdata, Hsoul', Hdid, Hkey, Hsig. cbn [fst snd].
  split; [done|].
  unfold updateSoulStatus. cbn [fst].
  rewrite getSoulByDid_update by done.
  destruct (getSoulByDid_of_member db' soul' (resolveSoul_in _ _ _ Hsoul'))
    as [row Hrow].
  rewrite Hdid in Hrow. rewrite Hrow. cbn.
  rewrite (getSoulByDid_did _ _ _ Hrow), String.eqb_refl. eauto.
Qed.

Lemma putContact_accepted db now didOrName contact signature timestamp did contact'
    updatedAt :
  snd (putContact db now didOrName contact signature timestamp)
  = ContactUpdated did contact' updatedAt →
  ∃ soul,
    resolveSoul db didOrName = Some soul
    ∧ Date_lt (Date_parse timestamp) (Some (now - fiveMinutes)) = false
    ∧ verifySignature
        (MsgString ("contact-update:" ++ SoulRecord.did soul ++ ":" ++ timestamp))
        signature (SoulRecord.publicKey soul) = Ok true
    ∧ did = SoulRecord.did soul ∧ contact' = contact ∧ updatedAt = now.
Proof.
  rewrite putContact_unfold.
  destruct (resolveSoul db didOrName) as [soul|]; [|done].
  destruct (Date_lt _ _); [done|]. unfold contact_signature_stage.
  destruct (verifySignature _ _ _) as [[|]|] eqn:Hsig; try done.
  intros [= <- <- <-]. by exists soul.
Qed.

Lemma putCapabilities_accepted db now didOrName capabilities riskLevel signature
    timestamp did capabilities' riskLevel' updatedAt :
  snd (putCapabilities db now didOrName capabilities riskLevel signature timestamp)
  = CapabilitiesUpdated did capabilities' riskLevel' updatedAt →
  ∃ soul,
    resolveSoul db didOrName = Some soul
    ∧ Date_lt (Date_parse timestamp) (Some (now - fiveMinutes)) = false
    ∧ verifySignature
        (MsgString ("capabilities-update:" ++ SoulRecord.did soul ++ ":" ++ timestamp))
        signature (SoulRecord.publicKey soul) = Ok true
    ∧ did = SoulRecord.did soul ∧ capabilities' = capabilities
    ∧ riskLevel' = or_null riskLevel ∧ updatedAt = now.
Proof.
  rewrite putCapabilities_unfold.
  destruct (resolveSoul db didOrName) as [soul|]; [|done].
  destruct (Date_lt _ _); [done|]. unfold capabilities_signature_stage.
  destruct (verifySignature _ _ _) as [[|]|] eqn:Hsig; try done.
  intros [= <- <- <- <-]. by exists soul.
Qed.

Lemma updated_row db did (set : SoulRecord.t → SoulRecord.t) soul :
  (∀ r, SoulRecord.did (set r) = SoulRecord.did r) →
  In soul (souls db) → SoulRecord.did soul = did →
  ∃ row, getSoulByDid db did = Some row
    ∧ getSoulByDid (update_where_did db did set) did = Some (set row).
Proof.
  intros Hset Hin <-.
  destruct (getSoulByDid_of_member db soul Hin) as [row Hrow].
  exists row. split; [done|].
  rewrite getSoulByDid_update, Hrow by done. cbn.
  by rewrite (getSoulByDid_did _ _ _ Hrow), String.eqb_refl.
Qed.

(** X16. The signature of a contact update covers the DID and the
    timestamp, not the contact: once an update was accepted, its signature
    and timestamp carry any other contact through, after any sequence of
    requests, for as long as the timestamp is not older than five minutes. *)
Theorem contact_signature_covers_no_contact (db : RegistryDB) (now : Z)
    (didOrName : string) (contact : Contact.t) (signature timestamp did : string)
    (updatedAt : Z) (events : list (Z * event)) (now' : Z) (contact' : Contact.t) :
  snd (putContact db now didOrName contact signature timestamp)
  = ContactUpdated did contact updatedAt →
  Date_lt (Date_parse timestamp) (Some (now' - fiveMinutes)) = false →
  let db' := run (fst (putContact db now didOrName contact signature timestamp))
                 events in
  snd (putContact db' now' didOrName contact' signature timestamp)
  = ContactUpdated did contact' now'
  ∧ ∃ soul, getSoulByDid
              (fst (putContact db' now' didOrName contact' signature timestamp)) did
            = Some soul
      ∧ SoulRecord.contact soul = Some contact'.
Proof.
  intros Haccepted Hfresh db'.
  destruct (putContact_accepted _ _ _ _ _ _ _ _ _ Haccepted)
    as (soul & Hsoul & _ & Hsig & -> & _ & _).
  assert (Hgrows : grows db db').
  { eapply grows_trans; [|apply grows_run].
    apply (grows_step db (now, OnPutContact didOrName contact signature timestamp)). }
  destruct (resolveSoul_grows _ _ _ _ Hgrows Hsoul) as (soul' & Hsoul' & Hevolves).
  destruct (evolves_fields _ _ Hevolves) as (Hdid & _ & Hkey & _).
  rewrite putContact_unfold, Hsoul', Hfresh. unfold contact_signature_stage.
  rewrite Hdid, Hkey, Hsig. cbn [fst snd]. split; [done|].
  unfold updateSoulContact. cbn [fst].
  destruct (updated_row db' (SoulRecord.did soul) (set_contact contact') soul')
    as (row & _ & ->); [done|by eapply resolveSoul_in|done|]. eauto.
Qed.

(** X17. Nor does the signature of a capabilities update cover the
    capabilities or the risk level. *)
Theorem capabilities_signature_covers_no_capabilities (db : RegistryDB) (now : Z)
    (didOrName : string) (capabilities : list string) (riskLevel : option string)
    (signature timestamp did : string) (riskLevel0 : option string) (updatedAt : Z)
    (events : list (Z * event)) (now' : Z)
    (capabilities' : list string) (riskLevel' : option string) :
  snd (putCapabilities db now didOrName capabilities riskLevel signature timestamp)
  = CapabilitiesUpdated did capabilities riskLevel0 updatedAt →
  Date_lt (Date_parse timestamp) (Some (now' - fiveMinutes)) = false →
  let db' := run (fst (putCapabilities db now didOrName capabilities riskLevel
                         signature timestamp)) events in
  snd (putCapabilities db' now' didOrName capabilities' riskLevel' signature timestamp)
  = CapabilitiesUpdated did capabilities' (or_null riskLevel') now'
  ∧ ∃ soul, getSoulByDid
              (fst (putCapabilities db' now' didOrName capabilities' riskLevel'
                      signature timestamp)) did
            = Some soul
      ∧ SoulRecord.capabilities soul = Some capabilities'
      ∧ SoulRecord.riskLevel soul = or_null riskLevel'.
Proof.
  intros Haccepted Hfresh db'.
  destruct (putCapabilities_accepted _ _ _ _ _ _ _ _ _ _ _ Haccepted)
    as (soul & Hsoul & _ & Hsig & -> & _ & _ & _).
  assert (Hgrows : grows db db').
  { eapply grows_trans; [|apply grows_run].
    apply (grows_step db (now, OnPutCapabilities didOrName capabilities riskLevel
                                 signature timestamp)). }
  destruct (resolveSoul_grows _ _ _ _ Hgrows Hsoul) as (soul' & Hsoul' & Hevolves).
  destruct (evolves_fields _ _ Hevolves) as (Hdid & _ & Hkey & _).
  rewrite putCapabilities_unfold, Hsoul', Hfresh. unfold capabilities_signature_stage.
  rewrite Hdid, Hkey, Hsig. cbn [fst snd]. split; [done|].
  unfold updateSoulCapabilities. cbn [fst].
  destruct (updated_row db' (SoulRecord.did soul)
              (set_capabilities capabilities' riskLevel') soul')
    as (row & _ & ->); [done|by eapply resolveSoul_in|done|]. eauto.
Qed.

End Replays.

(** ** What an answer vouches for *)

Section Authorized.
Context `{Ed25519} `{Host}.

(** X18. A verification is sound. Whenever the verify route answers that
    a DID is verified, the table holds a challenge under the given id that is
    pending, was issued for that DID and has not run out, the path resolves
    to the soul of that DID, and the signature verifies over the nonce of the
    challenge under the public key of that soul. The answer then marks the
    challenge completed. *)
Theorem verified_answers_are_sound (db : RegistryDB) (now : Z)
    (didOrName challengeId signature did : string) (verifiedAt : Z) :
  snd (postVerify db now didOrName challengeId signature) = Verified did verifiedAt →
  verifiedAt = now
  ∧ ∃ c soul,
      getChallenge db challengeId = Some c
      ∧ Challenge.status c = pending
      ∧ Challenge.did c = did
      ∧ now ≤ Challenge.expiresAt c
      ∧ resolveSoul db didOrName = Some soul
      ∧ SoulRecord.did soul = did
      ∧ verifySignature (MsgString (Challenge.nonce c)) signature
          (SoulRecord.publicKey soul) = Ok true
      ∧ getChallenge (fst (postVerify db now didOrName challengeId signature))
          challengeId
        = Some (set_challenge_status completed c).
Proof.
  rewrite postVerify_unfold.
  destruct (getChallenge db challengeId) as [c|] eqn:Hc; [|done].
  destruct (Z.ltb_spec (Challenge.expiresAt c) now) as [|Hwindow]; [done|].
  destruct (bool_decide_reflect (Challenge.status c = pending)) as [Hpending|];
    cbn [negb]; [|done].
  destruct (resolveSoul db didOrName) as [soul|] eqn:Hsoul; [|done].
  destruct (String.eqb_spec (Challenge.did c) (SoulRecord.did soul)) as [Hdid|];
    cbn [negb]; [|done].
  destruct (verifySignature _ _ _) as [[|]|] eqn:Hsig; try done.
  cbn [fst snd]. intros [= <- <-]. split; [done|].
  exists c, soul. split_and!; try done.
  unfold incrementVerificationCount, update_where_did, getChallenge in *.
  cbn [challenges updateChallengeStatus]. by rewrite lookup_alter_eq, Hc.
Qed.

(** X19. Every change is authorized. Whenever a contact update, a
    capabilities update or a status change is answered as done, the path
    resolved to a soul, the answer names the DID of that soul, and the
    signature verified under the public key of that soul over the message of
    that request; for the two updates, the timestamp was not older than five
    minutes. *)
Theorem changes_are_authorized (db : RegistryDB) (now : Z) (didOrName : string) :
  (∀ contact signature timestamp did contact' updatedAt,
     snd (putContact db now didOrName contact signature timestamp)
     = ContactUpdated did contact' updatedAt →
     ∃ soul, resolveSoul db didOrName = Some soul
       ∧ Date_lt (Date_parse timestamp) (Some (now - fiveMinutes)) = false
       ∧ verifySignature
           (MsgString ("contact-update:" ++ SoulRecord.did soul ++ ":" ++ timestamp))
           signature (SoulRecord.publicKey soul) = Ok true
       ∧ did = SoulRecord.did soul ∧ contact' = contact ∧ updatedAt = now)
  ∧ (∀ capabilities riskLevel signature timestamp did capabilities' riskLevel'
       updatedAt,
       snd (putCapabilities db now didOrName capabilities riskLevel signature
              timestamp)
       = CapabilitiesUpdated did capabilities' riskLevel' updatedAt →
       ∃ soul, resolveSoul db didOrName = Some soul
         ∧ Date_lt (Date_parse timestamp) (Some (now - fiveMinutes)) = false
         ∧ verifySignature
             (MsgString ("capabilities-update:" ++ SoulRecord.did soul ++ ":"
                         ++ timestamp))
             signature (SoulRecord.publicKey soul) = Ok true
         ∧ did = SoulRecord.did soul ∧ capabilities' = capabilities
         ∧ riskLevel' = or_null riskLevel ∧ updatedAt = now)
  ∧ (∀ newStatus body did newStatus' changedAt,
       snd (updateStatus db now didOrName newStatus body)
       = StatusChanged did newStatus' changedAt →
       ∃ data soul,
         StatusUpdateSchema_safeParse body = Some data
         ∧ resolveSoul db didOrName = Some soul
         ∧ verifySignature
             (MsgString (SoulStatus_text newStatus ++ ":" ++ SoulRecord.did soul
                         ++ ":" ++ StatusUpdate.reason data))
             (StatusUpdate.signature data) (SoulRecord.publicKey soul) = Ok true
         ∧ did = SoulRecord.did soul ∧ newStatus' = newStatus ∧ changedAt = now).
Proof.
  split_and!.
  - intros contact signature timestamp did contact' updatedAt.
    apply putContact_accepted.
  - intros capabilities riskLevel signature timestamp did capabilities' riskLevel'
      updatedAt.
    apply putCapabilities_accepted.
  - intros newStatus body did newStatus' changedAt.
    rewrite updateStatus_unfold.
    destruct (StatusUpdateSchema_safeParse body) as [data|]; [|done].
    destruct (resolveSoul db didOrName) as [soul|]; [|done].
    destruct (verifySignature _ _ _) as [[|]|] eqn:Hsig; try done.
    intros [= <- <- <-]. by exists data, soul.
Qed.

End Authorized.

(** ** What a status gates *)

Lemma find_map_preserving {A} (P : A → bool) (g : A → A) (l : list A) :
  (∀ x, P (g x) = P x) → List.find P (map g l) = g <$> List.find P l.
Proof.
  intros HP. induction l as [|x l IH]; [done|].
  cbn. rewrite HP. by destruct (P x).
Qed.

Lemma existsb_map_preserving {A} (P : A → bool) (g : A → A) (l : list A) :
  (∀ x, P (g x) = P x) → existsb P (map g l) = existsb P l.
Proof.
  intros HP. induction l as [|x l IH]; [done|]. cbn. by rewrite HP, IH.
Qed.

Section Status.
Context `{Ed25519} `{Host}.

(** A store whose rows were changed by [g], which leaves DID, name and
    public key alone. *)
Lemma resolveSoul_map db db' g didOrName :
  (∀ r, evolves r (g r)) → souls db' = map g (souls db) →
  resolveSoul db' didOrName = g <$> resolveSoul db didOrName.
Proof.
  intros Hg Hsouls. unfold resolveSoul, getSoulByDid, getSoulByName.
  rewrite Hsouls.
  destruct (startsWith _ _); apply find_map_preserving; intros r;
    destruct (evolves_fields _ _ (Hg r)) as (Hdid & Hname & _);
    by rewrite ?Hdid, ?Hname.
Qed.

Lemma answers_after_row_changes db db' g :
  (∀ r, evolves r (g r)) → souls db' = map g (souls db) →
  challenges db' = challenges db →
  (∀ now didOrName random16 random32,
     snd (postChallenge db' now didOrName random16 random32)
     = snd (postChallenge db now didOrName random16 random32))
  ∧ (∀ now didOrName challengeId signature,
       snd (postVerify db' now didOrName challengeId signature)
       = snd (postVerify db now didOrName challengeId signature))
  ∧ (∀ now didOrName contact signature timestamp,
       snd (putContact db' now didOrName contact signature timestamp)
       = snd (putContact db now didOrName contact signature timestamp))
  ∧ (∀ now didOrName capabilities riskLevel signature timestamp,
       snd (putCapabilities db' now didOrName capabilities riskLevel signature
              timestamp)
       = snd (putCapabilities db now didOrName capabilities riskLevel signature
                timestamp))
  ∧ (∀ now didOrName newStatus body,
       snd (updateStatus db' now didOrName newStatus body)
       = snd (updateStatus db now didOrName newStatus body))
  ∧ (∀ now d signature,
       snd (register db' now d signature) = snd (register db now d signature)).
Proof.
  intros Hg Hsouls Hchallenges.
  assert (Hresolve : ∀ didOrName,
            match resolveSoul db didOrName, resolveSoul db' didOrName with
            | Some soul, Some soul' =>
                SoulRecord.did soul' = SoulRecord.did soul
                ∧ SoulRecord.publicKey soul' = SoulRecord.publicKey soul
            | None, None => True
            | _, _ => False
            end).
  { intros didOrName. rewrite (resolveSoul_map db db' g) by done.
    destruct (resolveSoul db didOrName) as [soul|]; [|done]. cbn.
    by destruct (evolves_fields _ _ (Hg soul)) as (-> & _ & -> & _). }
  split_and!.
  - intros now didOrName random16 random32. unfold postChallenge.
    specialize (Hresolve didOrName).
    destruct (resolveSoul db didOrName) as [soul|],
             (resolveSoul db' didOrName) as [soul'|]; try done.
    unfold createChallenge. cbn [Challenge.challengeId]. rewrite Hchallenges.
    by destruct (challenges db !! _).
  - intros now didOrName challengeId signature. rewrite !postVerify_unfold.
    unfold getChallenge. rewrite Hchallenges.
    destruct (challenges db !! challengeId) as [challenge|]; [|done].
    destruct (_ <? _); [done|]. destruct (negb (bool_decide _)); [done|].
    specialize (Hresolve didOrName).
    destruct (resolveSoul db didOrName) as [soul|],
             (resolveSoul db' didOrName) as [soul'|]; try done.
    destruct Hresolve as (-> & ->).
    destruct (negb (String.eqb _ _)); [done|].
    by destruct (verifySignature _ _ _) as [[|]|].
  - intros now didOrName contact signature timestamp. rewrite !putContact_unfold.
    specialize (Hresolve didOrName).
    destruct (resolveSoul db didOrName) as [soul|],
             (resolveSoul db' didOrName) as [soul'|]; try done.
    destruct Hresolve as (Hdid & Hkey).
    destruct (Date_lt _ _); [done|]. unfold contact_signature_stage.
    rewrite Hdid, Hkey. by destruct (verifySignature _ _ _) as [[|]|].
  - intros now didOrName capabilities riskLevel signature timestamp.
    rewrite !putCapabilities_unfold.
    specialize (Hresolve didOrName).
    destruct (resolveSoul db didOrName) as [soul|],
             (resolveSoul db' didOrName) as [soul'|]; try done.
    destruct Hresolve as (Hdid & Hkey).
    destruct (Date_lt _ _); [done|]. unfold capabilities_signature_stage.
    rewrite Hdid, Hkey. by destruct (verifySignature _ _ _) as [[|]|].
  - intros now didOrName newStatus body. rewrite !updateStatus_unfold.
    destruct (StatusUpdateSchema_safeParse body) as [data|]; [|done].
    specialize (Hresolve didOrName).
    destruct (resolveSoul db didOrName) as [soul|],
             (resolveSoul db' didOrName) as [soul'|]; try done.
    destruct Hresolve as (-> & ->).
    by destruct (verifySignature _ _ _) as [[|]|].
  - intros now d signature. rewrite !register_unfold.
    destruct (negb _); [done|].
    assert (Hname : getSoulByName db' (SoulDocument.name d)
                    = g <$> getSoulByName db (SoulDocument.name d)).
    { unfold getSoulByName. rewrite Hsouls. apply find_map_preserving.
      intros r. by destruct (evolves_fields _ _ (Hg r)) as (_ & -> & _). }
    rewrite Hname. destruct (getSoulByName db _); [done|]. cbn.
    destruct (hashSoulDocument _); [|done].
    destruct (verifySignature _ _ _) as [[|]|]; try done.
    assert (Hunique : violates_unique db' d = violates_unique db d).
    { unfold violates_unique. rewrite Hsouls. apply existsb_map_preserving.
      intros r. by destruct (evolves_fields _ _ (Hg r)) as (-> & -> & _). }
    rewrite Hunique. by destruct (violates_unique db d).
Qed.

Lemma updateStatus_souls db now didOrName newStatus body :
  challenges (fst (updateStatus db now didOrName newStatus body)) = challenges db
  ∧ ∃ g, (∀ r, evolves r (g r))
      ∧ souls (fst (updateStatus db now didOrName newStatus body))
        = map g (souls db).
Proof.
  split; [apply updateStatus_challenges|].
  assert (Hsame : ∃ g, (∀ r, evolves r (g r)) ∧ souls db = map g (souls db)).
  { exists (fun r => r). split; [apply evolves_refl|]. by rewrite map_id. }
  rewrite updateStatus_unfold.
  destruct (StatusUpdateSchema_safeParse body); [|done].
  destruct (resolveSoul _ _); [|done].
  destruct (verifySignature _ _ _) as [[|]|]; try done.
  eexists. split; [|reflexivity].
  intros r. apply evolves_where_did, evolves_set_status.
Qed.

(** X20. The status of a soul gates nothing: once a soul is suspended or
    revoked, the registry answers every request that writes as it answered
    before; the soul is still issued challenges and verified, its contact
    and capabilities are still updated, and its status is still changed. *)
Theorem status_gates_nothing (db : RegistryDB) (changedAt : Z) (changed : string)
    (status : SoulStatus) (request : json) :
  let db' := fst (updateStatus db changedAt changed status request) in
  (∀ now didOrName random16 random32,
     snd (postChallenge db' now didOrName random16 random32)
     = snd (postChallenge db now didOrName random16 random32))
  ∧ (∀ now didOrName challengeId signature,
       snd (postVerify db' now didOrName challengeId signature)
       = snd (postVerify db now didOrName challengeId signature))
  ∧ (∀ now didOrName contact signature timestamp,
       snd (putContact db' now didOrName contact signature timestamp)
       = snd (putContact db now didOrName contact signature timestamp))
  ∧ (∀ now didOrName capabilities riskLevel signature timestamp,
       snd (putCapabilities db' now didOrName capabilities riskLevel signature
              timestamp)
       = snd (putCapabilities db now didOrName capabilities riskLevel signature
                timestamp))
  ∧ (∀ now didOrName newStatus body,
       snd (updateStatus db' now didOrName newStatus body)
       = snd (updateStatus db now didOrName newStatus body))
  ∧ (∀ now d signature,
       snd (register db' now d signature) = snd (register db now d signature)).
Proof.
  intros db'.
  destruct (updateStatus_souls db changedAt changed status request)
    as (Hchallenges & g & Hg & Hsouls).
  by apply (answers_after_row_changes db db' g).
Qed.

(** X21. A request that is refused writes nothing, with one exception: a
    verification that comes after the window of its challenge. Every other
    error answer of the six routes leaves the store as the request found
    it. *)
Theorem refusals_write_nothing (db : RegistryDB) (now : Z) (code : error_code) :
  code ≠ CHALLENGE_EXPIRED →
  (∀ d signature,
     snd (register db now d signature) = Error code →
     fst (register db now d signature) = db)
  ∧ (∀ didOrName contact signature timestamp,
       snd (putContact db now didOrName contact signature timestamp) = Error code →
       fst (putContact db now didOrName contact signature timestamp) = db)
  ∧ (∀ didOrName capabilities riskLevel signature timestamp,
       snd (putCapabilities db now didOrName capabilities riskLevel signature
              timestamp) = Error code →
       fst (putCapabilities db now didOrName capabilities riskLevel signature
              timestamp) = db)
  ∧ (∀ didOrName random16 random32,
       snd (postChallenge db now didOrName random16 random32) = Error code →
       fst (postChallenge db now didOrName random16 random32) = db)
  ∧ (∀ didOrName challengeId signature,
       snd (postVerify db now didOrName challengeId signature) = Error code →
       fst (postVerify db now didOrName challengeId signature) = db)
  ∧ (∀ didOrName newStatus body,
       snd (updateStatus db now didOrName newStatus body) = Error code →
       fst (updateStatus db now didOrName newStatus body) = db).
Proof.
  intros Hcode. split_and!.
  - intros d signature. rewrite register_unfold.
    destruct (negb _); [done|]. destruct (getSoulByName _ _); [done|].
    destruct (hashSoulDocument _); [|done].
    destruct (verifySignature _ _ _) as [[|]|]; try done.
    by destruct (violates_unique db d).
  - intros didOrName contact signature timestamp. rewrite putContact_unfold.
    destruct (resolveSoul _ _); [|done]. destruct (Date_lt _ _); [done|].
    unfold contact_signature_stage.
    by destruct (verifySignature _ _ _) as [[|]|].
  - intros didOrName capabilities riskLevel signature timestamp.
    rewrite putCapabilities_unfold.
    destruct (resolveSoul _ _); [|done]. destruct (Date_lt _ _); [done|].
    unfold capabilities_signature_stage.
    by destruct (verifySignature _ _ _) as [[|]|].
  - intros didOrName random16 random32. unfold postChallenge.
    destruct (resolveSoul _ _); [|done].
    by destruct (createChallenge _ _).
  - intros didOrName challengeId signature. rewrite postVerify_unfold.
    destruct (getChallenge _ _); [|done].
    destruct (_ <? _); [cbn; congruence|].
    destruct (negb (bool_decide _)); [done|].
    destruct (resolveSoul _ _); [|done].
    destruct (negb (String.eqb _ _)); [done|].
    by destruct (verifySignature _ _ _) as [[|]|].
  - intros didOrName newStatus body. rewrite updateStatus_unfold.
    destruct (StatusUpdateSchema_safeParse _); [|done].
    destruct (resolveSoul _ _); [|done].
    by destruct (verifySignature _ _ _) as [[|]|].
Qed.

End Status.

(** ** The table of challenges over a sequence of requests *)

Section Lifecycle.
Context `{Ed25519} `{Host}.

(** What one request does to the table of challenges: nothing, or it adds a
    pending challenge under a fresh id for a soul of the table, or it marks
    a challenge expired, or it marks a pending challenge completed, or it
    sweeps. *)
Lemma step_challenges db event :
  challenges (step db event) = challenges db
  ∨ (∃ c soul, challenges db !! Challenge.challengeId c = None
       ∧ In soul (souls db) ∧ Challenge.did c = SoulRecord.did soul
       ∧ Challenge.status c = pending
       ∧ Challenge.issuedAt c = fst event
       ∧ Challenge.expiresAt c = fst event + fiveMinutes
       ∧ challenges (step db event)
         = <[Challenge.challengeId c := c]> (challenges db))
  ∨ (∃ challengeId,
       challenges (step db event)
       = alter (set_challenge_status expired) challengeId (challenges db))
  ∨ (∃ challengeId c, challenges db !! challengeId = Some c
       ∧ Challenge.status c = pending
       ∧ challenges (step db event)
         = alter (set_challenge_status completed) challengeId (challenges db))
  ∨ challenges (step db event)
    = filter (fun kc => swept (fst event) (snd kc) = false) (challenges db).
Proof.
  destruct event as [now event]. unfold step. cbn [fst snd]. destruct event.
  - left. apply register_challenges.
  - left. apply putContact_challenges.
  - left. apply putCapabilities_challenges.
  - unfold postChallenge.
    destruct (resolveSoul db didOrName) as [soul|] eqn:Hsoul; [|by left].
    unfold createChallenge. cbn [Challenge.challengeId].
    destruct (challenges db !! generateChallengeId random16) eqn:Hfresh; [by left|].
    right. left.
    exists {| Challenge.challengeId := generateChallengeId random16;
              Challenge.did := SoulRecord.did soul;
              Challenge.nonce := generateNonce random32;
              Challenge.issuedAt := now;
              Challenge.expiresAt := now + fiveMinutes;
              Challenge.status := pending |}, soul.
    split; [exact Hfresh|]. split; [by eapply resolveSoul_in|]. done.
  - rewrite postVerify_unfold. unfold getChallenge.
    destruct (challenges db !! challengeId) as [challenge|] eqn:Hchallenge;
      [|by left].
    destruct (_ <? _); [right; right; left; by exists challengeId|].
    destruct (bool_decide_reflect (Challenge.status challenge = pending))
      as [Hpending|]; cbn [negb]; [|by left].
    destruct (resolveSoul _ _); [|by left].
    destruct (negb (String.eqb _ _)); [by left|].
    destruct (verifySignature _ _ _) as [[|]|]; try (by left).
    right. right. right. left. by exists challengeId, challenge.
  - left. apply updateStatus_challenges.
  - by right; right; right; right.
Qed.

(** [c'] is [c] after it has left the pending state. *)
Lemma settled_step db event challengeId c :
  getChallenge db challengeId = Some c →
  Challenge.status c ≠ pending →
  ∃ c', getChallenge (step db event) challengeId = Some c'
    ∧ c' = set_challenge_status (Challenge.status c') c
    ∧ Challenge.status c' ≠ pending
    ∧ (Challenge.status c = expired → c' = c).
Proof.
  unfold getChallenge. intros Hc Hsettled.
  assert (Hsame : ∃ c', Some c = Some c'
            ∧ c' = set_challenge_status (Challenge.status c') c
            ∧ Challenge.status c' ≠ pending
            ∧ (Challenge.status c = expired → c' = c)).
  { exists c. split_and!; try done. by destruct c. }
  destruct (step_challenges db event)
    as [->|[(c0 & soul & Hfresh & _ & _ & _ & _ & _ & ->)
           |[(id & ->)|[(id & c0 & Hc0 & Hpending & ->)| ->]]]].
  - by rewrite Hc.
  - rewrite lookup_insert_ne by congruence. by rewrite Hc.
  - destruct (decide (id = challengeId)) as [->|Hne].
    + rewrite lookup_alter_eq, Hc. cbn. eexists. split; [reflexivity|].
      split_and!; try done. intros Hexpired. destruct c. cbn in *. by subst.
    + rewrite lookup_alter_ne by done. by rewrite Hc.
  - rewrite lookup_alter_ne by congruence. by rewrite Hc.
  - rewrite (map_lookup_filter_Some_2 _ _ challengeId c); [done..|].
    cbn. unfold swept. rewrite bool_decide_eq_false_2 by done. apply andb_false_r.
Qed.

(** X22. A challenge that was completed or marked expired is settled for
    good: after any sequence of requests it is still in the table under its
    id, with the DID, the nonce and the window it was issued with, it is not
    pending, and if it was expired it is as it was. It is never removed, and
    its id is never given to another challenge. *)
Theorem settled_challenge_stays (db : RegistryDB) (events : list (Z * event))
    (challengeId : string) (c : Challenge.t) :
  getChallenge db challengeId = Some c →
  Challenge.status c ≠ pending →
  ∃ c', getChallenge (run db events) challengeId = Some c'
    ∧ c' = set_challenge_status (Challenge.status c') c
    ∧ Challenge.status c' ≠ pending
    ∧ (Challenge.status c = expired → c' = c).
Proof.
  revert db c. induction events as [|event events IH]; intros db c Hc Hsettled.
  - exists c. split_and!; try done. by destruct c.
  - destruct (settled_step db event challengeId c Hc Hsettled)
      as (c1 & Hc1 & Hfields1 & Hsettled1 & Hexpired1).
    destruct (IH _ _ Hc1 Hsettled1) as (c2 & Hc2 & Hfields2 & Hsettled2 & Hexpired2).
    exists c2. split; [exact Hc2|]. split_and!; [|done|].
    + rewrite Hfields2 at 1. rewrite Hfields1. reflexivity.
    + intros Hexpired. rewrite <- (Hexpired1 Hexpired).
      apply Hexpired2. by rewrite (Hexpired1 Hexpired).
Qed.

Lemma getSoulByDid_is_Some_grows db db' did :
  grows db db' → is_Some (getSoulByDid db did) → is_Some (getSoulByDid db' did).
Proof.
  intros Hgrows [r Hr].
  destruct (getSoulByDid_grows _ _ _ _ Hgrows Hr) as (r' & -> & _). eauto.
Qed.

Lemma challenges_refer_step db event :
  challenges_refer db → challenges_refer (step db event).
Proof.
  intros Hdb id c. unfold getChallenge.
  assert (Hold : ∀ c0, challenges db !! id = Some c0 →
            Challenge.challengeId c0 = id
            ∧ is_Some (getSoulByDid (step db event) (Challenge.did c0))
            ∧ Challenge.expiresAt c0 = Challenge.issuedAt c0 + fiveMinutes).
  { intros c0 Hc0. destruct (Hdb id c0 Hc0) as (Hid & Hsoul & Hwindow).
    split_and!; [done| |done].
    eapply getSoulByDid_is_Some_grows; [apply grows_step|done]. }
  destruct (step_challenges db event)
    as [->|[(c0 & soul & Hfresh & Hsoul & Hdid & _ & Hissued & Hexpires & ->)
           |[(id' & ->)|[(id' & c0 & Hc0 & Hpending & ->)| ->]]]].
  - apply Hold.
  - destruct (decide (Challenge.challengeId c0 = id)) as [<-|Hne].
    + rewrite lookup_insert_eq. intros [= <-]. split_and!; [done| |lia].
      eapply getSoulByDid_is_Some_grows; [apply grows_step|].
      rewrite Hdid. by apply getSoulByDid_of_member.
    + rewrite lookup_insert_ne by done. apply Hold.
  - destruct (decide (id' = id)) as [->|Hne].
    + rewrite lookup_alter_eq.
      destruct (challenges db !! id) as [c1|] eqn:Hc1; [|done].
      intros [= <-]. cbn. by apply Hold.
    + rewrite lookup_alter_ne by done. apply Hold.
  - destruct (decide (id' = id)) as [->|Hne].
    + rewrite lookup_alter_eq.
      destruct (challenges db !! id) as [c1|] eqn:Hc1; [|done].
      intros [= <-]. cbn. by apply Hold.
    + rewrite lookup_alter_ne by done. apply Hold.
  - intros (Hc & _)%map_lookup_filter_Some. by apply Hold.
Qed.

(** X23. Every challenge of the table belongs to a soul of the table, is
    stored under its own id and has a window of five minutes, and this stays
    so through any sequence of requests. *)
Theorem challenges_keep_referring (db : RegistryDB) (events : list (Z * event)) :
  challenges_refer db → challenges_refer (run db events).
Proof.
  revert db. induction events as [|event events IH]; intros db Hdb; [done|].
  by apply IH, challenges_refer_step.
Qed.

End Lifecycle.

(** ** Issuing and completing a challenge *)

Section Protocol.
Context `{Ed25519} `{Host}.

Lemma resolveSoul_same_souls db db' didOrName :
  souls db' = souls db → resolveSoul db' didOrName = resolveSoul db didOrName.
Proof.
  intros Hsouls. unfold resolveSoul, getSoulByDid, getSoulByName. by rewrite Hsouls.
Qed.

(** X24. The protocol end to end. A challenge that was issued is in the
    table, pending, for the DID of the soul that asked, with a window of five
    minutes, and issuing it touched nothing else. Until the window closes, a
    signature of the nonce that verifies under the soul's key completes the
    challenge and counts one more verification for the soul; a signature
    that does not verify leaves everything as it is, the challenge still
    pending. *)
Theorem issued_challenge_verifies (db : RegistryDB) (now : Z) (didOrName : string)
    (random16 random32 : list Byte.byte) (challengeId nonce : string)
    (expiresAt : Z) :
  snd (postChallenge db now didOrName random16 random32)
  = ChallengeIssued challengeId nonce expiresAt →
  let db' := fst (postChallenge db now didOrName random16 random32) in
  challengeId = generateChallengeId random16
  ∧ nonce = generateNonce random32
  ∧ expiresAt = now + fiveMinutes
  ∧ souls db' = souls db
  ∧ getChallenge db challengeId = None
  ∧ (∀ other, other ≠ challengeId → getChallenge db' other = getChallenge db other)
  ∧ ∃ soul,
      resolveSoul db didOrName = Some soul
      ∧ getChallenge db' challengeId
        = Some {| Challenge.challengeId := challengeId;
                  Challenge.did := SoulRecord.did soul;
                  Challenge.nonce := nonce;
                  Challenge.issuedAt := now;
                  Challenge.expiresAt := expiresAt;
                  Challenge.status := pending |}
      ∧ ∀ now' signature, now' ≤ expiresAt →
          let out := postVerify db' now' didOrName challengeId signature in
          (verifySignature (MsgString nonce) signature (SoulRecord.publicKey soul)
           = Ok true →
           snd out = Verified (SoulRecord.did soul) now'
           ∧ (Challenge.status <$> getChallenge (fst out) challengeId)
             = Some completed
           ∧ ∃ row, getSoulByDid db (SoulRecord.did soul) = Some row
               ∧ getSoulByDid (fst out) (SoulRecord.did soul)
                 = Some (set_verified now' row))
          ∧ (verifySignature (MsgString nonce) signature (SoulRecord.publicKey soul)
             = Ok false →
             out = (db', Error INVALID_SIGNATURE)).
Proof.
  unfold postChallenge.
  destruct (resolveSoul db didOrName) as [soul|] eqn:Hsoul; [|done].
  unfold createChallenge. cbn [Challenge.challengeId].
  destruct (challenges db !! generateChallengeId random16) eqn:Hfresh; [done|].
  cbn [fst snd]. intros Hissued. injection Hissued as <- <- <-.
  split_and!; try done.
  { intros other Hother. unfold getChallenge. cbn [challenges].
    by rewrite lookup_insert_ne. }
  exists soul. split; [done|].
  assert (Hlookup : ∀ souls0 : list SoulRecord.t,
            getChallenge
              (Db.Build souls0
                 (<[generateChallengeId random16 :=
                      {| Challenge.challengeId := generateChallengeId random16;
                         Challenge.did := SoulRecord.did soul;
                         Challenge.nonce := generateNonce random32;
                         Challenge.issuedAt := now;
                         Challenge.expiresAt := now + fiveMinutes;
                         Challenge.status := pending |}]> (challenges db)))
              (generateChallengeId random16)
            = Some {| Challenge.challengeId := generateChallengeId random16;
                      Challenge.did := SoulRecord.did soul;
                      Challenge.nonce := generateNonce random32;
                      Challenge.issuedAt := now;
                      Challenge.expiresAt := now + fiveMinutes;
                      Challenge.status := pending |}).
  { intros souls0. unfold getChallenge. cbn [challenges]. apply lookup_insert_eq. }
  split; [apply Hlookup|].
  intros now' signature Hwindow.
  rewrite postVerify_unfold, Hlookup.
  cbn [Challenge.expiresAt Challenge.status Challenge.did Challenge.nonce].
  replace (now + fiveMinutes <? now') with false by (symmetry; apply Z.ltb_ge; lia).
  rewrite bool_decide_eq_true_2 by done. cbn [negb].
  rewrite (resolveSoul_same_souls db) by done. rewrite Hsoul, String.eqb_refl.
  cbn [negb]. split; intros ->; [|done].
  cbn [fst snd]. split; [done|]. split.
  - unfold incrementVerificationCount, update_where_did, getChallenge.
    cbn [challenges updateChallengeStatus].
    by rewrite lookup_alter_eq, lookup_insert_eq.
  - unfold incrementVerificationCount.
    destruct (updated_row db (SoulRecord.did soul) (set_verified now') soul)
      as (row & Hrow & Hrow'); [done|by eapply resolveSoul_in|done|].
    exists row. split; [done|]. exact Hrow'.
Qed.

(** X25. The sweep removes pending challenges only and touches no soul;
    what it reports is the number of challenges it removed, and a second
    sweep at the same moment finds nothing to remove. *)
Theorem sweep_removes_pending_only (db : RegistryDB) (now : Z) :
  let out := cleanExpiredChallenges db now in
  souls (fst out) = souls db
  ∧ (∀ challengeId c, getChallenge db challengeId = Some c →
       getChallenge (fst out) challengeId
       = if swept now c then None else Some c)
  ∧ (∀ challengeId c, getChallenge db challengeId = Some c →
       Challenge.status c ≠ pending → getChallenge (fst out) challengeId = Some c)
  ∧ (∀ challengeId, getChallenge db challengeId = None →
       getChallenge (fst out) challengeId = None)
  ∧ snd out
    = Z.of_nat (size (filter (fun kc => swept now (snd kc) = true) (challenges db)))
  ∧ cleanExpiredChallenges (fst out) now = (fst out, 0).
Proof.
  unfold cleanExpiredChallenges, getChallenge. cbn [fst snd souls challenges].
  assert (Hlookup : ∀ challengeId c, challenges db !! challengeId = Some c →
            filter (fun kc => swept now (snd kc) = false) (challenges db)
              !! challengeId
            = if swept now c then None else Some c).
  { intros challengeId c Hc. destruct (swept now c) eqn:Hswept.
    - apply map_lookup_filter_None_2. right. intros c' Hc'. cbn. congruence.
    - by apply map_lookup_filter_Some_2. }
  split_and!; [done|exact Hlookup| | | |].
  - intros challengeId c Hc Hsettled. rewrite (Hlookup _ _ Hc).
    unfold swept. rewrite bool_decide_eq_false_2 by done. by rewrite andb_false_r.
  - intros challengeId Hnone. apply map_lookup_filter_None_2. by left.
  - rewrite <- (map_filter_union_complement
                  (fun kc => swept now (snd kc) = false) (challenges db)) at 1.
    rewrite map_size_disj_union by apply map_disjoint_filter_complement.
    rewrite Nat2Z.inj_add.
    replace (filter (fun v => ¬ swept now (snd v) = false) (challenges db))
      with (filter (fun kc => swept now (snd kc) = true) (challenges db)); [lia|].
    apply map_filter_ext. intros challengeId c _. cbn. by destruct (swept now c).
  - f_equal.
    + f_equal. apply map_eq. intros challengeId. apply option_eq. intros c.
      rewrite !map_lookup_filter_Some. tauto.
    + replace (filter (fun kc => swept now (snd kc) = false)
                 (filter (fun kc => swept now (snd kc) = false) (challenges db)))
        with (filter (fun kc => swept now (snd kc) = false) (challenges db)); [lia|].
      apply map_eq. intros challengeId. apply option_eq. intros c.
      rewrite !map_lookup_filter_Some. tauto.
Qed.

End Protocol.

(** ** Names within the schema *)

Import Patterns.

Lemma name_unit_lower c : name_unit c = true → lower_unit c = Db.sql_lower_unit c.
Proof. destruct c as [[] [] [] [] [] [] [] []]; try reflexivity; discriminate. Qed.

Lemma name_units_lower s : name_units s = true → toLowerCase s = LOWER s.
Proof.
  unfold toLowerCase, LOWER. induction s as [|c s IH]; [done|].
  cbn. intros [Hc Hs]%andb_prop. by rewrite (name_unit_lower c Hc), IH.
Qed.

Lemma name_pattern_lower s : name_pattern s = true → toLowerCase s = LOWER s.
Proof. destruct s; [done|]. apply name_units_lower. Qed.

Section Names.
Context `{Ed25519} `{Host}.

Lemma InFlight_register_unfold db db' now d signature :
  InFlight.register db db' now d signature =
  if negb (String.eqb (toLowerCase (SoulDocument.did d))
                      ("did:soul:" ++ toLowerCase (SoulDocument.name d)))
  then (db, Error DID_MISMATCH)
  else match getSoulByName db (SoulDocument.name d) with
       | Some _ => (db, Error NAME_TAKEN)
       | None =>
           match hashSoulDocument (SoulDocument_json d) with
           | Throw _ => (db, Error INTERNAL_ERROR)
           | Ok docHash =>
               match verifySignature (MsgString docHash) signature
                       (SoulDocument.publicKey d) with
               | Ok true =>
                   if violates_unique db' d then (db', Error INTERNAL_ERROR)
                   else (Db.Build (souls db'
                                   ++ [inserted_row (candidate now d)
                                         (Z.of_nat (length (souls db')) + 1)])
                                  (challenges db'),
                         Registered (SoulDocument.did d) now)
               | _ => (db', Error INVALID_SIGNATURE)
               end
           end
       end.
Proof.
  unfold InFlight.register, catch_internal.
  destruct (negb _); [reflexivity|].
  destruct (getSoulByName db (SoulDocument.name d)); [reflexivity|].
  destruct (hashSoulDocument (SoulDocument_json d)) as [docHash|]; [|reflexivity].
  unfold mbind, result_bind.
  destruct (verifySignature_total (MsgString docHash) signature
              (SoulDocument.publicKey d)) as [[|] ->]; simpl; [|reflexivity].
  unfold createSoul, candidate. simpl.
  destruct (violates_unique db' d); reflexivity.
Qed.

(** With names as the schema admits them, a clash at the INSERT is a clash
    of names. *)
Lemma clash_is_of_names db d :
  well_named db →
  name_pattern (SoulDocument.name d) = true →
  toLowerCase (SoulDocument.did d) = "did:soul:" ++ toLowerCase (SoulDocument.name d) →
  violates_unique db d = true ↔ Table.holds_name db (SoulDocument.name d).
Proof.
  intros Hdb Hname Hdid. rewrite violates_unique_holds. split; [|by right].
  intros [(r & Hin & Heq)|Hrow]; [|done].
  exists r. split; [done|].
  destruct (Hdb r Hin) as (Hpattern & Hrow).
  rewrite Heq, Hdid in Hrow. cbn in Hrow.
  rewrite <- (name_pattern_lower _ Hpattern), <- (name_pattern_lower _ Hname).
  by simplify_eq.
Qed.

(** X26. An internal error at the register route needs a race. The handler
    awaits the signature check between its name check and its INSERT. With
    names as the schema admits them, the route answers INTERNAL_ERROR
    exactly when the request passed the DID check, its name was free at the
    name check, its signature verifies, and a row holds the name, up to the
    case of the letters, by the time of the INSERT: another registration of
    that name went through while this one waited. A registration that no
    request overtakes is never answered with an internal error, and the
    rows stay as the schema leaves them. *)
Theorem internal_error_needs_a_race (db db' : RegistryDB) (now : Z)
    (d : SoulDocument.t) (signature : string) :
  well_named db' →
  name_pattern (SoulDocument.name d) = true →
  (∀ store, InFlight.register store store now d signature
            = register store now d signature)
  ∧ (snd (InFlight.register db db' now d signature) = Error INTERNAL_ERROR
     ↔ toLowerCase (SoulDocument.did d)
       = "did:soul:" ++ toLowerCase (SoulDocument.name d)
       ∧ ¬ Table.holds_name db (SoulDocument.name d)
       ∧ (∃ docHash, hashSoulDocument (SoulDocument_json d) = Ok docHash
           ∧ verifySignature (MsgString docHash) signature
               (SoulDocument.publicKey d) = Ok true)
       ∧ Table.holds_name db' (SoulDocument.name d))
  ∧ snd (register db' now d signature) ≠ Error INTERNAL_ERROR
  ∧ (well_named db →
     well_named (fst (InFlight.register db db' now d signature))).
Proof.
  intros Hdb' Hname.
  assert (Hsame : ∀ store, InFlight.register store store now d signature
                           = register store now d signature).
  { intros store. by rewrite InFlight_register_unfold, register_unfold. }
  assert (Hrace : ∀ db0,
            snd (InFlight.register db0 db' now d signature) = Error INTERNAL_ERROR
            ↔ toLowerCase (SoulDocument.did d)
              = "did:soul:" ++ toLowerCase (SoulDocument.name d)
              ∧ ¬ Table.holds_name db0 (SoulDocument.name d)
              ∧ (∃ docHash, hashSoulDocument (SoulDocument_json d) = Ok docHash
                  ∧ verifySignature (MsgString docHash) signature
                      (SoulDocument.publicKey d) = Ok true)
              ∧ Table.holds_name db' (SoulDocument.name d)).
  { intros db0. rewrite InFlight_register_unfold.
    pose proof (getSoulByName_holds_name db0 (SoulDocument.name d)) as Hheld.
    destruct (String.eqb_spec (toLowerCase (SoulDocument.did d))
                ("did:soul:" ++ toLowerCase (SoulDocument.name d))) as [Hdid|];
      cbn [negb]; [|by split; [|intros (? & _)]].
    pose proof (clash_is_of_names db' d Hdb' Hname Hdid) as Hclash.
    destruct (getSoulByName db0 (SoulDocument.name d)) eqn:Hfree.
    { split; [done|]. intros (_ & Hnone & _). destruct Hnone. apply Hheld. eauto. }
    assert (Hnone : ¬ Table.holds_name db0 (SoulDocument.name d)).
    { intros Hrow. apply Hheld in Hrow as [? ?]. done. }
    destruct (hashSoulDocument_document d) as [docHash Hhash]. rewrite Hhash.
    destruct (verifySignature _ _ _) as [[|]|] eqn:Hsig.
    - destruct (violates_unique db' d) eqn:Hunique.
      + split; [|done]. intros _. split_and!; [done|done|eauto|by apply Hclash].
      + split; [done|]. intros (_ & _ & _ & Hrow).
        apply Hclash in Hrow. congruence.
    - split; [done|]. intros (_ & _ & (h & [= <-] & Htrue) & _). congruence.
    - split; [done|]. intros (_ & _ & (h & [= <-] & Htrue) & _). congruence. }
  split; [exact Hsame|]. split; [apply Hrace|]. split.
  - rewrite <- Hsame. intros (_ & Hfree & _ & Hrow)%Hrace. done.
  - intros Hdb. rewrite InFlight_register_unfold.
    destruct (String.eqb_spec (toLowerCase (SoulDocument.did d))
                ("did:soul:" ++ toLowerCase (SoulDocument.name d))) as [Hdid|];
      cbn [negb]; [|done].
    destruct (getSoulByName db (SoulDocument.name d)); [done|].
    destruct (hashSoulDocument _); [|done].
    destruct (verifySignature _ _ _) as [[|]|]; try done.
    destruct (violates_unique db' d); [done|].
    cbn [fst souls]. intros r [Hin|[<-|[]]]%in_app_or; [by apply Hdb'|].
    cbn. done.
Qed.

End Names.

(** ** What the counters count *)

Section Counters.
Context `{Ed25519} `{Host}.

Lemma getSoulByDid_same_souls db db' did :
  souls db' = souls db → getSoulByDid db' did = getSoulByDid db did.
Proof. intros Hsouls. unfold getSoulByDid. by rewrite Hsouls. Qed.

Lemma find_app_found {A} (P : A → bool) (l l' : list A) (x : A) :
  List.find P l = Some x → List.find P (l ++ l')%list = Some x.
Proof.
  induction l as [|y l IH]; [done|]. cbn. destruct (P y); [done | exact IH].
Qed.

(** The row of [did] after an UPDATE of the rows of [did']. *)
Lemma counters_of_update db did did' (set : SoulRecord.t → SoulRecord.t) r
    (verified changed : Z) :
  (∀ r, SoulRecord.did (set r) = SoulRecord.did r) →
  (∀ r, SoulRecord.verificationCount (set r)
        = SoulRecord.verificationCount r + verified) →
  (∀ r, SoulRecord._version (set r) = SoulRecord._version r + changed) →
  getSoulByDid db did = Some r →
  ∃ r', getSoulByDid (update_where_did db did' set) did = Some r'
    ∧ SoulRecord.verificationCount r'
      = SoulRecord.verificationCount r
        + (if String.eqb did' did then verified else 0)
    ∧ SoulRecord._version r'
      = SoulRecord._version r + (if String.eqb did' did then changed else 0).
Proof.
  intros Hdid Hverified Hchanged Hr.
  rewrite getSoulByDid_update, Hr by done. cbn.
  rewrite (getSoulByDid_did _ _ _ Hr), String.eqb_sym.
  eexists. split; [reflexivity|].
  destruct (String.eqb did' did); [by rewrite Hverified, Hchanged | lia].
Qed.

Lemma counters_step db event did r :
  getSoulByDid db did = Some r →
  ∃ r', getSoulByDid (step db event) did = Some r'
    ∧ SoulRecord.verificationCount r'
      = SoulRecord.verificationCount r
        + (if verifies did (answer db event) then 1 else 0)
    ∧ SoulRecord._version r'
      = SoulRecord._version r + (if changes did (answer db event) then 1 else 0).
Proof.
  intros Hr.
  assert (Hsame : ∀ db', souls db' = souls db →
            ∃ r', getSoulByDid db' did = Some r'
              ∧ SoulRecord.verificationCount r' = SoulRecord.verificationCount r + 0
              ∧ SoulRecord._version r' = SoulRecord._version r + 0).
  { intros db' Hsouls. exists r. rewrite (getSoulByDid_same_souls db db') by done.
    split_and!; [done|lia..]. }
  destruct event as [now event]. unfold step, answer. cbn [fst snd]. destruct event.
  - rewrite register_unfold.
    destruct (negb _); [by apply Hsame|].
    destruct (getSoulByName _ _); [by apply Hsame|].
    destruct (hashSoulDocument _); [|by apply Hsame].
    destruct (verifySignature _ _ _) as [[|]|]; try (by apply Hsame).
    destruct (violates_unique db soulDocument); [by apply Hsame|].
    cbn [fst snd verifies changes]. exists r. split_and!; [|lia..].
    unfold getSoulByDid. cbn [souls]. by apply find_app_found.
  - rewrite putContact_unfold.
    destruct (resolveSoul _ _) as [soul|]; [|by apply Hsame].
    destruct (Date_lt _ _); [by apply Hsame|]. unfold contact_signature_stage.
    destruct (verifySignature _ _ _) as [[|]|]; try (by apply Hsame).
    cbn [fst snd verifies changes updateSoulContact].
    destruct (counters_of_update db did (SoulRecord.did soul) (set_contact contact)
                r 0 1) as (r' & Hr' & Hcount & Hversion); try done;
      [intros r0; cbn; lia|].
    exists r'. split; [done|]. split; [|done].
    rewrite Hcount. by destruct (String.eqb _ _).
  - rewrite putCapabilities_unfold.
    destruct (resolveSoul _ _) as [soul|]; [|by apply Hsame].
    destruct (Date_lt _ _); [by apply Hsame|]. unfold capabilities_signature_stage.
    destruct (verifySignature _ _ _) as [[|]|]; try (by apply Hsame).
    cbn [fst snd verifies changes updateSoulCapabilities].
    destruct (counters_of_update db did (SoulRecord.did soul)
                (set_capabilities capabilities riskLevel) r 0 1)
      as (r' & Hr' & Hcount & Hversion); try done; [intros r0; cbn; lia|].
    exists r'. split; [done|]. split; [|done].
    rewrite Hcount. by destruct (String.eqb _ _).
  - unfold postChallenge.
    destruct (resolveSoul _ _); [|by apply Hsame].
    unfold createChallenge. destruct (_ !! _); by apply Hsame.
  - rewrite postVerify_unfold.
    destruct (getChallenge _ _); [|by apply Hsame].
    destruct (_ <? _); [by apply Hsame|].
    destruct (negb (bool_decide _)); [by apply Hsame|].
    destruct (resolveSoul _ _) as [soul|]; [|by apply Hsame].
    destruct (negb (String.eqb _ _)); [by apply Hsame|].
    destruct (verifySignature _ _ _) as [[|]|]; try (by apply Hsame).
    cbn [fst snd verifies changes]. unfold incrementVerificationCount.
    destruct (counters_of_update (updateChallengeStatus db challengeId completed)
                did (SoulRecord.did soul) (set_verified now) r 1 0)
      as (r' & Hr' & Hcount & Hversion); try done; [intros r0; cbn; lia|].
    exists r'. split; [done|]. split; [done|].
    rewrite Hversion. by destruct (String.eqb _ _).
  - rewrite updateStatus_unfold.
    destruct (StatusUpdateSchema_safeParse _) as [data|]; [|by apply Hsame].
    destruct (resolveSoul _ _) as [soul|]; [|by apply Hsame].
    destruct (verifySignature _ _ _) as [[|]|]; try (by apply Hsame).
    cbn [fst snd verifies changes updateSoulStatus].
    destruct (counters_of_update db did (SoulRecord.did soul)
                (set_status newStatus (StatusUpdate.reason data) now) r 0 1)
      as (r' & Hr' & Hcount & Hversion); try done; [intros r0; cbn; lia|].
    exists r'. split; [done|]. split; [|done].
    rewrite Hcount. by destruct (String.eqb _ _).
  - by apply Hsame.
Qed.

(** X27. The counters are an exact account. Over any sequence of requests,
    the verification count of a soul grows by the number of verifications
    answered for its DID, and its version by the number of contact updates,
    capabilities updates and status changes answered for its DID; nothing
    else moves either counter. *)
Theorem counters_count_accepted_requests (db : RegistryDB)
    (events : list (Z * event)) (did : string) (r : SoulRecord.t) :
  getSoulByDid db did = Some r →
  ∃ r', getSoulByDid (run db events) did = Some r'
    ∧ SoulRecord.verificationCount r'
      = SoulRecord.verificationCount r + tally (verifies did) db events
    ∧ SoulRecord._version r'
      = SoulRecord._version r + tally (changes did) db events.
Proof.
  revert db r. induction events as [|event events IH]; intros db r Hr.
  - exists r. cbn. split_and!; [done|lia..].
  - destruct (counters_step db event did r Hr) as (r1 & Hr1 & Hcount1 & Hversion1).
    destruct (IH _ _ Hr1) as (r2 & Hr2 & Hcount2 & Hversion2).
    exists r2. split; [exact Hr2|]. cbn [tally]. lia.
Qed.

End Counters.

(** ** The texts a soul signs *)

Import Codec Signed.

Lemma status_message_not_hex newStatus did reason :
  lowercase_hex (status_message newStatus did reason) = false.
Proof. by destruct newStatus. Qed.

Section SignedTexts.
Context `{Ed25519} `{Host}.

(** X28. What a soul signs for one purpose cannot be presented for another.
    The messages of a contact update, of a capabilities update and of a
    status change differ from one another whatever they carry, and none of
    them is a nonce or the digest of a document; a nonce drawn from 32 bytes
    is not the digest of a document either. The handlers verify signatures
    over these messages. *)
Theorem signed_texts_never_collide :
  (∀ did timestamp did' timestamp',
     contact_message did timestamp ≠ capabilities_message did' timestamp')
  ∧ (∀ did timestamp newStatus did' reason,
       contact_message did timestamp ≠ status_message newStatus did' reason
       ∧ capabilities_message did timestamp ≠ status_message newStatus did' reason)
  ∧ (∀ newStatus did reason newStatus' did' reason',
       status_message newStatus did reason = status_message newStatus' did' reason' →
       newStatus = newStatus')
  ∧ (∀ random32 doc docHash did timestamp newStatus reason,
       hashSoulDocument doc = Ok docHash →
       ∀ text, text = generateNonce random32 ∨ text = docHash →
         text ≠ contact_message did timestamp
         ∧ text ≠ capabilities_message did timestamp
         ∧ text ≠ status_message newStatus did reason)
  ∧ (∀ random32 doc docHash,
       length random32 = 32%nat → hashSoulDocument doc = Ok docHash →
       generateNonce random32 ≠ docHash)
  ∧ (∀ db now didOrName soul signature timestamp,
       resolveSoul db didOrName = Some soul →
       Date_lt (Date_parse timestamp) (Some (now - fiveMinutes)) = false →
       (∀ contact,
          snd (putContact db now didOrName contact signature timestamp)
          = match verifySignature
                    (MsgString (contact_message (SoulRecord.did soul) timestamp))
                    signature (SoulRecord.publicKey soul) with
            | Ok true => ContactUpdated (SoulRecord.did soul) contact now
            | _ => Error INVALID_SIGNATURE
            end)
       ∧ (∀ capabilities riskLevel,
            snd (putCapabilities db now didOrName capabilities riskLevel signature
                   timestamp)
            = match verifySignature
                      (MsgString (capabilities_message (SoulRecord.did soul)
                                    timestamp))
                      signature (SoulRecord.publicKey soul) with
              | Ok true => CapabilitiesUpdated (SoulRecord.did soul) capabilities
                             (or_null riskLevel) now
              | _ => Error INVALID_SIGNATURE
              end)
       ∧ (∀ newStatus props reason,
            StatusUpdateSchema_safeParse (JObject props)
            = Some (StatusUpdate.Build reason signature) →
            snd (updateStatus db now didOrName newStatus (JObject props))
            = match verifySignature
                      (MsgString (status_message newStatus (SoulRecord.did soul)
                                    reason))
                      signature (SoulRecord.publicKey soul) with
              | Ok true => StatusChanged (SoulRecord.did soul) newStatus now
              | _ => Error INVALID_SIGNATURE
              end)).
Proof.
  assert (Hhex : ∀ bs, lowercase_hex (Buffer_toString_hex bs) = true).
  { intros bs. apply toString_hex_format. }
  assert (Hdigest : ∀ doc docHash, hashSoulDocument doc = Ok docHash →
            lowercase_hex docHash = true ∧ String.length docHash = 128%nat).
  { intros doc docHash. unfold hashSoulDocument, mbind, result_bind, mret, result_ret.
    destruct (Object_keys doc) as [keys|]; [|done]. intros [= <-].
    destruct (digest_text_format
                (TextEncoder_encode (JSON_stringify doc (Some (sort keys)))))
      as [Hlength Hlower].
    by split. }
  split_and!.
  - intros did timestamp did' timestamp'. discriminate.
  - intros did timestamp [] did' reason; split; discriminate.
  - intros [] did reason [] did' reason'; done.
  - intros random32 doc docHash did timestamp newStatus reason Hdoc text Htext.
    assert (Hlower : lowercase_hex text = true).
    { destruct Htext as [->| ->]; [apply Hhex | by apply (Hdigest doc)]. }
    split_and!; intros ->; [done|done|].
    by rewrite status_message_not_hex in Hlower.
  - intros random32 doc docHash Hlength Hdoc Heq.
    destruct (Hdigest doc docHash Hdoc) as [_ Hsize].
    rewrite <- Heq in Hsize. unfold generateNonce in Hsize.
    destruct (toString_hex_format random32) as [Hnonce _]. lia.
  - intros db now didOrName soul signature timestamp Hsoul Hfresh. split_and!.
    + intros contact. rewrite putContact_unfold, Hsoul, Hfresh.
      unfold contact_signature_stage, contact_message.
      by destruct (verifySignature _ _ _) as [[|]|].
    + intros capabilities riskLevel.
      rewrite putCapabilities_unfold, Hsoul, Hfresh.
      unfold capabilities_signature_stage, capabilities_message.
      by destruct (verifySignature _ _ _) as [[|]|].
    + intros newStatus props reason Hparsed.
      rewrite updateStatus_unfold, Hparsed, Hsoul. unfold status_message.
      cbn [StatusUpdate.reason StatusUpdate.signature].
      by destruct (verifySignature _ _ _) as [[|]|].
Qed.

End SignedTexts.

(** ** The further properties on the session of [Scenario] *)

Section Replayed.
Import Scenario Replay.

#[local] Existing Instance Ed25519Ref.ed25519.
#[local] Existing Instance HostRef.host.

(** Two objects that list the same two properties in either order. *)
Lemma server_digest_ignores_key_order_witness :
  hashSoulDocument (JObject [("name", JString "nexus");
                             ("did", JString "did:soul:nexus")])
  = hashSoulDocument (JObject [("did", JString "did:soul:nexus");
                               ("name", JString "nexus")]).
Proof.
  apply server_digest_ignores_key_order; [|apply perm_swap].
  apply (bool_decide_unpack _). vm_compute. exact I.
Defined.

(** The signature [nexus] made to register with its contact registers it
    with a stranger's contact and another birth certificate. *)
Lemma registration_signs_top_level_texts_witness :
  SoulDocument.contact nexus_redirected ≠ SoulDocument.contact nexus_reachable
  ∧ SoulDocument.birth nexus_redirected ≠ SoulDocument.birth nexus_reachable
  ∧ snd (register Db.empty t_register nexus_reachable sig_register_reachable)
    = Registered "did:soul:nexus" t_register
  ∧ snd (register Db.empty t_register nexus_redirected sig_register_reachable)
    = Registered "did:soul:nexus" t_register.
Proof.
  destruct (registration_signs_top_level_texts nexus_reachable nexus_redirected)
    as [_ Hanswer]; [reflexivity|].
  assert (Hsigned : snd (register Db.empty t_register nexus_reachable
                           sig_register_reachable)
                    = Registered "did:soul:nexus" t_register)
    by (vm_compute; reflexivity).
  split_and!; [discriminate|discriminate|exact Hsigned|].
  rewrite <- (Hanswer Db.empty t_register sig_register_reachable). exact Hsigned.
Defined.

(** A document and the same document with its properties, and those of its
    birth certificate, in the other order. *)
Lemma client_digest_ignores_key_order_witness :
  Client.hashSoulDocument
    (JObject [("name", JString "nexus");
              ("birth", JObject [("timestamp", JString "2026-02-01T00:00:00Z");
                                 ("operator", JString "Adam")])])
  = Client.hashSoulDocument
      (JObject [("birth", JObject [("operator", JString "Adam");
                                   ("timestamp", JString "2026-02-01T00:00:00Z")]);
                ("name", JString "nexus")]).
Proof.
  apply client_digest_ignores_key_order.
  apply (reordered_object _
           [("name", JString "nexus");
            ("birth", JObject [("operator", JString "Adam");
                               ("timestamp", JString "2026-02-01T00:00:00Z")])]);
    [apply (bool_decide_unpack _); vm_compute; exact I | | apply perm_swap].
  repeat constructor.
  apply (reordered_object _ [("timestamp", JString "2026-02-01T00:00:00Z");
                             ("operator", JString "Adam")]);
    [apply (bool_decide_unpack _); vm_compute; exact I | | apply perm_swap].
  repeat constructor.
Defined.

(** A document of texts and an array of texts. *)
Lemma digests_agree_without_nesting_witness :
  hashSoulDocument
    (JObject [("publicKey", JString publicKey);
              ("name", JString "nexus");
              ("did", JString "did:soul:nexus");
              ("protocols", JArray [JString "email"; JString "matrix"])])
  = Ok (Client.hashSoulDocument
          (JObject [("publicKey", JString publicKey);
                    ("name", JString "nexus");
                    ("did", JString "did:soul:nexus");
                    ("protocols", JArray [JString "email"; JString "matrix"])])).
Proof.
  apply digests_agree_without_nesting.
  - apply (bool_decide_unpack _). vm_compute. exact I.
  - repeat constructor.
Defined.

(** The session, with a second registration under the name in capitals,
    leaves a table that meets its constraints. *)
Lemma souls_stay_unique_witness :
  unique_souls
    (run Db.empty
       ((t_register, OnRegister nexus sig_register)
        :: (t_register, OnRegister capitalised sig_register_capitalised)
        :: session)).
Proof.
  apply souls_stay_unique. unfold unique_souls, Db.empty. cbn.
  split_and!; [constructor|constructor|reflexivity].
Defined.

(** After the session, the routes find [nexus] under its DID and under its
    name in capitals, with its key. Registered with the prefix of its DID in
    capitals, it is found under its name, and not under its DID. *)
Lemma registered_soul_resolves_witness :
  (∃ r, resolveSoul
          (run (fst (register Db.empty t_register nexus sig_register)) session)
          "did:soul:nexus" = Some r
     ∧ resolveSoul
         (run (fst (register Db.empty t_register nexus sig_register)) session)
         "NEXUS" = Some r
     ∧ SoulRecord.publicKey r = publicKey)
  ∧ (∃ r, resolveSoul
            (run (fst (register Db.empty t_register nexus_capital_prefix
                         sig_register_capital_prefix))
                 [(t_challenge, OnPostChallenge "nexus" random16 random32)])
            "nexus" = Some r
       ∧ SoulRecord.did r = "DID:SOUL:nexus")
  ∧ resolveSoul
      (run (fst (register Db.empty t_register nexus_capital_prefix
                   sig_register_capital_prefix))
           [(t_challenge, OnPostChallenge "nexus" random16 random32)])
      "DID:SOUL:nexus" = None.
Proof.
  split; [|split].
  - assert (Hregistered : snd (register Db.empty t_register nexus sig_register)
                          = Registered "did:soul:nexus" t_register)
      by (vm_compute; reflexivity).
    destruct (registered_soul_resolves Db.empty t_register nexus sig_register
                "did:soul:nexus" t_register session Hregistered)
      as (r & _ & Hname & Hpath & _ & _ & Hkey & _).
    assert (Hprefix : startsWith (SoulDocument.did nexus) "did:soul:" = true)
      by reflexivity.
    rewrite Hprefix in Hpath.
    destruct (Hname "NEXUS" eq_refl) as [_ Hcapitals].
    exists r. split_and!; [exact Hpath | exact (Hcapitals eq_refl) | exact Hkey].
  - assert (Hregistered : snd (register Db.empty t_register nexus_capital_prefix
                                 sig_register_capital_prefix)
                          = Registered "DID:SOUL:nexus" t_register)
      by (vm_compute; reflexivity).
    destruct (registered_soul_resolves Db.empty t_register nexus_capital_prefix
                sig_register_capital_prefix "DID:SOUL:nexus" t_register
                [(t_challenge, OnPostChallenge "nexus" random16 random32)]
                Hregistered)
      as (r & _ & Hname & _ & Hdid & _).
    destruct (Hname "nexus" eq_refl) as [_ Hresolved].
    exists r. split; [exact (Hresolved eq_refl) | exact Hdid].
  - vm_compute. reflexivity.
Defined.

(** After the session, the registration of [capitalised], well signed, is
    refused: the name is taken. *)
Lemma registered_name_is_taken_witness :
  register (run (fst (register Db.empty t_register nexus sig_register)) session)
    t_replay capitalised sig_register_capitalised
  = (run (fst (register Db.empty t_register nexus sig_register)) session,
     Error NAME_TAKEN).
Proof.
  assert (Hregistered : snd (register Db.empty t_register nexus sig_register)
                        = Registered "did:soul:nexus" t_register)
    by (vm_compute; reflexivity).
  pose proof (registered_name_is_taken Db.empty t_register nexus sig_register
                "did:soul:nexus" t_register session t_replay capitalised
                sig_register_capitalised Hregistered eq_refl) as Htaken.
  cbv zeta in Htaken. rewrite Htaken. reflexivity.
Defined.

(** The suspension of [nexus] is accepted; the owner reactivates the soul;
    the suspension request, sent again an hour later, suspends it again. *)
Lemma status_change_replays_witness :
  let db' := run (fst (updateStatus db_verified t_update "nexus" suspended
                         suspend_request))
                 [(t_reactivate, OnPostStatus "nexus" active reactivate_request)] in
  map SoulRecord.status (souls db') = [active]
  ∧ snd (updateStatus db' t_replay "nexus" suspended suspend_request)
    = StatusChanged "did:soul:nexus" suspended t_replay.
Proof.
  cbv zeta. split; [vm_compute; reflexivity|].
  assert (Haccepted : snd (updateStatus db_verified t_update "nexus" suspended
                             suspend_request)
                      = StatusChanged "did:soul:nexus" suspended t_update)
    by (vm_compute; reflexivity).
  exact (proj1 (status_change_replays db_verified t_update "nexus" suspended
                  suspend_request "did:soul:nexus" t_update
                  [(t_reactivate, OnPostStatus "nexus" active reactivate_request)]
                  t_replay Haccepted)).
Defined.

(** The signature [nexus] made for its contact, stamped 2099, installs a
    stranger's contact two hours later, a sweep having passed. *)
Lemma contact_signature_covers_no_contact_witness :
  snd (putContact
         (run (fst (putContact db_verified t_update "nexus" contact
                      sig_contact_future future))
              [(t_reactivate, OnSweep)])
         t_replay "nexus" other_contact sig_contact_future future)
  = ContactUpdated "did:soul:nexus" other_contact t_replay.
Proof.
  assert (Haccepted : snd (putContact db_verified t_update "nexus" contact
                             sig_contact_future future)
                      = ContactUpdated "did:soul:nexus" contact t_update)
    by (vm_compute; reflexivity).
  assert (Hfresh : Date_lt (Date_parse future) (Some (t_replay - fiveMinutes))
                   = false)
    by (vm_compute; reflexivity).
  exact (proj1 (contact_signature_covers_no_contact db_verified t_update "nexus"
                  contact sig_contact_future future "did:soul:nexus" t_update
                  [(t_reactivate, OnSweep)] t_replay other_contact
                  Haccepted Hfresh)).
Defined.

(** The signature [nexus] made to declare that it chats, at low risk,
    declares two hours later that it administers, at high risk. *)
Lemma capabilities_signature_covers_no_capabilities_witness :
  snd (putCapabilities
         (run (fst (putCapabilities db_verified t_update "nexus" ["chat"]
                      (Some "low") sig_capabilities_future future))
              [(t_reactivate, OnSweep)])
         t_replay "nexus" ["admin"] (Some "high") sig_capabilities_future future)
  = CapabilitiesUpdated "did:soul:nexus" ["admin"] (Some "high") t_replay.
Proof.
  assert (Haccepted : snd (putCapabilities db_verified t_update "nexus" ["chat"]
                             (Some "low") sig_capabilities_future future)
                      = CapabilitiesUpdated "did:soul:nexus" ["chat"] (Some "low")
                          t_update)
    by (vm_compute; reflexivity).
  assert (Hfresh : Date_lt (Date_parse future) (Some (t_replay - fiveMinutes))
                   = false)
    by (vm_compute; reflexivity).
  exact (proj1 (capabilities_signature_covers_no_capabilities db_verified t_update
                  "nexus" ["chat"] (Some "low") sig_capabilities_future future
                  "did:soul:nexus" (Some "low") t_update
                  [(t_reactivate, OnSweep)] t_replay
                  ["admin"] (Some "high") Haccepted Hfresh)).
Defined.

(** A contact update for a name that is not registered is refused and
    writes nothing. *)
Lemma refusals_write_nothing_witness :
  snd (putContact db_verified t_update "ghost" contact sig_contact_stale stale)
  = Error NOT_FOUND
  ∧ fst (putContact db_verified t_update "ghost" contact sig_contact_stale stale)
    = db_verified.
Proof.
  assert (Hrefused : snd (putContact db_verified t_update "ghost" contact
                            sig_contact_stale stale) = Error NOT_FOUND)
    by (vm_compute; reflexivity).
  split; [exact Hrefused|].
  destruct (refusals_write_nothing db_verified t_update NOT_FOUND)
    as (_ & Hcontact & _); [discriminate|].
  exact (Hcontact "ghost" contact sig_contact_stale stale Hrefused).
Defined.

(** The completed challenge of the session outlives a sweep and a request
    for a challenge that draws the same bytes. *)
Lemma settled_challenge_stays_witness :
  ∃ c', getChallenge
          (run db_verified
             [(t_late, OnSweep);
              (t_late, OnPostChallenge "nexus" random16 random32)])
          challengeId = Some c'
    ∧ Challenge.status c' ≠ pending
    ∧ Challenge.did c' = "did:soul:nexus".
Proof.
  destruct (settled_challenge_stays db_verified
              [(t_late, OnSweep);
               (t_late, OnPostChallenge "nexus" random16 random32)]
              challengeId
              {| Challenge.challengeId := challengeId;
                 Challenge.did := "did:soul:nexus";
                 Challenge.nonce :=
                   "000102030405060708090a0b0c0d0e0f101112131415161718191a1b1c1d1e1f";
                 Challenge.issuedAt := t_challenge;
                 Challenge.expiresAt := t_challenge + fiveMinutes;
                 Challenge.status := completed |})
    as (c' & Hc' & Hfields & Hsettled & _);
    [vm_compute; reflexivity | discriminate |].
  exists c'. split_and!; [exact Hc' | exact Hsettled | by rewrite Hfields].
Defined.

(** From the empty store, the session leaves every challenge with its
    soul. *)
Lemma challenges_keep_referring_witness :
  challenges_refer
    (run Db.empty ((t_register, OnRegister nexus sig_register) :: session)).
Proof.
  apply challenges_keep_referring. intros k c Hc.
  unfold getChallenge, Db.empty in Hc. cbn in Hc. by rewrite lookup_empty in Hc.
Defined.

(** The challenge issued to [nexus] is completed by the signature of its
    nonce. *)
Lemma issued_challenge_verifies_witness :
  snd (postVerify
         (fst (postChallenge db_registered t_challenge "nexus" random16 random32))
         t_verify "nexus" challengeId sig_nonce)
  = Verified "did:soul:nexus" t_verify.
Proof.
  destruct (issued_challenge_verifies db_registered t_challenge "nexus" random16
              random32 challengeId
              "000102030405060708090a0b0c0d0e0f101112131415161718191a1b1c1d1e1f"
              (t_challenge + fiveMinutes))
    as (_ & _ & _ & _ & _ & _ & soul & Hsoul & _ & Hverify);
    [vm_compute; reflexivity|].
  assert (Hfields : SoulRecord.did soul = "did:soul:nexus"
                    ∧ SoulRecord.publicKey soul = publicKey).
  { vm_compute in Hsoul. injection Hsoul as <-. split; reflexivity. }
  destruct Hfields as [Hdid Hkey].
  destruct (Hverify t_verify sig_nonce) as [Hvalid _]; [vm_compute; discriminate|].
  rewrite Hdid, Hkey in Hvalid. apply Hvalid. vm_compute. reflexivity.
Defined.

(** Two registrations of [nexus] in flight: the second found the table
    empty at its name check and finds [nexus] registered at its INSERT. The
    registration of [capitalised] after that of [nexus], with nothing in
    between, is not stopped by the table. *)
Lemma internal_error_needs_a_race_witness :
  snd (InFlight.register Db.empty db_registered t_update nexus sig_register)
  = Error INTERNAL_ERROR
  ∧ snd (register db_registered t_update capitalised sig_register_capitalised)
    ≠ Error INTERNAL_ERROR.
Proof.
  assert (Hwell : well_named db_registered).
  { intros r [<-|[]]. split; reflexivity. }
  split.
  - destruct (internal_error_needs_a_race Db.empty db_registered t_update nexus
                sig_register Hwell eq_refl) as (_ & Hrace & _).
    apply Hrace. split_and!.
    + reflexivity.
    + by intros (r & [] & _).
    + eexists. split; [vm_compute; reflexivity|]. vm_compute. reflexivity.
    + eexists. split; [left; reflexivity | reflexivity].
  - destruct (internal_error_needs_a_race Db.empty db_registered t_update
                capitalised sig_register_capitalised Hwell eq_refl)
      as (_ & _ & Hsequential & _).
    exact Hsequential.
Defined.

(** In the store that holds [nexus], the name in capitals finds its row. *)
Lemma resolution_is_unambiguous_witness :
  ∃ r, resolveSoul db_registered "NEXUS" = Some r
    ∧ SoulRecord.did r = "did:soul:nexus".
Proof.
  assert (Hrow : ∃ r, In r (souls db_registered)
                   ∧ LOWER (SoulRecord.name r) = LOWER "NEXUS"
                   ∧ SoulRecord.did r = "did:soul:nexus")
    by (vm_compute; eexists; split_and!; [left; reflexivity | reflexivity..]).
  destruct Hrow as (r & Hin & Hname & Hdid).
  exists r. split; [|exact Hdid].
  apply (resolution_is_unambiguous db_registered "NEXUS" r); [|by split].
  unfold unique_souls. split_and!;
    [apply (bool_decide_unpack _); vm_compute; exact I
    |apply (bool_decide_unpack _); vm_compute; exact I
    |reflexivity].
Defined.

(** The verification of the session stands on the pending challenge issued
    to [nexus]. *)
Lemma verified_answers_are_sound_witness :
  ∃ c, getChallenge db_challenged challengeId = Some c
    ∧ Challenge.status c = pending
    ∧ Challenge.did c = "did:soul:nexus"
    ∧ t_verify ≤ Challenge.expiresAt c.
Proof.
  destruct (verified_answers_are_sound db_challenged t_verify "nexus" challengeId
              sig_nonce "did:soul:nexus" t_verify)
    as (_ & c & soul & Hc & Hpending & Hdid & Hwindow & _);
    [vm_compute; reflexivity|].
  by exists c.
Defined.

(** Over the session, [nexus] is verified once and its record is changed
    once, by the suspension: the count goes from 0 to 1, the version from 1
    to 2. *)
Lemma counters_count_accepted_requests_witness :
  ∃ r', getSoulByDid (run db_registered session) "did:soul:nexus" = Some r'
    ∧ SoulRecord.verificationCount r' = 1
    ∧ SoulRecord._version r' = 2.
Proof.
  assert (Hrow : ∃ r, getSoulByDid db_registered "did:soul:nexus" = Some r
                   ∧ SoulRecord.verificationCount r = 0
                   ∧ SoulRecord._version r = 1)
    by (vm_compute; eauto).
  destruct Hrow as (r & Hr & Hcount0 & Hversion0).
  destruct (counters_count_accepted_requests db_registered session
              "did:soul:nexus" r Hr) as (r' & Hr' & Hcount & Hversion).
  exists r'. split; [exact Hr'|].
  rewrite Hcount, Hversion, Hcount0, Hversion0.
  assert (Htally : tally (verifies "did:soul:nexus") db_registered session = 1
                   ∧ tally (changes "did:soul:nexus") db_registered session = 1)
    by (vm_compute; split; reflexivity).
  destruct Htally as [-> ->]. split; reflexivity.
Defined.

End Replayed.
